(** * DIUACM: blog administration actions and search dialogs

    A shallow embedding of
    - the blog server actions ([createBlog], [updateBlog], [deleteBlog],
      [getBlog], [getPaginatedBlogs], [generatePresignedUrl]) with their
      helpers [handleDbError] and [validatePermission];
    - the event-attach dialog ([AttachEventDialog]);
    - the generic user-search dialog ([UserSearchDialog]).

    Server actions run in a small state-and-exception monad over a
    [world]: the table of posts, the statements sent to the store so far,
    and the failures the store is going to answer with.  Dialog handlers
    are functions from the component state to the next state and the list
    of effects (notifications, requests, callbacks) they produced. *)

From Stdlib Require Import ZArith QArith Qround String Ascii List Bool Lia.
From stdpp Require Import base option list gmap strings sorting.

Local Open Scope string_scope.
Local Open Scope Z_scope.

(** ** JavaScript values used by the sources

    A string is a sequence of one-byte characters, and letter case is the
    case of the letters A to Z. *)

Module Js.

(** The white space removed by [String.prototype.trim], restricted to
    the one-byte characters: tab, line feed, vertical tab, form feed,
    carriage return and space. *)
Definition is_whitespace (c : ascii) : bool :=
  let n := nat_of_ascii c in
  ((9 <=? n)%nat && (n <=? 13)%nat) || (n =? 32)%nat.

Fixpoint trimStart (s : string) : string :=
  match s with
  | EmptyString => EmptyString
  | String c rest => if is_whitespace c then trimStart rest else s
  end.

Fixpoint trimEnd (s : string) : string :=
  match s with
  | EmptyString => EmptyString
  | String c rest =>
      match trimEnd rest with
      | EmptyString => if is_whitespace c then EmptyString else String c EmptyString
      | kept => String c kept
      end
  end.

Definition trim (s : string) : string := trimEnd (trimStart s).

(** [s.length], as an integer. *)
Definition length (s : string) : Z := Z.of_nat (String.length s).

(** A string in a condition is true when it is not empty. *)
Definition truthy (s : string) : bool := negb (String.eqb s EmptyString).

Definition lower_ascii (c : ascii) : ascii :=
  let n := nat_of_ascii c in
  if ((65 <=? n)%nat && (n <=? 90)%nat)%bool then ascii_of_nat (n + 32) else c.

Fixpoint toLowerCase (s : string) : string :=
  match s with
  | EmptyString => EmptyString
  | String c rest => String (lower_ascii c) (toLowerCase rest)
  end.

(** [s.startsWith(p)]. *)
Definition startsWith (s p : string) : bool := String.prefix p s.

(** [s.includes(sub)]. *)
Fixpoint includes (s sub : string) : bool :=
  String.prefix sub s
  || match s with
     | EmptyString => false
     | String _ rest => includes rest sub
     end.

(** [s.split("/")]: the pieces between the slashes, in order. *)
Fixpoint split_slash (s : string) : list string :=
  match s with
  | EmptyString => [EmptyString]
  | String c rest =>
      if Ascii.eqb c "/"%char then EmptyString :: split_slash rest
      else match split_slash rest with
           | [] => [String c EmptyString]
           | piece :: pieces => String c piece :: pieces
           end
  end.

(** [s.split(sep)] for a one-character separator. *)
Fixpoint split_on (sep : ascii) (s : string) : list string :=
  match s with
  | EmptyString => [EmptyString]
  | String c rest =>
      if Ascii.eqb c sep then EmptyString :: split_on sep rest
      else match split_on sep rest with
           | [] => [String c EmptyString]
           | piece :: pieces => String c piece :: pieces
           end
  end.

(** A string in which the character [sep] does not occur. *)
Fixpoint free_of (sep : ascii) (s : string) : bool :=
  match s with
  | EmptyString => true
  | String c rest => negb (Ascii.eqb c sep) && free_of sep rest
  end.

Definition upper_ascii (c : ascii) : ascii :=
  let n := nat_of_ascii c in
  if ((97 <=? n)%nat && (n <=? 122)%nat)%bool then ascii_of_nat (n - 32) else c.

(** [s.toUpperCase()] on one-byte characters: the letters a to z change
    (see [ascii_only] for where this is all that happens). *)
Fixpoint toUpperCase (s : string) : string :=
  match s with
  | EmptyString => EmptyString
  | String c rest => String (upper_ascii c) (toUpperCase rest)
  end.

(** A string of ASCII characters only.  On such a string [toLowerCase]
    and [toUpperCase] are what JavaScript computes: the letters change
    case and nothing else does.  On other strings JavaScript follows
    Unicode, where a character may change into another or into several. *)
Fixpoint ascii_only (s : string) : bool :=
  match s with
  | EmptyString => true
  | String c rest => (nat_of_ascii c <? 128)%nat && ascii_only rest
  end.

(** [s.slice(0, n)]. *)
Fixpoint slice_to (n : nat) (s : string) : string :=
  match n, s with
  | S n', String c rest => String c (slice_to n' rest)
  | _, _ => EmptyString
  end.

(** [pieces.join("")]; an absent piece joins as nothing. *)
Fixpoint join (pieces : list (option ascii)) : string :=
  match pieces with
  | [] => EmptyString
  | Some c :: rest => String c (join rest)
  | None :: rest => join rest
  end.

(** [s[0]]. *)
Definition first_char (s : string) : option ascii :=
  match s with
  | EmptyString => None
  | String c _ => Some c
  end.

(** An absent value interpolated in a template literal prints as
    [undefined]. *)
Definition interpolate (v : option string) : string :=
  match v with Some s => s | None => "undefined" end.

(** The backslash character. *)
Definition backslash : ascii := ascii_of_nat 92.

(** The double-quote character, as a one-character string. *)
Definition quote : string := String (ascii_of_nat 34) EmptyString.

(** How an awaited call ends: with a value, or by throwing. *)
Inductive settled (A : Type) :=
| Resolved (a : A)
| Rejected.
Arguments Resolved {A} _.
Arguments Rejected {A}.

(** A [number]: not-a-number, the two infinities, or a finite value,
    kept as the rational it denotes (which is all that the comparisons
    of the sources look at). *)
Inductive number :=
| NaN
| Infinity (negative : bool)
| Finite (q : Q).

Definition isNaN (x : number) : bool :=
  match x with NaN => true | _ => false end.

(** [x < y]; every comparison with [NaN] is false. *)
Definition lt (x y : number) : bool :=
  match x, y with
  | NaN, _ | _, NaN => false
  | Infinity true, Infinity true => false
  | Infinity true, _ => true
  | _, Infinity true => false
  | Infinity false, _ => false
  | Finite _, Infinity false => true
  | Finite p, Finite q => negb (Qle_bool q p)
  end.

(** [x > y]. *)
Definition gt (x y : number) : bool := lt y x.

(** [x <= y]; like every comparison, false when either side is [NaN]. *)
Definition le (x y : number) : bool :=
  match x, y with
  | NaN, _ | _, NaN => false
  | _, _ => negb (lt y x)
  end.

Definition of_Z (z : Z) : number := Finite (inject_Z z).

(** [a / b] for two integers. *)
Definition div (a b : Z) : number :=
  if b =? 0 then
    if a =? 0 then NaN else Infinity (a <? 0)
  else if b <? 0 then Finite (Qmake (- a) (Z.to_pos (- b)))
  else Finite (Qmake a (Z.to_pos b)).

(** A finite number of the closed interval from 0 to 1. *)
Definition in_unit_interval (x : number) : bool :=
  match x with
  | Finite q => Qle_bool 0 q && Qle_bool q 1
  | _ => false
  end.

(** [Math.ceil]. *)
Definition Math_ceil (x : number) : number :=
  match x with
  | Finite q => of_Z (Qceiling q)
  | other => other
  end.

End Js.

(** ** Blog actions: results, thrown values, the store *)

Module Blog.

(** const MAX_FILE_SIZE = 5 * 1024 * 1024 *)
Definition MAX_FILE_SIZE : Z := 5 * 1024 * 1024.

(** type ActionResult<T> *)
Record ActionResult (T : Type) := mkResult {
  success : bool;
  data : option T;
  error : option string;
  message : option string;
}.
Arguments mkResult {T} _ _ _ _.
Arguments success {T} _.
Arguments data {T} _.
Arguments error {T} _.
Arguments message {T} _.

(** [{ success: false, error: msg }] *)
Definition failure {T} (msg : string) : ActionResult T :=
  mkResult false None (Some msg) None.

(** What a [catch] clause can receive: an [Error] instance with its
    message (a [z.ZodError] also carries the messages of its issues), or
    some other thrown value. *)
Inductive thrown :=
| ErrorObject (msg : string) (zod_issues : option (list string))
| NonError.

Definition isZodError (e : thrown) : bool :=
  match e with ErrorObject _ (Some _) => true | _ => false end.

Inductive outcome (A : Type) :=
| Ok (a : A)
| Throw (e : thrown).
Arguments Ok {A} _.
Arguments Throw {A} _.

(** A row of the [blogPosts] table; the time stamps are instants. *)
Record BlogPost := mkPost {
  id : Z;
  title : string;
  slug : string;
  author : string;
  content : string;
  status : string;
  featuredImage : option string;
  publishedAt : option Z;
  isFeatured : bool;
  createdAt : Z;
  updatedAt : Z;
}.

(** The values an insert or an update sets ([NewBlogPost] without the
    columns the store fills in). *)
Record BlogInsertData := mkInsert {
  ins_title : string;
  ins_slug : string;
  ins_author : string;
  ins_content : string;
  ins_status : string;
  ins_featuredImage : option string;
  ins_publishedAt : option Z;
  ins_isFeatured : bool;
}.

(** [BlogFormValues], the payload of the form. *)
Record BlogFormValues := mkForm {
  form_title : string;
  form_slug : string;
  form_author : string;
  form_content : string;
  form_status : string;
  form_featuredImage : option string;
  form_publishedAt : option string;
  form_isFeatured : option bool;
}.

(** Statements and calls that leave the action. *)
Inductive event :=
| Select
| Count
| Insert
| Update (row : Z)
| Delete (row : Z)
| RevalidatePath (path : string)
| Uuid
| GetSignedUrl (key : string) (expiresIn : Z).

(** The table, the next serial identifier, the failures the store will
    answer the coming statements with (one entry per statement, [None]
    for a statement that succeeds), and the events so far. *)
Record world := mkWorld {
  blogPosts : list BlogPost;
  serial : Z;
  faults : list (option thrown);
  trace : list event;
}.

Definition M (A : Type) : Type := world -> outcome A * world.

#[global] Instance M_ret : MRet M := fun A a w => (Ok a, w).

#[global] Instance M_bind : MBind M := fun A B f m w =>
  match m w with
  | (Ok a, w') => f a w'
  | (Throw e, w') => (Throw e, w')
  end.

Definition lift {A} (o : outcome A) : M A := fun w => (o, w).

(** try { body } catch (error) { handler } *)
Definition try_catch {A} (body : M A) (handler : thrown -> M A) : M A :=
  fun w =>
    match body w with
    | (Ok a, w') => (Ok a, w')
    | (Throw e, w') => handler e w'
    end.

Definition record (ev : event) (w : world) : world :=
  mkWorld (blogPosts w) (serial w) (faults w) (trace w ++ [ev]).

Definition emit (ev : event) : M unit := fun w => (Ok tt, record ev w).

(** The failure the store answers the next statement with, if any. *)
Definition next_fault (w : world) : option thrown :=
  match faults w with
  | Some e :: _ => Some e
  | _ => None
  end.

Definition advance (ev : event) (w : world) : world :=
  mkWorld (blogPosts w) (serial w) (tl (faults w)) (trace w ++ [ev]).

(** One statement sent to the store: it is recorded, and the store either
    answers or rejects with the failure that is next in line. *)
Definition statement (ev : event) : M unit :=
  fun w =>
    match next_fault w with
    | Some e => (Throw e, advance ev w)
    | None => (Ok tt, advance ev w)
    end.

(** The store answers the next [n] statements. *)
Definition answers (n : nat) (w : world) : Prop :=
  Forall (eq None) (take n (faults w)).

Definition get_rows : M (list BlogPost) := fun w => (Ok (blogPosts w), w).

Definition with_rows (rows : list BlogPost) (w : world) : world :=
  mkWorld rows (serial w) (faults w) (trace w).

Definition put_rows (rows : list BlogPost) : M unit :=
  fun w => (Ok tt, with_rows rows w).

Definition fresh_id : M Z :=
  fun w => (Ok (serial w), mkWorld (blogPosts w) (serial w + 1) (faults w) (trace w)).


(** *** What the actions read from their surroundings

    [hasPermission] (from the authorization library) and
    [blogFormSchema.parse] (from the schema file) are taken as they are
    called: both may answer or throw.  [new_Date], the clock, [uuid],
    [getSignedUrl] and the two environment variables complete the list. *)

Record PutObjectCommand := mkPut {
  Bucket : option string;
  Key : string;
  ContentType : string;
  ContentLength : Js.number;
}.

Record environment := mkEnv {
  hasPermission : string -> outcome bool;
  blogFormSchema_parse : BlogFormValues -> outcome BlogFormValues;
  new_Date : string -> Z;
  now : Z;
  uuid : string;
  getSignedUrl : PutObjectCommand -> Z -> outcome string;
  S3_BUCKET_NAME : option string;
  NEXT_PUBLIC_S3_DOMAIN : option string;
}.

(** *** The query operators *)

(** SQL [LIKE]: [%] matches any run of characters, [_] any one
    character, a backslash makes the next pattern character literal. *)
Fixpoint like (pattern text : string) : bool :=
  match pattern with
  | EmptyString =>
      match text with EmptyString => true | _ => false end
  | String p pattern' =>
      if Ascii.eqb p "%"%char then
        (fix any (t : string) : bool :=
           like pattern' t
           || match t with
              | EmptyString => false
              | String _ t' => any t'
              end) text
      else if Ascii.eqb p "_"%char then
        match text with
        | EmptyString => false
        | String _ t' => like pattern' t'
        end
      else if Ascii.eqb p Js.backslash then
        match pattern' with
        | EmptyString => false
        | String q pattern'' =>
            match text with
            | EmptyString => false
            | String c t' => Ascii.eqb q c && like pattern'' t'
            end
        end
      else
        match text with
        | EmptyString => false
        | String c t' => Ascii.eqb p c && like pattern' t'
        end
  end.

(** [ilike(column, pattern)]: [LIKE] without regard to letter case. *)
Definition ilike (column pattern : string) : bool :=
  like (Js.toLowerCase pattern) (Js.toLowerCase column).

(** desc(blogPosts.createdAt) *)
Definition newer_first (a b : BlogPost) : Prop := createdAt b <= createdAt a.

#[global] Instance newer_first_dec a b : Decision (newer_first a b) :=
  Z_le_dec (createdAt b) (createdAt a).

Definition where_clause (cond : option (BlogPost -> bool)) (rows : list BlogPost) :
    list BlogPost :=
  match cond with
  | Some keep => List.filter keep rows
  | None => rows
  end.

(** [.limit(n).offset(k)]: [n] rows after the first [k]; the store
    rejects a negative bound. *)
Definition limit_offset (n k : Z) (rows : list BlogPost) : outcome (list BlogPost) :=
  if n <? 0 then Throw (ErrorObject "LIMIT must not be negative" None)
  else if k <? 0 then Throw (ErrorObject "OFFSET must not be negative" None)
  else Ok (take (Z.to_nat n) (drop (Z.to_nat k) rows)).

(** db.select(..).from(blogPosts).where(cond).limit(n) *)
Definition select_where_limit (cond : BlogPost -> bool) (n : Z) : M (list BlogPost) :=
  _ ← statement Select;
  rows ← get_rows;
  lift (limit_offset n 0 (where_clause (Some cond) rows)).

(** db.select(..).from(blogPosts).where(cond)
      .orderBy(desc(blogPosts.createdAt)).limit(n).offset(k)

    Rows with the same creation time come in the order a stable sort
    leaves them in.  The store is free to order such rows otherwise, and
    differently in each query: what is proved about the order among rows
    is either independent of it or stated for rows with distinct
    creation times, where descending creation time leaves one order. *)
Definition select_page (cond : option (BlogPost -> bool)) (n k : Z) : M (list BlogPost) :=
  _ ← statement Select;
  rows ← get_rows;
  lift (limit_offset n k (merge_sort newer_first (where_clause cond rows))).

(** db.select({ count: count() }).from(blogPosts).where(cond) *)
Definition select_count (cond : option (BlogPost -> bool)) : M Z :=
  _ ← statement Count;
  rows ← get_rows;
  mret (Z.of_nat (length (where_clause cond rows))).

(** Modelled from the spec: the declaration of the [blogPosts] table
    (the schema file) is not among the sources.  A post carries an
    identity and created/updated time stamps that the actions never set
    themselves: a new row takes the next serial identifier and the
    current time for both stamps. *)
Definition new_row (new_id : Z) (stamp : Z) (v : BlogInsertData) : BlogPost :=
  mkPost new_id (ins_title v) (ins_slug v) (ins_author v) (ins_content v)
    (ins_status v) (ins_featuredImage v) (ins_publishedAt v) (ins_isFeatured v)
    stamp stamp.

(** Modelled from the spec: the declaration of the [blogPosts] table
    is not among the sources.  An update merges the given columns into
    the row and stamps the updated-at time; identity and creation time
    stay. *)
Definition updated_row (stamp : Z) (v : BlogInsertData) (r : BlogPost) : BlogPost :=
  mkPost (id r) (ins_title v) (ins_slug v) (ins_author v) (ins_content v)
    (ins_status v) (ins_featuredImage v) (ins_publishedAt v) (ins_isFeatured v)
    (createdAt r) stamp.

(** db.insert(blogPosts).values(v).returning({ id: blogPosts.id }) *)
Definition insert_returning_id (env : environment) (v : BlogInsertData) : M Z :=
  _ ← statement Insert;
  new_id ← fresh_id;
  rows ← get_rows;
  _ ← put_rows (rows ++ [new_row new_id (now env) v]);
  mret new_id.

(** db.update(blogPosts).set(v).where(eq(blogPosts.id, target)) *)
Definition update_set_where_id (env : environment) (v : BlogInsertData) (target : Z) :
    M unit :=
  _ ← statement (Update target);
  rows ← get_rows;
  put_rows (map (fun r => if id r =? target then updated_row (now env) v r else r) rows).

(** db.delete(blogPosts).where(eq(blogPosts.id, target)) *)
Definition delete_where_id (target : Z) : M unit :=
  _ ← statement (Delete target);
  rows ← get_rows;
  put_rows (List.filter (fun r => negb (id r =? target)) rows).

Definition revalidatePath (path : string) : M unit := emit (RevalidatePath path).


(** *** The actions *)

Definition DUPLICATE : string := "A blog with this title or slug already exists".
Definition SOMETHING_WRONG : string := "Something went wrong. Please try again.".
Definition NOT_FOUND : string := "Blog post not found".
Definition NO_PERMISSION : string := "You don't have permission to manage blog posts".

(** function handleDbError(error); the line it writes to the console is
    left out. *)
Definition handleDbError {T} (error : thrown) : ActionResult T :=
  match error with
  | ErrorObject msg _ =>
      if Js.includes msg "Duplicate entry" then failure DUPLICATE
      else failure SOMETHING_WRONG
  | NonError => failure SOMETHING_WRONG
  end.

(** async function validatePermission() *)
Definition validatePermission {T} (env : environment) : M (option (ActionResult T)) :=
  allowed ← lift (hasPermission env "manage_blog_posts");
  if negb allowed then mret (Some (failure NO_PERMISSION))
  else mret None.

(** firstError?.message || "Please check the form for errors." *)
Definition first_issue (issues : list string) : string :=
  match issues with
  | m :: _ => if Js.truthy m then m else "Please check the form for errors."
  | [] => "Please check the form for errors."
  end.

(** The [catch] clause of [createBlog] and [updateBlog]. *)
Definition catch_form_error {T} (error : thrown) : M (ActionResult T) :=
  match error with
  | ErrorObject _ (Some issues) => mret (failure (first_issue issues))
  | _ => mret (handleDbError error)
  end.

(** "Convert form types to database types" *)
Definition dbValues_of (env : environment) (validatedFields : BlogFormValues) :
    BlogInsertData :=
  mkInsert
    (form_title validatedFields)
    (form_slug validatedFields)
    (form_author validatedFields)
    (form_content validatedFields)
    (form_status validatedFields)
    (match form_featuredImage validatedFields with
     | Some url => if Js.truthy url then Some url else None
     | None => None
     end)
    (match form_publishedAt validatedFields with
     | Some day => if Js.truthy day then Some (new_Date env day) else None
     | None => None
     end)
    (match form_isFeatured validatedFields with
     | Some flag => flag
     | None => false
     end).

Definition same_title_or_slug (validatedFields : BlogFormValues) (r : BlogPost) : bool :=
  String.eqb (title r) (form_title validatedFields)
  || String.eqb (slug r) (form_slug validatedFields).

Definition createBlog_try (env : environment) (values : BlogFormValues) :
    M (ActionResult (BlogInsertData * Z)) :=
  permissionError ← validatePermission env;
  match permissionError with
  | Some denied => mret denied
  | None =>
      validatedFields ← lift (blogFormSchema_parse env values);
      existingBlog ← select_where_limit (same_title_or_slug validatedFields) 1;
      if (0 <? length existingBlog)%nat then mret (failure DUPLICATE)
      else
        let dbValues := dbValues_of env validatedFields in
        new_id ← insert_returning_id env dbValues;
        _ ← revalidatePath "/admin/blogs";
        _ ← revalidatePath "/blogs";
        mret (mkResult true (Some (dbValues, new_id)) None
                (Some "Blog post created successfully"))
  end.

Definition createBlog (env : environment) (values : BlogFormValues) :
    M (ActionResult (BlogInsertData * Z)) :=
  try_catch (createBlog_try env values) catch_form_error.

(** The decimal digits of an identifier, for the path of the edit page. *)
Definition digit (d : Z) : string := String (ascii_of_nat (48 + Z.to_nat d)) EmptyString.

Fixpoint digits (fuel : nat) (n : Z) : string :=
  match fuel with
  | O => EmptyString
  | S fuel' => if n <? 10 then digit n else digits fuel' (n / 10) +:+ digit (n mod 10)
  end.

Definition decimal (n : Z) : string :=
  if n <? 0 then "-" +:+ digits (S (Z.to_nat (Z.log2 (- n)))) (- n)
  else digits (S (Z.to_nat (Z.log2 n))) n.

Definition updateBlog_try (env : environment) (target : Z) (values : BlogFormValues) :
    M (ActionResult (BlogInsertData * Z)) :=
  permissionError ← validatePermission env;
  match permissionError with
  | Some denied => mret denied
  | None =>
      validatedFields ← lift (blogFormSchema_parse env values);
      existingBlog ← select_where_limit (fun r => id r =? target) 1;
      if (length existingBlog =? 0)%nat then mret (failure NOT_FOUND)
      else
        duplicateBlog ← select_where_limit
          (fun r => same_title_or_slug validatedFields r && negb (id r =? target)) 1;
        if (0 <? length duplicateBlog)%nat then mret (failure DUPLICATE)
        else
          let dbValues := dbValues_of env validatedFields in
          _ ← update_set_where_id env dbValues target;
          _ ← revalidatePath "/admin/blogs";
          _ ← revalidatePath ("/admin/blogs/" +:+ decimal target +:+ "/edit");
          _ ← revalidatePath "/blogs";
          mret (mkResult true (Some (dbValues, target)) None
                  (Some "Blog post updated successfully"))
  end.

Definition updateBlog (env : environment) (target : Z) (values : BlogFormValues) :
    M (ActionResult (BlogInsertData * Z)) :=
  try_catch (updateBlog_try env target values) catch_form_error.

Definition deleteBlog_try (env : environment) (target : Z) : M (ActionResult unit) :=
  permissionError ← validatePermission env;
  match permissionError with
  | Some denied => mret denied
  | None =>
      blogData ← select_where_limit (fun r => id r =? target) 1;
      match blogData with
      | [] => mret (failure NOT_FOUND)
      | blog :: _ =>
          _ ← delete_where_id target;
          _ ← revalidatePath "/admin/blogs";
          _ ← revalidatePath "/blogs";
          mret (mkResult true None None
                  (Some ("Blog post " +:+ Js.quote +:+ title blog +:+ Js.quote
                         +:+ " deleted successfully")))
      end
  end.

Definition deleteBlog (env : environment) (target : Z) : M (ActionResult unit) :=
  try_catch (deleteBlog_try env target) (fun error => mret (handleDbError error)).

Definition getBlog_try (env : environment) (target : Z) : M (ActionResult BlogPost) :=
  permissionError ← validatePermission env;
  match permissionError with
  | Some denied => mret denied
  | None =>
      blog ← select_where_limit (fun r => id r =? target) 1;
      match blog with
      | [] => mret (failure NOT_FOUND)
      | found :: _ => mret (mkResult true (Some found) None None)
      end
  end.

Definition getBlog (env : environment) (target : Z) : M (ActionResult BlogPost) :=
  try_catch (getBlog_try env target) (fun error => mret (handleDbError error)).

Record pagination_info := mkPagination {
  currentPage : Z;
  totalPages : Js.number;
  totalCount : Z;
  pageSize : Z;
}.

Record PaginatedBlogsData := mkPage {
  blogs : list BlogPost;
  pagination : pagination_info;
}.

(** or(ilike(title, `%${search}%`), ilike(author, ..), ilike(content, ..)) *)
Definition search_matches (search : string) (r : BlogPost) : bool :=
  ilike (title r) ("%" +:+ search +:+ "%")
  || ilike (author r) ("%" +:+ search +:+ "%")
  || ilike (content r) ("%" +:+ search +:+ "%").

(** search ? or(..) : undefined *)
Definition searchCondition (search : option string) : option (BlogPost -> bool) :=
  match search with
  | Some term => if Js.truthy term then Some (search_matches term) else None
  | None => None
  end.

(** The two queries of [Promise.all] are taken one after the other. *)
Definition getPaginatedBlogs_try (env : environment) (page size : Z)
    (search : option string) : M (ActionResult PaginatedBlogsData) :=
  permissionError ← validatePermission env;
  match permissionError with
  | Some denied => mret denied
  | None =>
      let skip := (page - 1) * size in
      blogsData ← select_page (searchCondition search) size skip;
      totalCountResult ← select_count (searchCondition search);
      let pages := Js.Math_ceil (Js.div totalCountResult size) in
      mret (mkResult true
              (Some (mkPage blogsData (mkPagination page pages totalCountResult size)))
              None None)
  end.

Definition getPaginatedBlogs (env : environment) (page size : Z)
    (search : option string) : M (ActionResult PaginatedBlogsData) :=
  try_catch (getPaginatedBlogs_try env page size search)
    (fun error => mret (handleDbError error)).

Record upload_urls := mkUrls {
  presignedUrl : string;
  fileUrl : string;
}.

(** `blog-images/${uniqueId}.${fileExtension}` *)
Definition storage_key (uniqueId fileType : string) : string :=
  "blog-images/" +:+ uniqueId +:+ "."
  +:+ Js.interpolate (nth_error (Js.split_slash fileType) 1).

Definition generatePresignedUrl_try (env : environment) (fileType : string)
    (fileSize : Js.number) : M (ActionResult upload_urls) :=
  allowed ← lift (hasPermission env "manage_blog_posts");
  if negb allowed then mret (failure "Unauthorized")
  else if negb (Js.startsWith fileType "image/") then
    mret (failure "Only image files are allowed")
  else if Js.gt fileSize (Js.of_Z MAX_FILE_SIZE) then
    mret (failure "File size exceeds the 5MB limit")
  else
    _ ← emit Uuid;
    let key := storage_key (uuid env) fileType in
    let putObjectCommand := mkPut (S3_BUCKET_NAME env) key fileType fileSize in
    _ ← emit (GetSignedUrl key 300);
    signed ← lift (getSignedUrl env putObjectCommand 300);
    let public := Js.interpolate (NEXT_PUBLIC_S3_DOMAIN env) +:+ "/" +:+ key in
    mret (mkResult true (Some (mkUrls signed public)) None None).

Definition generatePresignedUrl (env : environment) (fileType : string)
    (fileSize : Js.number) : M (ActionResult upload_urls) :=
  try_catch (generatePresignedUrl_try env fileType fileSize)
    (fun error => mret (handleDbError error)).

(** *** Vocabulary of the properties *)

(** The words of a capability name: its underscores read as spaces. *)
Fixpoint capability_words (name : string) : string :=
  match name with
  | EmptyString => EmptyString
  | String c rest =>
      String (if Ascii.eqb c "_"%char then " "%char else c) (capability_words rest)
  end.

(** A message names a capability when it contains the name of the
    capability or its words. *)
Definition names_capability (capability msg : string) : bool :=
  Js.includes msg capability || Js.includes msg (capability_words capability).

(** What [updateBlog] leaves behind when it goes through. *)
Definition updated_world (env : environment) (target : Z)
    (validatedFields : BlogFormValues) (w : world) : world :=
  record (RevalidatePath "/blogs")
    (record (RevalidatePath ("/admin/blogs/" +:+ decimal target +:+ "/edit"))
       (record (RevalidatePath "/admin/blogs")
          (with_rows
             (map (fun r => if id r =? target
                            then updated_row (now env) (dbValues_of env validatedFields) r
                            else r)
                (blogPosts w))
             (advance (Update target) (advance Select (advance Select w)))))).

(** The characters with a meaning of their own in a [LIKE] pattern. *)
Definition is_pattern_char (c : ascii) : bool :=
  Ascii.eqb c "%"%char || Ascii.eqb c "_"%char || Ascii.eqb c Js.backslash.

(** A term without pattern characters. *)
Fixpoint plain (term : string) : bool :=
  match term with
  | EmptyString => true
  | String c rest => negb (is_pattern_char c) && plain rest
  end.

(** [text] contains [term], letter case aside. *)
Definition contains_ci (text term : string) : bool :=
  Js.includes (Js.toLowerCase text) (Js.toLowerCase term).

(** The title, the author or the content of the row contains the term,
    letter case aside. *)
Definition substring_match (term : string) (r : BlogPost) : bool :=
  contains_ci (title r) term || contains_ci (author r) term
  || contains_ci (content r) term.

(** The data of a listing, when the action answered with some. *)
Definition page_of (answer : outcome (ActionResult PaginatedBlogsData) * world) :
    option PaginatedBlogsData :=
  match fst answer with
  | Ok r => data r
  | Throw _ => None
  end.



(** The row [updateBlog] writes for [r]. *)
Definition rewritten (env : environment) (target : Z)
    (validatedFields : BlogFormValues) (r : BlogPost) : BlogPost :=
  if id r =? target
  then updated_row (now env) (dbValues_of env validatedFields) r
  else r.

(** The window of a page: [size] rows after the first (page - 1) * size. *)
Definition page_window (page size : Z) (ordered : list BlogPost) : list BlogPost :=
  take (Z.to_nat size) (drop (Z.to_nat ((page - 1) * size)) ordered).

(** What [createBlog] leaves behind when it goes through. *)
Definition created_world (env : environment) (validatedFields : BlogFormValues)
    (w : world) : world :=
  record (RevalidatePath "/blogs")
    (record (RevalidatePath "/admin/blogs")
       (mkWorld
          (blogPosts w
           ++ [new_row (serial w) (now env) (dbValues_of env validatedFields)])%list
          (serial w + 1)
          (faults (advance Insert (advance Select w)))
          (trace (advance Insert (advance Select w))))).

(** What [deleteBlog] leaves behind when it goes through. *)
Definition deleted_world (target : Z) (w : world) : world :=
  record (RevalidatePath "/blogs")
    (record (RevalidatePath "/admin/blogs")
       (with_rows (List.filter (fun r => negb (id r =? target)) (blogPosts w))
          (advance (Delete target) (advance Select w)))).

(** A string without a slash. *)
Fixpoint slash_free (s : string) : bool :=
  match s with
  | EmptyString => true
  | String c rest => negb (Ascii.eqb c "/"%char) && slash_free rest
  end.

(** The errors [handleDbError] reports as a duplicate entry. *)
Definition is_duplicate_entry (e : thrown) : bool :=
  match e with
  | ErrorObject msg _ => Js.includes msg "Duplicate entry"
  | NonError => false
  end.

End Blog.

(** ** The event-attach dialog *)

Module AttachEventDialog.

(** interface Event *)
Record Event := mkEvent {
  id : Z;
  title : string;
  description : option string;
  startingAt : Z;
  type : string;
}.

(** The envelope the two server actions of the dialog answer with. *)
Record response (D : Type) := mkResponse {
  success : bool;
  data : option D;
  error : option string;
}.
Arguments mkResponse {D} _ _ _.
Arguments success {D} _.
Arguments data {D} _.
Arguments error {D} _.

(** The state cells of the component. *)
Record state := mkState {
  isOpen : bool;
  searchQuery : string;
  debouncedSearch : string;
  isSearching : bool;
  isAttaching : option Z;
  searchResults : list Event;
  eventWeights : gmap Z string;
}.

Definition setSearchQuery (q : string) (st : state) : state :=
  mkState (isOpen st) q (debouncedSearch st) (isSearching st) (isAttaching st)
    (searchResults st) (eventWeights st).

Definition setDebouncedSearch (q : string) (st : state) : state :=
  mkState (isOpen st) (searchQuery st) q (isSearching st) (isAttaching st)
    (searchResults st) (eventWeights st).

Definition setIsSearching (b : bool) (st : state) : state :=
  mkState (isOpen st) (searchQuery st) (debouncedSearch st) b (isAttaching st)
    (searchResults st) (eventWeights st).

Definition setIsAttaching (a : option Z) (st : state) : state :=
  mkState (isOpen st) (searchQuery st) (debouncedSearch st) (isSearching st) a
    (searchResults st) (eventWeights st).

(** setSearchResults((prev) => f(prev)) *)
Definition setSearchResults (f : list Event -> list Event) (st : state) : state :=
  mkState (isOpen st) (searchQuery st) (debouncedSearch st) (isSearching st)
    (isAttaching st) (f (searchResults st)) (eventWeights st).

(** setEventWeights((prev) => f(prev)) *)
Definition setEventWeights (f : gmap Z string -> gmap Z string) (st : state) : state :=
  mkState (isOpen st) (searchQuery st) (debouncedSearch st) (isSearching st)
    (isAttaching st) (searchResults st) (f (eventWeights st)).

(** What a handler does to the outside. *)
Inductive effect :=
| toast_error (msg : string)
| toast_success (msg : string)
| console_error
| getAvailableEvents (ranklistId : Z)
| attachEventToRanklist (ranklistId eventId : Z) (weight : Js.number)
| onSuccess.

Section Component.

(** The props, and [parseFloat] of the language. *)
Variable ranklistId : Z.
Variable onSuccess_given : bool.
Variable parseFloat : string -> Js.number.

(** The filter of [handleSearch]: title, description or type contains
    the query, letter case aside. *)
Definition event_matches (query : string) (event : Event) : bool :=
  Js.includes (Js.toLowerCase (title event)) (Js.toLowerCase query)
  || match description event with
     | Some text => Js.includes (Js.toLowerCase text) (Js.toLowerCase query)
     | None => false
     end
  || Js.includes (Js.toLowerCase (type event)) (Js.toLowerCase query).

(** [handleSearch(query)] up to its [await]: either the guard clears
    the list, or the request leaves. *)
Definition handleSearch (query : string) (st : state) : state * list effect :=
  if negb (Js.truthy (Js.trim query)) || (Js.length query <? 2) then
    (setSearchResults (fun _ => []) st, [])
  else
    (setIsSearching true st, [getAvailableEvents ranklistId]).

(** The rest of [handleSearch(query)], once the request has settled. *)
Definition handleSearch_settled (query : string)
    (answer : Js.settled (response (list Event))) (st : state) :
    state * list effect :=
  match answer with
  | Js.Resolved r =>
      match success r, data r with
      | true, Some events =>
          let filteredEvents := List.filter (event_matches query) events in
          (setIsSearching false (setSearchResults (fun _ => filteredEvents) st), [])
      | _, _ =>
          (setIsSearching false (setSearchResults (fun _ => []) st),
           [toast_error (match error r with
                         | Some msg => if Js.truthy msg then msg
                                       else "Failed to search events"
                         | None => "Failed to search events"
                         end)])
      end
  | Js.Rejected =>
      (setIsSearching false (setSearchResults (fun _ => []) st),
       [console_error; toast_error "An unexpected error occurred while searching"])
  end.

(** onChange of the search input *)
Definition input_changed (value : string) (st : state) : state :=
  let st' := setSearchQuery value st in
  if String.eqb value EmptyString then setSearchResults (fun _ => []) st' else st'.

(** The effect on [debouncedSearch]. *)
Definition debounced_effect (st : state) : state * list effect :=
  if Js.truthy (debouncedSearch st)
     && (2 <=? Js.length (Js.trim (debouncedSearch st)))
  then handleSearch (debouncedSearch st) st
  else (setSearchResults (fun _ => []) st, []).

(** The query has been quiet for the debounce delay: the debounced
    value takes the value of the query and its effect runs.  This is the
    settle at a value other than the one [debouncedSearch] had: the
    effect depends on [debouncedSearch] and on [handleSearch] (recreated
    with it), so a settle at the same value runs nothing and leaves the
    state as it is. *)
Definition debounce_settled (st : state) : state * list effect :=
  debounced_effect (setDebouncedSearch (searchQuery st) st).

(** eventWeights[eventId] || "1.0": what the weight input shows and
    what [handleAttachEvent] reads. *)
Definition weight_of (st : state) (eventId : Z) : string :=
  match eventWeights st !! eventId with
  | Some w => if Js.truthy w then w else "1.0"
  | None => "1.0"
  end.

Definition updateEventWeight (eventId : Z) (weight : string) (st : state) : state :=
  setEventWeights (fun prev => <[eventId := weight]> prev) st.

(** [handleAttachEvent(eventId)], with the way the attach request
    settles.  [st] is the state of the render the handler was made in;
    no other update lands while the request is in flight. *)
Definition handleAttachEvent {D} (eventId : Z)
    (answer : Js.settled (response D)) (st : state) : state * list effect :=
  let weight := weight_of st eventId in
  let weightValue := parseFloat weight in
  if Js.isNaN weightValue
     || Js.lt weightValue (Js.of_Z 0)
     || Js.gt weightValue (Js.of_Z 1)
  then (st, [toast_error "Weight must be between 0.0 and 1.0"])
  else
    let st1 := setIsAttaching (Some eventId) st in
    let request := attachEventToRanklist ranklistId eventId weightValue in
    let settled :=
      match answer with
      | Js.Resolved r =>
          if success r then
            let st_a :=
              setSearchResults
                (fun prev => List.filter (fun event => negb (id event =? eventId)) prev)
                st1 in
            let st_b := setEventWeights (fun prev => delete eventId prev) st_a in
            let refreshed :=
              if ((length (searchResults st) =? 1)%nat
                  && (2 <=? Js.length (Js.trim (searchQuery st))))%bool
              then handleSearch (searchQuery st) st_b
              else (st_b, []) in
            (fst refreshed,
             ([toast_success "Event attached successfully"] ++ snd refreshed
              ++ (if onSuccess_given then [onSuccess] else []))%list)
          else
            (st1, [toast_error (match error r with
                                | Some msg => if Js.truthy msg then msg
                                              else "Failed to attach event"
                                | None => "Failed to attach event"
                                end)])
      | Js.Rejected =>
          (st1, [console_error; toast_error "An unexpected error occurred"])
      end in
    (setIsAttaching None (fst settled), request :: snd settled).

(** The effect on [isOpen]. *)
Definition opened_effect (st : state) : state :=
  if isOpen st then
    setEventWeights (fun _ => ∅)
      (setSearchResults (fun _ => []) (setSearchQuery EmptyString st))
  else st.

(** [handleKeyDown(e)]: the new state, the effects, and whether the
    default action of the key was prevented. *)
Definition handleKeyDown (key : string) (st : state) : state * list effect * bool :=
  if String.eqb key "Enter" && (2 <=? Js.length (Js.trim (searchQuery st)))
  then (handleSearch (searchQuery st) st, true)
  else ((st, []), false).

(** The four panels of the result area. *)
Inductive panel := Skeletons | Results | NoEvents | StartTyping.

(** The panel the component renders under the search input. *)
Definition shown (st : state) : panel :=
  if isSearching st then Skeletons
  else if (0 <? length (searchResults st))%nat then Results
  else if Js.truthy (searchQuery st) && (2 <=? Js.length (searchQuery st))
          && negb (isSearching st)
  then NoEvents
  else StartTyping.

End Component.

End AttachEventDialog.


(** ** The generic user-search dialog *)

Module UserSearchDialog.

(** UserSearchResult, with the fields the dialog shows. *)
Record UserSearchResult := mkUser {
  id : string;
  name : string;
  email : string;
  studentId : option string;
  image : option string;
}.

(** type AddUserResponse *)
Record AddUserResponse (D : Type) := mkResponse {
  success : bool;
  error : option string;
  data : option D;
}.
Arguments mkResponse {D} _ _ _.
Arguments success {D} _.
Arguments error {D} _.
Arguments data {D} _.

Record state := mkState {
  open : bool;
  searchQuery : string;
  debouncedSearch : string;
  isSearching : bool;
  isAdding : option string;
  searchResults : list UserSearchResult;
}.

Definition setSearchQuery (q : string) (st : state) : state :=
  mkState (open st) q (debouncedSearch st) (isSearching st) (isAdding st)
    (searchResults st).

Definition setDebouncedSearch (q : string) (st : state) : state :=
  mkState (open st) (searchQuery st) q (isSearching st) (isAdding st)
    (searchResults st).

Definition setIsSearching (b : bool) (st : state) : state :=
  mkState (open st) (searchQuery st) (debouncedSearch st) b (isAdding st)
    (searchResults st).

Definition setIsAdding (a : option string) (st : state) : state :=
  mkState (open st) (searchQuery st) (debouncedSearch st) (isSearching st) a
    (searchResults st).

(** setSearchResults((prev) => f(prev)) *)
Definition setSearchResults (f : list UserSearchResult -> list UserSearchResult)
    (st : state) : state :=
  mkState (open st) (searchQuery st) (debouncedSearch st) (isSearching st)
    (isAdding st) (f (searchResults st)).

Section Component.

(** The type of the data an add action answers with. *)
Context {D : Type}.

Inductive effect :=
| toast_error (msg : string)
| toast_success (msg : string)
| console_error
| searchUsers (query : string)
| addUser (userId : string)
| onUserAdded (argument : option D).

(** The props the handlers read. *)
Variable successMessage : string.
Variable buttonLabel : string.
Variable onUserAdded_given : bool.

(** [handleSearch(query)] up to its [await]. *)
Definition handleSearch (query : string) (st : state) : state * list effect :=
  if negb (Js.truthy (Js.trim query)) || (Js.length query <? 2) then
    (setSearchResults (fun _ => []) st, [])
  else
    (setIsSearching true st, [searchUsers query]).

(** The rest of [handleSearch(query)], once the request has settled. *)
Definition handleSearch_settled
    (answer : Js.settled (AddUserResponse (list UserSearchResult))) (st : state) :
    state * list effect :=
  match answer with
  | Js.Resolved r =>
      match success r, data r with
      | true, Some users =>
          (setIsSearching false (setSearchResults (fun _ => users) st), [])
      | _, _ =>
          (setIsSearching false (setSearchResults (fun _ => []) st),
           [toast_error (match error r with
                         | Some msg => if Js.truthy msg then msg
                                       else "Failed to search users"
                         | None => "Failed to search users"
                         end)])
      end
  | Js.Rejected =>
      (setIsSearching false (setSearchResults (fun _ => []) st),
       [console_error; toast_error "An unexpected error occurred while searching"])
  end.

(** onChange of the search input *)
Definition input_changed (value : string) (st : state) : state :=
  let st' := setSearchQuery value st in
  if String.eqb value EmptyString then setSearchResults (fun _ => []) st' else st'.

(** The effect on [debouncedSearch]: it has no other branch. *)
Definition debounced_effect (st : state) : state * list effect :=
  if Js.truthy (debouncedSearch st)
     && (2 <=? Js.length (Js.trim (debouncedSearch st)))
  then handleSearch (debouncedSearch st) st
  else (st, []).

(** The query has been quiet for the debounce delay: the debounced value
    takes the value of the query and its effect runs.  This is the settle
    at a value other than the one [debouncedSearch] had: a settle at the
    same value runs nothing and leaves the state as it is. *)
Definition debounce_settled (st : state) : state * list effect :=
  debounced_effect (setDebouncedSearch (searchQuery st) st).

(** [handleAddUser(userId)], with the way the add request settles.  [st]
    is the state of the render the handler was made in; no other update
    lands while the request is in flight. *)
Definition handleAddUser (userId : string)
    (answer : Js.settled (AddUserResponse D)) (st : state) : state * list effect :=
  let st1 := setIsAdding (Some userId) st in
  let request := addUser userId in
  let settled :=
    match answer with
    | Js.Resolved r =>
        if success r then
          let st_a :=
            setSearchResults
              (fun prev => List.filter (fun user => negb (String.eqb (id user) userId)) prev)
              st1 in
          let refreshed :=
            if (length (searchResults st) =? 1)%nat
            then handleSearch (debouncedSearch st) st_a
            else (st_a, []) in
          (fst refreshed,
           ([toast_success successMessage] ++ snd refreshed
            ++ (if onUserAdded_given then [onUserAdded (data r)] else []))%list)
        else
          (st1, [toast_error (match error r with
                              | Some msg => if Js.truthy msg then msg
                                            else "Failed to " +:+ Js.toLowerCase buttonLabel
                              | None => "Failed to " +:+ Js.toLowerCase buttonLabel
                              end)])
    | Js.Rejected =>
        (st1, [console_error; toast_error "An unexpected error occurred"])
    end in
  (setIsAdding None (fst settled), request :: snd settled).

(** The effect on [open]. *)
Definition opened_effect (st : state) : state :=
  if open st then setSearchResults (fun _ => []) (setSearchQuery EmptyString st)
  else st.

(** onKeyDown of the search input *)
Definition handleKeyDown (key : string) (st : state) : state * list effect :=
  if String.eqb key "Enter" && (2 <=? Js.length (Js.trim (searchQuery st)))
  then handleSearch (searchQuery st) st
  else (st, []).

End Component.

(** const getInitials = (name) =>
      name.split(" ").map((n) => n[0]).join("").toUpperCase().slice(0, 2) *)
Definition getInitials (name : string) : string :=
  Js.slice_to 2
    (Js.toUpperCase (Js.join (map Js.first_char (Js.split_on " "%char name)))).

(** The four panels of the result area. *)
Inductive panel := Skeletons | Results | NoUsers | TypeMore.

(** The panel the component renders under the search input. *)
Definition shown (st : state) : panel :=
  if isSearching st then Skeletons
  else if (0 <? length (searchResults st))%nat then Results
  else if Js.truthy (searchQuery st) && (2 <=? Js.length (searchQuery st))
  then NoUsers
  else TypeMore.

Arguments effect : clear implicits.

End UserSearchDialog.


(** ** Changing the password *)

Module ChangePassword.
Import Blog.

(** Modelled from the spec: the declaration of the [users] table is not
    among the sources.  A user has an identity, an email, a password hash
    (absent for an account without a password) and an updated-at time
    stamp; the other columns play no part here. *)
Record User := mkUser {
  id : string;
  email : string;
  password : option string;
  updatedAt : Z;
}.

(** [ChangePasswordValues]: the new password, which is the one field the
    action reads, and the other fields of the form by name. *)
Record ChangePasswordValues := mkValues {
  newPassword : string;
  otherFields : list (string * string);
}.

Inductive event :=
| Hash (rounds : Z)
| UpdateUsers (where_email : string).

Record world := mkWorld {
  users : list User;
  faults : list (option thrown);
  trace : list event;
}.

(** [auth] answers with the email of the session, [session?.user?.email],
    when there is one; the schema and [bcrypt.hash] may answer or throw. *)
Record environment := mkEnv {
  auth : outcome (option string);
  changePasswordSchema_parse : ChangePasswordValues -> outcome ChangePasswordValues;
  bcrypt_hash : string -> Z -> outcome string;
  now : Z;
}.

Definition M (A : Type) : Type := world -> outcome A * world.

#[global] Instance M_ret : MRet M := fun A a w => (Ok a, w).

#[global] Instance M_bind : MBind M := fun A B f m w =>
  match m w with
  | (Ok a, w') => f a w'
  | (Throw e, w') => (Throw e, w')
  end.

Definition lift {A} (o : outcome A) : M A := fun w => (o, w).

Definition try_catch {A} (body : M A) (handler : thrown -> M A) : M A :=
  fun w =>
    match body w with
    | (Ok a, w') => (Ok a, w')
    | (Throw e, w') => handler e w'
    end.

(** await bcrypt.hash(plain, rounds) *)
Definition hash (env : environment) (plain : string) (rounds : Z) : M string :=
  fun w =>
    (bcrypt_hash env plain rounds,
     mkWorld (users w) (faults w) (trace w ++ [Hash rounds])).

Definition set_password (hashedPassword : string) (stamp : Z) (u : User) : User :=
  mkUser (id u) (email u) (Some hashedPassword) stamp.

(** db.update(users).set({ password, updatedAt }).where(eq(users.email, address)) *)
Definition update_where_email (env : environment) (hashedPassword address : string) :
    M unit :=
  fun w =>
    let sent := (trace w ++ [UpdateUsers address])%list in
    match faults w with
    | Some e :: rest => (Throw e, mkWorld (users w) rest sent)
    | _ =>
        (Ok tt,
         mkWorld
           (map (fun u => if String.eqb (email u) address
                          then set_password hashedPassword (now env) u
                          else u) (users w))
           (tl (faults w)) sent)
    end.

Definition changePassword_try (env : environment) (values : ChangePasswordValues) :
    M (ActionResult unit) :=
  session ← lift (auth env);
  match session with
  | Some address =>
      if Js.truthy address then
        validatedData ← lift (changePasswordSchema_parse env values);
        hashedPassword ← hash env (newPassword validatedData) 12;
        _ ← update_where_email env hashedPassword address;
        mret (mkResult true None None (Some "Password changed successfully"))
      else mret (failure "Not authenticated")
  | None => mret (failure "Not authenticated")
  end.

(** The [catch] clause; the line it writes to the console is left out. *)
Definition catch_error (error : thrown) : M (ActionResult unit) :=
  match error with
  | ErrorObject _ (Some issues) =>
      mret (failure (match issues with
                     | m :: _ => if Js.truthy m then m else "Invalid input"
                     | [] => "Invalid input"
                     end))
  | _ => mret (failure "Failed to change password. Please try again.")
  end.

Definition changePassword (env : environment) (values : ChangePasswordValues) :
    M (ActionResult unit) :=
  try_catch (changePassword_try env values) catch_error.

End ChangePassword.

(** ** Sample surroundings, used to run the actions on concrete inputs *)

Module Samples.
Import Blog.

Definition hello : BlogPost :=
  mkPost 1 "Hello" "hello" "Ann" "first post" "published" None None false 100 100.

Definition world_post : BlogPost :=
  mkPost 2 "World" "world" "Bob" "second post" "draft" None None false 200 200.

Definition tips : BlogPost :=
  mkPost 3 "Tips" "tips" "Cy" "100% sure" "draft" None None false 150 150.

(** A principal that holds every capability, a schema that accepts every
    payload unchanged, and a signer that answers. *)
Definition editor : environment :=
  mkEnv (fun _ => Ok true) (fun values => Ok values) (fun _ => 0) 1000
    "6f1c" (fun command _ => Ok ("https://s3/" +:+ Key command +:+ "?signed"))
    (Some "bucket") (Some "https://cdn.example").

(** The same surroundings for a principal without the capability. *)
Definition visitor : environment :=
  mkEnv (fun _ => Ok false) (blogFormSchema_parse editor) (new_Date editor)
    (now editor) (uuid editor) (getSignedUrl editor) (S3_BUCKET_NAME editor)
    (NEXT_PUBLIC_S3_DOMAIN editor).

(** The surroundings of [editor] with a signer that throws. *)
Definition unsigned : environment :=
  mkEnv (hasPermission editor) (blogFormSchema_parse editor) (new_Date editor)
    (now editor) (uuid editor)
    (fun _ _ => Throw (ErrorObject "Could not load credentials from any providers" None))
    (S3_BUCKET_NAME editor) (NEXT_PUBLIC_S3_DOMAIN editor).

Definition table (rows : list BlogPost) : world := mkWorld rows 4 [] [].

(** A store that rejects the next statement. *)
Definition failing (e : thrown) (rows : list BlogPost) : world :=
  mkWorld rows 4 [Some e] [].

(** A store that answers the next statement and rejects the one after. *)
Definition failing_second (e : thrown) (rows : list BlogPost) : world :=
  mkWorld rows 4 [None; Some e] [].

Definition constraint_error : thrown :=
  ErrorObject "Duplicate entry 'hello' for key 'blog_posts.slug'" None.

(** The unique violation as PostgreSQL words it. *)
Definition unique_violation : thrown :=
  ErrorObject ("duplicate key value violates unique constraint "
               +:+ Js.quote +:+ "blog_posts_slug_unique" +:+ Js.quote) None.

Definition second_hello : BlogFormValues :=
  mkForm "Hello again" "hello" "Dee" "text" "draft" None None None.

Definition fresh_post : BlogFormValues :=
  mkForm "Fresh" "fresh" "Dee" "text" "draft" None None None.

(** [parseFloat] on the weights the examples type in; the other strings
    of the examples ("abc", the empty string) do not start with a number
    and parse to [NaN]. *)
Definition parseFloat_table (s : string) : Js.number :=
  if String.eqb s "1.0" then Js.Finite 1
  else if String.eqb s "0.5" then Js.Finite (1 # 2)
  else if String.eqb s "1.5" then Js.Finite (3 # 2)
  else if String.eqb s "-1" then Js.Finite (-1)
  else if String.eqb s "Infinity" then Js.Infinity false
  else Js.NaN.

Definition contest : AttachEventDialog.Event :=
  AttachEventDialog.mkEvent 11 "CS Cup" (Some "spring round") 500 "contest".

Definition lecture : AttachEventDialog.Event :=
  AttachEventDialog.mkEvent 12 "Graphs" None 600 "class".

(** The event-attach dialog showing [results] for the query [query]. *)
Definition attach_dialog (query : string) (results : list AttachEventDialog.Event)
    (weights : gmap Z string) : AttachEventDialog.state :=
  AttachEventDialog.mkState true query query false None results weights.

Definition ann : UserSearchDialog.UserSearchResult :=
  UserSearchDialog.mkUser "u1" "Ann" "ann@diu.edu.bd" None None.

Definition bob : UserSearchDialog.UserSearchResult :=
  UserSearchDialog.mkUser "u2" "Bob" "bob@diu.edu.bd" (Some "221") None.

(** The user-search dialog showing [results] for the query [query]. *)
Definition user_dialog (query : string)
    (results : list UserSearchDialog.UserSearchResult) : UserSearchDialog.state :=
  UserSearchDialog.mkState true query query false None results.

(** The surroundings of [editor] with a schema that rejects every payload,
    with two issues. *)
Definition strict_editor : environment :=
  mkEnv (fun _ => Ok true)
    (fun _ => Throw (ErrorObject "invalid"
                       (Some ["Title is required"; "Slug is required"])))
    (new_Date editor) (now editor) (uuid editor) (getSignedUrl editor)
    (S3_BUCKET_NAME editor) (NEXT_PUBLIC_S3_DOMAIN editor).

Definition ann_account : ChangePassword.User :=
  ChangePassword.mkUser "u1" "ann@diu.edu.bd" (Some "old hash") 10.

Definition bob_account : ChangePassword.User :=
  ChangePassword.mkUser "u2" "bob@diu.edu.bd" None 20.

Definition accounts : ChangePassword.world :=
  ChangePassword.mkWorld [ann_account; bob_account] [] [].

(** A session of [ann], a schema that accepts every form, and a hash
    function that answers. *)
Definition signed_in : ChangePassword.environment :=
  ChangePassword.mkEnv (Ok (Some "ann@diu.edu.bd")) (fun form => Ok form)
    (fun plain rounds => Ok ("hashed:" +:+ plain)) 2000.

(** No session. *)
Definition signed_out : ChangePassword.environment :=
  ChangePassword.mkEnv (Ok None) (fun form => Ok form)
    (fun plain rounds => Ok ("hashed:" +:+ plain)) 2000.

(** A session and a schema that rejects the form. *)
Definition signed_in_strict : ChangePassword.environment :=
  ChangePassword.mkEnv (Ok (Some "ann@diu.edu.bd"))
    (fun _ => Throw (ErrorObject "invalid" (Some ["Passwords do not match"])))
    (fun plain rounds => Ok ("hashed:" +:+ plain)) 2000.

Definition new_secret : ChangePassword.ChangePasswordValues :=
  ChangePassword.mkValues "correct horse" [("confirmPassword", "correct horse")].

End Samples.

(** * Properties *)

Import Blog.

(** ** The monad of the actions *)

Lemma bind_ok {A B} (m : M A) (f : A -> M B) w a w' :
  m w = (Ok a, w') -> (m ≫= f) w = f a w'.
Proof. intros H. unfold mbind, M_bind. now rewrite H. Qed.

Lemma bind_throw {A B} (m : M A) (f : A -> M B) w e w' :
  m w = (Throw e, w') -> (m ≫= f) w = (Throw e, w').
Proof. intros H. unfold mbind, M_bind. now rewrite H. Qed.

Lemma try_catch_ok {A} (body : M A) handler w a w' :
  body w = (Ok a, w') -> try_catch body handler w = (Ok a, w').
Proof. intros H. unfold try_catch. now rewrite H. Qed.

Lemma try_catch_throw {A} (body : M A) handler w e w' :
  body w = (Throw e, w') -> try_catch body handler w = handler e w'.
Proof. intros H. unfold try_catch. now rewrite H. Qed.

Lemma answers_next n w : answers (S n) w -> next_fault w = None.
Proof.
  unfold answers, next_fault. destruct (faults w) as [|[e|] fs]; simpl; trivial.
  intros H. inversion H; discriminate.
Qed.

Lemma answers_advance n ev w : answers (S n) w -> answers n (advance ev w).
Proof.
  unfold answers, advance. simpl. destruct (faults w) as [|f fs]; simpl.
  - intros _. rewrite take_nil. constructor.
  - intros H. now inversion H.
Qed.

Lemma answers_record n ev w : answers n w -> answers n (record ev w).
Proof. trivial. Qed.

Lemma statement_answers n ev w :
  answers (S n) w -> statement ev w = (Ok tt, advance ev w).
Proof. intros H. unfold statement. now rewrite (answers_next n w H). Qed.

Lemma statement_fails ev w e :
  next_fault w = Some e -> statement ev w = (Throw e, advance ev w).
Proof. intros H. unfold statement. now rewrite H. Qed.

(** ** The permission gate *)

Lemma validatePermission_denied {T} env w :
  hasPermission env "manage_blog_posts" = Ok false ->
  @validatePermission T env w = (Ok (Some (failure NO_PERMISSION)), w).
Proof. intros H. unfold validatePermission, mbind, M_bind, lift. now rewrite H. Qed.

Lemma validatePermission_granted {T} env w :
  hasPermission env "manage_blog_posts" = Ok true ->
  @validatePermission T env w = (Ok None, w).
Proof. intros H. unfold validatePermission, mbind, M_bind, lift. now rewrite H. Qed.

Lemma validatePermission_throws {T} env w e :
  hasPermission env "manage_blog_posts" = Throw e ->
  @validatePermission T env w = (Throw e, w).
Proof. intros H. unfold validatePermission, mbind, M_bind, lift. now rewrite H. Qed.

Lemma createBlog_denied env values w :
  hasPermission env "manage_blog_posts" = Ok false ->
  createBlog env values w = (Ok (failure NO_PERMISSION), w).
Proof.
  intros denied. apply try_catch_ok. unfold createBlog_try.
  erewrite bind_ok by (now apply validatePermission_denied). reflexivity.
Qed.

Lemma updateBlog_denied env target values w :
  hasPermission env "manage_blog_posts" = Ok false ->
  updateBlog env target values w = (Ok (failure NO_PERMISSION), w).
Proof.
  intros denied. apply try_catch_ok. unfold updateBlog_try.
  erewrite bind_ok by (now apply validatePermission_denied). reflexivity.
Qed.

Lemma deleteBlog_denied env target w :
  hasPermission env "manage_blog_posts" = Ok false ->
  deleteBlog env target w = (Ok (failure NO_PERMISSION), w).
Proof.
  intros denied. apply try_catch_ok. unfold deleteBlog_try.
  erewrite bind_ok by (now apply validatePermission_denied). reflexivity.
Qed.

Lemma getBlog_denied env target w :
  hasPermission env "manage_blog_posts" = Ok false ->
  getBlog env target w = (Ok (failure NO_PERMISSION), w).
Proof.
  intros denied. apply try_catch_ok. unfold getBlog_try.
  erewrite bind_ok by (now apply validatePermission_denied). reflexivity.
Qed.

Lemma getPaginatedBlogs_denied env page size search w :
  hasPermission env "manage_blog_posts" = Ok false ->
  getPaginatedBlogs env page size search w = (Ok (failure NO_PERMISSION), w).
Proof.
  intros denied. apply try_catch_ok. unfold getPaginatedBlogs_try.
  erewrite bind_ok by (now apply validatePermission_denied). reflexivity.
Qed.

Lemma generatePresignedUrl_denied env fileType fileSize w :
  hasPermission env "manage_blog_posts" = Ok false ->
  generatePresignedUrl env fileType fileSize w = (Ok (failure "Unauthorized"), w).
Proof.
  intros denied. apply try_catch_ok. unfold generatePresignedUrl_try.
  erewrite bind_ok by (unfold lift; now rewrite denied). reflexivity.
Qed.

(** C5.  Each mutating entry point asks for the manage-blog-posts
    permission first, on every call; when the answer is no, the call
    returns a failure with a permission error and leaves the world as it
    found it: the table is the same and no statement, revalidation or
    signing request has been recorded. *)
Theorem permission_failure_leaves_world_untouched (env : environment) (w : world) :
  hasPermission env "manage_blog_posts" = Ok false ->
  (forall values,
     createBlog env values w = (Ok (failure NO_PERMISSION), w))
  /\ (forall target values,
        updateBlog env target values w = (Ok (failure NO_PERMISSION), w))
  /\ (forall target,
        deleteBlog env target w = (Ok (failure NO_PERMISSION), w))
  /\ (forall fileType fileSize,
        generatePresignedUrl env fileType fileSize w
        = (Ok (failure "Unauthorized"), w)).
Proof.
  intros denied. repeat split; intros.
  - now apply createBlog_denied.
  - now apply updateBlog_denied.
  - now apply deleteBlog_denied.
  - now apply generatePresignedUrl_denied.
Qed.

Lemma permission_failure_leaves_world_untouched_witness :
  hasPermission Samples.visitor "manage_blog_posts" = Ok false
  /\ createBlog Samples.visitor Samples.fresh_post (Samples.table [Samples.hello])
     = (Ok (failure NO_PERMISSION), Samples.table [Samples.hello]).
Proof.
  split; [reflexivity|].
  apply (permission_failure_leaves_world_untouched Samples.visitor
           (Samples.table [Samples.hello])).
  reflexivity.
Defined.

(** C6, as stated, fails: the message [createBlog] answers a caller
    without the permission with spells out the capability that was
    required, manage blog posts. *)
Lemma permission_error_names_the_capability :
  fst (createBlog Samples.visitor Samples.fresh_post (Samples.table [Samples.hello]))
  = Ok (failure "You don't have permission to manage blog posts")
  /\ names_capability "manage_blog_posts"
       "You don't have permission to manage blog posts" = true.
Proof. split; reflexivity. Qed.

(** C6, amended.  On a permission failure [generatePresignedUrl] answers
    with the generic "Unauthorized", which does not name the capability;
    [createBlog], [updateBlog], [deleteBlog], [getBlog] and
    [getPaginatedBlogs] answer with one fixed message, whatever their
    arguments, and that message names the capability that was required. *)
Theorem permission_error_messages (env : environment) (w : world) :
  hasPermission env "manage_blog_posts" = Ok false ->
  (forall fileType fileSize,
     fst (generatePresignedUrl env fileType fileSize w) = Ok (failure "Unauthorized"))
  /\ names_capability "manage_blog_posts" "Unauthorized" = false
  /\ (forall values, fst (createBlog env values w) = Ok (failure NO_PERMISSION))
  /\ (forall target values,
        fst (updateBlog env target values w) = Ok (failure NO_PERMISSION))
  /\ (forall target, fst (deleteBlog env target w) = Ok (failure NO_PERMISSION))
  /\ (forall target, fst (getBlog env target w) = Ok (failure NO_PERMISSION))
  /\ (forall page size search,
        fst (getPaginatedBlogs env page size search w) = Ok (failure NO_PERMISSION))
  /\ names_capability "manage_blog_posts" NO_PERMISSION = true.
Proof.
  intros denied. repeat split; intros.
  - now rewrite generatePresignedUrl_denied.
  - now rewrite createBlog_denied.
  - now rewrite updateBlog_denied.
  - now rewrite deleteBlog_denied.
  - now rewrite getBlog_denied.
  - now rewrite getPaginatedBlogs_denied.
Qed.

Lemma permission_error_messages_witness :
  hasPermission Samples.visitor "manage_blog_posts" = Ok false
  /\ fst (getBlog Samples.visitor 1 (Samples.table [Samples.hello]))
     = Ok (failure NO_PERMISSION).
Proof.
  split; [reflexivity|].
  apply (permission_error_messages Samples.visitor (Samples.table [Samples.hello])).
  reflexivity.
Defined.

(** ** The shared translator of unexpected errors *)

Lemma handleDbError_cases {T} (e : thrown) :
  @handleDbError T e
  = failure (if is_duplicate_entry e then DUPLICATE else SOMETHING_WRONG).
Proof.
  destruct e as [msg issues|]; simpl; [|reflexivity].
  now destruct (Js.includes msg "Duplicate entry").
Qed.

Lemma catch_form_error_plain {T} (e : thrown) w :
  isZodError e = false -> @catch_form_error T e w = (Ok (handleDbError e), w).
Proof. destruct e as [msg [issues|]|]; simpl; intros H; try discriminate; reflexivity. Qed.

(** C10.  The [catch] clause of each of the six actions hands the caught
    value to [handleDbError] ([createBlog] and [updateBlog] after setting
    validation errors aside).  [handleDbError] answers with the
    duplicate-entry message exactly for an [Error] whose message contains
    "Duplicate entry" and with "Something went wrong. Please try again."
    for everything else.  So [deleteBlog], [getBlog],
    [getPaginatedBlogs] and [generatePresignedUrl], which insert and
    update nothing, answer with the duplicate-entry message too when the
    permission check (or, for the three that query the store, their first
    statement) fails with such an error. *)
Theorem unexpected_errors_share_one_translator
    (env : environment) (w w' : world) (e : thrown) :
  (forall values,
     createBlog_try env values w = (Throw e, w') -> isZodError e = false ->
     createBlog env values w = (Ok (handleDbError e), w'))
  /\ (forall target values,
        updateBlog_try env target values w = (Throw e, w') -> isZodError e = false ->
        updateBlog env target values w = (Ok (handleDbError e), w'))
  /\ (forall target,
        deleteBlog_try env target w = (Throw e, w') ->
        deleteBlog env target w = (Ok (handleDbError e), w'))
  /\ (forall target,
        getBlog_try env target w = (Throw e, w') ->
        getBlog env target w = (Ok (handleDbError e), w'))
  /\ (forall page size search,
        getPaginatedBlogs_try env page size search w = (Throw e, w') ->
        getPaginatedBlogs env page size search w = (Ok (handleDbError e), w'))
  /\ (forall fileType fileSize,
        generatePresignedUrl_try env fileType fileSize w = (Throw e, w') ->
        generatePresignedUrl env fileType fileSize w = (Ok (handleDbError e), w'))
  /\ (forall T : Type,
        @handleDbError T e
        = failure (if is_duplicate_entry e then DUPLICATE else SOMETHING_WRONG))
  /\ (is_duplicate_entry e = true ->
      hasPermission env "manage_blog_posts" = Throw e ->
      (forall target, fst (deleteBlog env target w) = Ok (failure DUPLICATE))
      /\ (forall target, fst (getBlog env target w) = Ok (failure DUPLICATE))
      /\ (forall page size search,
            fst (getPaginatedBlogs env page size search w) = Ok (failure DUPLICATE))
      /\ (forall fileType fileSize,
            fst (generatePresignedUrl env fileType fileSize w) = Ok (failure DUPLICATE)))
  /\ (is_duplicate_entry e = true ->
      hasPermission env "manage_blog_posts" = Ok true ->
      next_fault w = Some e ->
      (forall target, fst (deleteBlog env target w) = Ok (failure DUPLICATE))
      /\ (forall target, fst (getBlog env target w) = Ok (failure DUPLICATE))
      /\ (forall page size search,
            fst (getPaginatedBlogs env page size search w) = Ok (failure DUPLICATE))).
Proof.
  repeat apply conj.
  - intros values body plain. unfold createBlog.
    rewrite (try_catch_throw _ _ _ _ _ body). now apply catch_form_error_plain.
  - intros target values body plain. unfold updateBlog.
    rewrite (try_catch_throw _ _ _ _ _ body). now apply catch_form_error_plain.
  - intros target body. unfold deleteBlog. now rewrite (try_catch_throw _ _ _ _ _ body).
  - intros target body. unfold getBlog. now rewrite (try_catch_throw _ _ _ _ _ body).
  - intros page size search body. unfold getPaginatedBlogs.
    now rewrite (try_catch_throw _ _ _ _ _ body).
  - intros fileType fileSize body. unfold generatePresignedUrl.
    now rewrite (try_catch_throw _ _ _ _ _ body).
  - intros T. apply handleDbError_cases.
  - intros dup thrown_by_check.
    assert (forall T, @handleDbError T e = failure DUPLICATE) as translated
      by (intros T; rewrite handleDbError_cases; now rewrite dup).
    repeat apply conj; intros.
    + unfold deleteBlog, deleteBlog_try.
      erewrite try_catch_throw
        by (apply bind_throw; apply validatePermission_throws; eassumption).
      simpl. now rewrite translated.
    + unfold getBlog, getBlog_try.
      erewrite try_catch_throw
        by (apply bind_throw; apply validatePermission_throws; eassumption).
      simpl. now rewrite translated.
    + unfold getPaginatedBlogs, getPaginatedBlogs_try.
      erewrite try_catch_throw
        by (apply bind_throw; apply validatePermission_throws; eassumption).
      simpl. now rewrite translated.
    + unfold generatePresignedUrl, generatePresignedUrl_try.
      erewrite try_catch_throw
        by (apply bind_throw; unfold lift; now rewrite thrown_by_check).
      simpl. now rewrite translated.
  - intros dup granted rejected.
    assert (forall T, @handleDbError T e = failure DUPLICATE) as translated
      by (intros T; rewrite handleDbError_cases; now rewrite dup).
    repeat apply conj; intros.
    + unfold deleteBlog, deleteBlog_try.
      erewrite try_catch_throw.
      2:{ erewrite bind_ok by (now apply validatePermission_granted).
          simpl. apply bind_throw. unfold select_where_limit.
          apply bind_throw. apply statement_fails. eassumption. }
      simpl. now rewrite translated.
    + unfold getBlog, getBlog_try.
      erewrite try_catch_throw.
      2:{ erewrite bind_ok by (now apply validatePermission_granted).
          simpl. apply bind_throw. unfold select_where_limit.
          apply bind_throw. apply statement_fails. eassumption. }
      simpl. now rewrite translated.
    + unfold getPaginatedBlogs, getPaginatedBlogs_try.
      erewrite try_catch_throw.
      2:{ erewrite bind_ok by (now apply validatePermission_granted).
          simpl. apply bind_throw. unfold select_page.
          apply bind_throw. apply statement_fails. eassumption. }
      simpl. now rewrite translated.
Qed.

Lemma unexpected_errors_share_one_translator_witness :
  is_duplicate_entry Samples.constraint_error = true
  /\ hasPermission Samples.editor "manage_blog_posts" = Ok true
  /\ next_fault (Samples.failing Samples.constraint_error [Samples.hello])
     = Some Samples.constraint_error
  /\ fst (deleteBlog Samples.editor 1
            (Samples.failing Samples.constraint_error [Samples.hello]))
     = Ok (failure DUPLICATE).
Proof.
  split; [reflexivity|]. split; [reflexivity|]. split; [reflexivity|].
  apply (unexpected_errors_share_one_translator Samples.editor
           (Samples.failing Samples.constraint_error [Samples.hello])
           (Samples.failing Samples.constraint_error [Samples.hello])
           Samples.constraint_error); reflexivity.
Defined.

(** ** The presigned upload URL *)

Lemma append_same_length_inj (a b r s : string) :
  String.length a = String.length b -> a +:+ r = b +:+ s -> a = b.
Proof.
  revert b. induction a as [|c a IH]; intros [|d b]; simpl; try discriminate.
  - reflexivity.
  - intros len eq. injection len as len.
    change (String c a +:+ r) with (String c (a +:+ r)) in eq.
    change (String d b +:+ s) with (String d (b +:+ s)) in eq.
    injection eq as -> eq. f_equal. now apply IH.
Qed.

Lemma append_cancel_l (p a b : string) : p +:+ a = p +:+ b -> a = b.
Proof.
  induction p as [|c p IH]; intros eq.
  - exact eq.
  - apply IH. change ((String c p) +:+ ?x) with (String c (p +:+ x)) in eq.
    now injection eq.
Qed.

Lemma storage_key_prefix uniqueId fileType :
  Js.startsWith (storage_key uniqueId fileType) "blog-images/" = true.
Proof.
  unfold Js.startsWith, storage_key.
  generalize (uniqueId +:+ "." +:+ Js.interpolate (nth_error (Js.split_slash fileType) 1)).
  intros rest. vm_compute. now destruct rest.
Qed.

Lemma storage_key_inj u1 u2 t1 t2 :
  String.length u1 = String.length u2 ->
  storage_key u1 t1 = storage_key u2 t2 -> u1 = u2.
Proof.
  intros len eq. unfold storage_key in eq.
  apply append_cancel_l in eq. now apply append_same_length_inj in eq.
Qed.

Lemma MAX_FILE_SIZE_bytes : MAX_FILE_SIZE = 5242880.
Proof. reflexivity. Qed.

Lemma le_not_gt (x y : Js.number) : Js.le x y = true -> Js.gt x y = false.
Proof.
  unfold Js.le, Js.gt.
  destruct x as [|[]|p], y as [|[]|q]; simpl; try discriminate; try reflexivity.
  intros H. now apply negb_true_iff in H.
Qed.

Lemma gt_or_le (x y : Js.number) :
  Js.isNaN x = false -> Js.isNaN y = false ->
  Js.gt x y = negb (Js.le x y).
Proof.
  unfold Js.le, Js.gt.
  destruct x as [|[]|p], y as [|[]|q]; simpl; try discriminate; try reflexivity;
    intros _ _; now rewrite negb_involutive.
Qed.

(** C2, as stated, fails: with the permission, an image type and a size
    of 4096 bytes all three preconditions pass, yet with a signer that
    throws the action returns a failure and no URL; and with a signer
    that answers, the public URL is not the configured domain
    concatenated with the key: the code puts a slash between the two. *)
Lemma generatePresignedUrl_without_url :
  hasPermission Samples.unsigned "manage_blog_posts" = Ok true
  /\ Js.startsWith "image/png" "image/" = true
  /\ Js.le (Js.of_Z 4096) (Js.of_Z 5242880) = true
  /\ fst (generatePresignedUrl Samples.unsigned "image/png" (Js.of_Z 4096)
            (Samples.table []))
     = Ok (failure "Something went wrong. Please try again.")
  /\ fst (generatePresignedUrl Samples.editor "image/png" (Js.of_Z 4096)
            (Samples.table []))
     = Ok (mkResult true
             (Some (mkUrls "https://s3/blog-images/6f1c.png?signed"
                      "https://cdn.example/blog-images/6f1c.png"))
             None None)
  /\ NEXT_PUBLIC_S3_DOMAIN Samples.editor = Some "https://cdn.example"
  /\ storage_key (uuid Samples.editor) "image/png" = "blog-images/6f1c.png"
  /\ "https://cdn.example/blog-images/6f1c.png"
     <> "https://cdn.example" +:+ "blog-images/6f1c.png".
Proof. repeat split. discriminate. Qed.

(** C2, amended.  [generatePresignedUrl] asks for the permission first,
    then checks that the file type starts with "image/", then rejects a
    size above 5242880 bytes; the first check that fails decides the
    error and nothing has been generated by then.  When the permission is
    held, the type is an image type, the size is at most 5242880 bytes
    and the signer answers, the result holds the URL signed for 300
    seconds for the key "blog-images/" + uuid + "." + extension, and the
    public URL made of the configured domain, a slash and that key.  The
    key lies under the fixed prefix and is different for different
    identifiers. *)
Theorem generatePresignedUrl_contract
    (env : environment) (fileType : string) (fileSize : Js.number) (w : world)
    (allowed : bool) :
  hasPermission env "manage_blog_posts" = Ok allowed ->
  let result := generatePresignedUrl env fileType fileSize w in
  let key := storage_key (uuid env) fileType in
  (allowed = false -> result = (Ok (failure "Unauthorized"), w))
  /\ (allowed = true -> Js.startsWith fileType "image/" = false ->
      result = (Ok (failure "Only image files are allowed"), w))
  /\ (allowed = true -> Js.startsWith fileType "image/" = true ->
      Js.gt fileSize (Js.of_Z 5242880) = true ->
      result = (Ok (failure "File size exceeds the 5MB limit"), w))
  /\ (allowed = true -> Js.startsWith fileType "image/" = true ->
      Js.le fileSize (Js.of_Z 5242880) = true ->
      forall url,
        getSignedUrl env (mkPut (S3_BUCKET_NAME env) key fileType fileSize) 300
        = Ok url ->
        result
        = (Ok (mkResult true
                 (Some (mkUrls url
                          (Js.interpolate (NEXT_PUBLIC_S3_DOMAIN env) +:+ "/" +:+ key)))
                 None None),
           record (GetSignedUrl key 300) (record Uuid w)))
  /\ Js.startsWith key "blog-images/" = true
  /\ (forall other otherType,
        String.length other = String.length (uuid env) -> other <> uuid env ->
        storage_key other otherType <> key).
Proof.
  intros permission result key. subst result.
  assert (forall r w',
            generatePresignedUrl_try env fileType fileSize w = (Ok r, w') ->
            generatePresignedUrl env fileType fileSize w = (Ok r, w')) as ok
    by (intros r w' H; now apply try_catch_ok).
  repeat apply conj.
  - intros ->. now apply generatePresignedUrl_denied.
  - intros -> image. apply ok. unfold generatePresignedUrl_try.
    erewrite bind_ok by (unfold lift; now rewrite permission).
    simpl. now rewrite image.
  - intros -> image big. apply ok. unfold generatePresignedUrl_try.
    erewrite bind_ok by (unfold lift; now rewrite permission).
    cbn [negb]. rewrite image. cbn [negb].
    change (Js.of_Z MAX_FILE_SIZE) with (Js.of_Z 5242880). now rewrite big.
  - intros -> image small url signed. apply ok. unfold generatePresignedUrl_try.
    erewrite bind_ok by (unfold lift; now rewrite permission).
    cbn [negb]. rewrite image. cbn [negb].
    change (Js.of_Z MAX_FILE_SIZE) with (Js.of_Z 5242880).
    rewrite (le_not_gt _ _ small).
    unfold mbind, M_bind, emit, lift. fold key. now rewrite signed.
  - apply storage_key_prefix.
  - intros other otherType len diff eq. apply diff.
    now apply (storage_key_inj other (uuid env) otherType fileType).
Qed.

Lemma generatePresignedUrl_contract_witness :
  hasPermission Samples.editor "manage_blog_posts" = Ok true
  /\ Js.startsWith "image/png" "image/" = true
  /\ Js.le (Js.of_Z 4096) (Js.of_Z 5242880) = true
  /\ generatePresignedUrl Samples.editor "image/png" (Js.of_Z 4096) (Samples.table [])
     = (Ok (mkResult true
              (Some (mkUrls "https://s3/blog-images/6f1c.png?signed"
                       "https://cdn.example/blog-images/6f1c.png"))
              None None),
        record (GetSignedUrl "blog-images/6f1c.png" 300)
          (record Uuid (Samples.table []))).
Proof.
  split; [reflexivity|]. split; [reflexivity|]. split; [reflexivity|].
  apply (generatePresignedUrl_contract Samples.editor "image/png" (Js.of_Z 4096)
           (Samples.table []) true); reflexivity.
Defined.

(** The size check is the comparison [fileSize > MAX_FILE_SIZE] alone: a
    size that is not a number is not above the limit, so it goes on to
    the signer like a size within the limit. *)
Lemma generatePresignedUrl_size_not_a_number
    (env : environment) (fileType : string) (w : world) :
  hasPermission env "manage_blog_posts" = Ok true ->
  Js.startsWith fileType "image/" = true ->
  let key := storage_key (uuid env) fileType in
  forall url,
    getSignedUrl env (mkPut (S3_BUCKET_NAME env) key fileType Js.NaN) 300 = Ok url ->
    Js.le Js.NaN (Js.of_Z 5242880) = false
    /\ fst (generatePresignedUrl env fileType Js.NaN w)
       = Ok (mkResult true
               (Some (mkUrls url
                        (Js.interpolate (NEXT_PUBLIC_S3_DOMAIN env) +:+ "/" +:+ key)))
               None None).
Proof.
  intros permission image key url signed. split; [reflexivity|].
  unfold generatePresignedUrl. erewrite try_catch_ok; [reflexivity|].
  unfold generatePresignedUrl_try.
  erewrite bind_ok by (unfold lift; now rewrite permission).
  simpl. rewrite image. simpl.
  unfold mbind, M_bind, emit, lift. fold key. now rewrite signed.
Qed.

(** ** Creating and updating posts *)

Lemma select_where_limit_answers n cond limit w :
  answers (S n) w -> 0 <= limit ->
  select_where_limit cond limit w
  = (Ok (take (Z.to_nat limit) (List.filter cond (blogPosts w))), advance Select w).
Proof.
  intros quiet bound. unfold select_where_limit.
  erewrite bind_ok by (now apply (statement_answers n)).
  unfold mbind, M_bind, get_rows, lift, limit_offset, where_clause. simpl.
  destruct (limit <? 0) eqn:neg; [apply Z.ltb_lt in neg; lia|].
  reflexivity.
Qed.

Lemma filter_nil_Forall {A} (keep : A -> bool) (l : list A) :
  List.filter keep l = [] <-> Forall (fun x => keep x = false) l.
Proof.
  induction l as [|x l IH]; simpl.
  - split; [constructor|reflexivity].
  - destruct (keep x) eqn:k; split; intros H.
    + discriminate.
    + inversion H; congruence.
    + constructor; [assumption|now apply IH].
    + inversion H; now apply IH.
Qed.

Lemma filter_cons_Exists {A} (keep : A -> bool) (l : list A) :
  Exists (fun x => keep x = true) l ->
  exists x rest, List.filter keep l = x :: rest.
Proof.
  induction 1 as [x l k|x l _ IH]; simpl.
  - rewrite k. eauto.
  - destruct (keep x); eauto.
Qed.

Lemma same_title_or_slug_true v r :
  same_title_or_slug v r = true
  <-> title r = form_title v \/ slug r = form_slug v.
Proof.
  unfold same_title_or_slug. rewrite orb_true_iff, !String.eqb_eq. tauto.
Qed.

Lemma same_title_or_slug_false v r :
  same_title_or_slug v r = false
  <-> title r <> form_title v /\ slug r <> form_slug v.
Proof.
  unfold same_title_or_slug. rewrite orb_false_iff, !String.eqb_neq. tauto.
Qed.

(** C1, as stated, fails: a payload whose slug is the slug of an existing
    row, sent by a caller without the permission, is answered with the
    permission error, not with the duplicate-entry error. *)
Lemma createBlog_collision_without_permission :
  slug Samples.hello = form_slug Samples.second_hello
  /\ createBlog Samples.visitor Samples.second_hello (Samples.table [Samples.hello])
     = (Ok (failure "You don't have permission to manage blog posts"),
        Samples.table [Samples.hello])
  /\ "You don't have permission to manage blog posts" <> DUPLICATE.
Proof. repeat split. discriminate. Qed.

(** C1, amended.  For every [createBlog] call that passes the permission
    check and the schema validation: when the store answers the lookup
    and the validated title or slug is the title or slug of an existing
    row, the action returns the duplicate-entry failure, and only the
    lookup has reached the store (no insert). *)
Theorem createBlog_reports_duplicates
    (env : environment) (values validatedFields : BlogFormValues) (w : world) :
  hasPermission env "manage_blog_posts" = Ok true ->
  blogFormSchema_parse env values = Ok validatedFields ->
  answers 1 w ->
  Exists (fun r => title r = form_title validatedFields
                   \/ slug r = form_slug validatedFields) (blogPosts w) ->
  createBlog env values w = (Ok (failure DUPLICATE), advance Select w).
Proof.
  intros granted valid quiet collision.
  apply try_catch_ok. unfold createBlog_try.
  erewrite bind_ok by (now apply validatePermission_granted). simpl.
  erewrite bind_ok by (unfold lift; now rewrite valid).
  erewrite bind_ok by (now apply (select_where_limit_answers 0)).
  destruct (filter_cons_Exists (same_title_or_slug validatedFields) (blogPosts w))
    as (x & rest & found).
  { eapply Exists_impl; [exact collision|].
    intros r H. now apply same_title_or_slug_true. }
  rewrite found. reflexivity.
Qed.

Lemma createBlog_reports_duplicates_witness :
  hasPermission Samples.editor "manage_blog_posts" = Ok true
  /\ blogFormSchema_parse Samples.editor Samples.second_hello = Ok Samples.second_hello
  /\ answers 1 (Samples.table [Samples.hello])
  /\ Exists (fun r => title r = form_title Samples.second_hello
                      \/ slug r = form_slug Samples.second_hello)
       (blogPosts (Samples.table [Samples.hello]))
  /\ createBlog Samples.editor Samples.second_hello (Samples.table [Samples.hello])
     = (Ok (failure DUPLICATE), advance Select (Samples.table [Samples.hello])).
Proof.
  assert (answers 1 (Samples.table [Samples.hello])) as quiet by constructor.
  assert (Exists (fun r => title r = form_title Samples.second_hello
                           \/ slug r = form_slug Samples.second_hello)
            (blogPosts (Samples.table [Samples.hello]))) as collision
    by (constructor; right; reflexivity).
  split; [reflexivity|]. split; [reflexivity|].
  split; [exact quiet|]. split; [exact collision|].
  exact (createBlog_reports_duplicates Samples.editor Samples.second_hello
           Samples.second_hello (Samples.table [Samples.hello])
           eq_refl eq_refl quiet collision).
Defined.

(** What the store's own rejection of the insert turns into depends on
    the wording of the error: [handleDbError] looks for "Duplicate entry",
    and the unique violation of PostgreSQL is worded otherwise. *)
Lemma createBlog_insert_rejected
    (env : environment) (values validatedFields : BlogFormValues) (w : world)
    (e : thrown) :
  hasPermission env "manage_blog_posts" = Ok true ->
  blogFormSchema_parse env values = Ok validatedFields ->
  answers 1 w ->
  Forall (fun r => title r <> form_title validatedFields
                   /\ slug r <> form_slug validatedFields) (blogPosts w) ->
  next_fault (advance Select w) = Some e -> isZodError e = false ->
  createBlog env values w
  = (Ok (failure (if is_duplicate_entry e then DUPLICATE else SOMETHING_WRONG)),
     advance Insert (advance Select w)).
Proof.
  intros granted valid quiet free rejected plain.
  unfold createBlog. erewrite try_catch_throw.
  2:{ unfold createBlog_try.
      erewrite bind_ok by (now apply validatePermission_granted). simpl.
      erewrite bind_ok by (unfold lift; now rewrite valid).
      erewrite bind_ok by (now apply (select_where_limit_answers 0)).
      replace (List.filter (same_title_or_slug validatedFields) (blogPosts w))
        with (@nil BlogPost).
      2:{ symmetry. apply filter_nil_Forall.
          eapply Forall_impl; [exact free|].
          intros r H. now apply same_title_or_slug_false. }
      simpl. apply bind_throw. unfold insert_returning_id.
      apply bind_throw. apply statement_fails. eassumption. }
  rewrite catch_form_error_plain by assumption.
  now rewrite handleDbError_cases.
Qed.

Example createBlog_unique_violation :
  createBlog Samples.editor Samples.fresh_post
    (Samples.failing_second Samples.unique_violation [Samples.hello])
  = (Ok (failure "Something went wrong. Please try again."),
     mkWorld [Samples.hello] 4 [] [Select; Insert]).
Proof. reflexivity. Qed.

Example createBlog_store_constraint :
  createBlog Samples.editor Samples.fresh_post
    (Samples.failing_second Samples.constraint_error [Samples.hello])
  = (Ok (failure DUPLICATE),
     mkWorld [Samples.hello] 4 [] [Select; Insert]).
Proof. reflexivity. Qed.

Example createBlog_then_same_slug :
  let first := mkForm "Hello" "hello" "Ann" "text" "draft" None None None in
  let second := mkForm "Other" "hello" "Ann" "text" "draft" None None None in
  let after_first := snd (createBlog Samples.editor first (Samples.table [])) in
  fst (createBlog Samples.editor first (Samples.table []))
  = Ok (mkResult true (Some (dbValues_of Samples.editor first, 4)) None
          (Some "Blog post created successfully"))
  /\ fst (createBlog Samples.editor second after_first) = Ok (failure DUPLICATE)
  /\ blogPosts (snd (createBlog Samples.editor second after_first))
     = blogPosts after_first.
Proof. repeat split. Qed.

(** C4, as stated, fails: for an identifier no row has, a caller without
    the permission gets the permission error, and a caller whose payload
    the schema rejects gets the first validation message; neither gets
    the not-found error. *)
Lemma updateBlog_missing_row_other_errors :
  Forall (fun r => id r <> 999) (blogPosts (Samples.table [Samples.hello]))
  /\ fst (updateBlog Samples.visitor 999 Samples.fresh_post
            (Samples.table [Samples.hello]))
     = Ok (failure "You don't have permission to manage blog posts")
  /\ fst (updateBlog
            (mkEnv (fun _ => Ok true)
               (fun _ => Throw (ErrorObject "invalid" (Some ["Title is required"])))
               (fun _ => 0) 1000 "6f1c" (getSignedUrl Samples.editor) None None)
            999 Samples.fresh_post (Samples.table [Samples.hello]))
     = Ok (failure "Title is required")
  /\ "You don't have permission to manage blog posts" <> NOT_FOUND
  /\ "Title is required" <> NOT_FOUND.
Proof.
  split; [repeat constructor; discriminate|].
  repeat split; discriminate.
Qed.

Lemma select_by_id_none target (rows : list BlogPost) :
  Forall (fun r => id r <> target) rows ->
  List.filter (fun r => id r =? target) rows = [].
Proof.
  intros H. apply filter_nil_Forall. eapply Forall_impl; [exact H|].
  intros r ne. now apply Z.eqb_neq.
Qed.

Lemma select_by_id_some target (rows : list BlogPost) :
  Exists (fun r => id r = target) rows ->
  exists x rest, List.filter (fun r => id r =? target) rows = x :: rest.
Proof.
  intros H. apply filter_cons_Exists. eapply Exists_impl; [exact H|].
  intros r e. now apply Z.eqb_eq.
Qed.

(** C4, amended.  For every [updateBlog] call that passes the permission
    check and the schema validation, with a store that answers: when no
    row has the given id the action returns the not-found failure;
    otherwise, when a row with another id has the validated title or the
    validated slug, it returns the duplicate-entry failure and the table
    is unchanged; otherwise it writes the validated fields into the rows
    with that id, which get the current time as updated-at time and keep
    their id and creation time, and leaves every other row alone. *)
Theorem updateBlog_outcomes
    (env : environment) (target : Z) (values validatedFields : BlogFormValues)
    (w : world) :
  hasPermission env "manage_blog_posts" = Ok true ->
  blogFormSchema_parse env values = Ok validatedFields ->
  answers 3 w ->
  (Forall (fun r => id r <> target) (blogPosts w) ->
   updateBlog env target values w = (Ok (failure NOT_FOUND), advance Select w))
  /\ (Exists (fun r => id r = target) (blogPosts w) ->
      Exists (fun r => id r <> target
                       /\ (title r = form_title validatedFields
                           \/ slug r = form_slug validatedFields)) (blogPosts w) ->
      updateBlog env target values w
      = (Ok (failure DUPLICATE), advance Select (advance Select w))
      /\ blogPosts (advance Select (advance Select w)) = blogPosts w)
  /\ (Exists (fun r => id r = target) (blogPosts w) ->
      Forall (fun r => id r = target
                       \/ (title r <> form_title validatedFields
                           /\ slug r <> form_slug validatedFields)) (blogPosts w) ->
      updateBlog env target values w
      = (Ok (mkResult true (Some (dbValues_of env validatedFields, target)) None
               (Some "Blog post updated successfully")),
         updated_world env target validatedFields w)
      /\ length (blogPosts (updated_world env target validatedFields w))
         = length (blogPosts w)
      /\ forall i r,
           blogPosts w !! i = Some r ->
           blogPosts (updated_world env target validatedFields w) !! i
           = Some (if id r =? target
                   then mkPost (id r)
                          (form_title validatedFields) (form_slug validatedFields)
                          (form_author validatedFields) (form_content validatedFields)
                          (form_status validatedFields)
                          (ins_featuredImage (dbValues_of env validatedFields))
                          (ins_publishedAt (dbValues_of env validatedFields))
                          (ins_isFeatured (dbValues_of env validatedFields))
                          (createdAt r) (now env)
                   else r)).
Proof.
  intros granted valid quiet.
  assert (answers 2 (advance Select w)) as quiet2 by (now apply answers_advance).
  assert (answers 1 (advance Select (advance Select w))) as quiet3
    by (now apply answers_advance).
  repeat apply conj.
  - intros missing. apply try_catch_ok. unfold updateBlog_try.
    erewrite bind_ok by (now apply validatePermission_granted). simpl.
    erewrite bind_ok by (unfold lift; now rewrite valid).
    erewrite bind_ok by (now apply (select_where_limit_answers 2)).
    now rewrite select_by_id_none.
  - intros present clash. split; [|reflexivity].
    apply try_catch_ok. unfold updateBlog_try.
    erewrite bind_ok by (now apply validatePermission_granted). simpl.
    erewrite bind_ok by (unfold lift; now rewrite valid).
    erewrite bind_ok by (now apply (select_where_limit_answers 2)).
    destruct (select_by_id_some target (blogPosts w) present) as (x & rest & ->).
    simpl.
    erewrite bind_ok by (now apply (select_where_limit_answers 1)).
    edestruct (filter_cons_Exists
                 (fun r => same_title_or_slug validatedFields r && negb (id r =? target))
                 (blogPosts (advance Select w))) as (y & others & ->).
    { simpl. eapply Exists_impl; [exact clash|].
      intros r [ne same]. apply andb_true_iff. split.
      - now apply same_title_or_slug_true.
      - apply negb_true_iff. now apply Z.eqb_neq. }
    reflexivity.
  - intros present free. repeat apply conj.
    + apply try_catch_ok. unfold updateBlog_try.
      erewrite bind_ok by (now apply validatePermission_granted). simpl.
      erewrite bind_ok by (unfold lift; now rewrite valid).
      erewrite bind_ok by (now apply (select_where_limit_answers 2)).
      destruct (select_by_id_some target (blogPosts w) present) as (x & rest & ->).
      simpl.
      erewrite bind_ok by (now apply (select_where_limit_answers 1)).
      replace (List.filter
                 (fun r => same_title_or_slug validatedFields r && negb (id r =? target))
                 (blogPosts (advance Select w))) with (@nil BlogPost).
      2:{ symmetry. apply filter_nil_Forall. simpl.
          eapply Forall_impl; [exact free|].
          intros r [same|different]; apply andb_false_iff.
          - right. apply negb_false_iff. now apply Z.eqb_eq.
          - left. now apply same_title_or_slug_false. }
      simpl. unfold update_set_where_id.
      erewrite bind_ok.
      2:{ erewrite bind_ok by (now apply (statement_answers 0)). reflexivity. }
      reflexivity.
    + simpl. now rewrite length_map.
    + intros i r at_i. simpl. rewrite list_lookup_fmap, at_i. simpl.
      destruct (id r =? target); reflexivity.
Qed.

Lemma updateBlog_outcomes_witness :
  hasPermission Samples.editor "manage_blog_posts" = Ok true
  /\ blogFormSchema_parse Samples.editor Samples.fresh_post = Ok Samples.fresh_post
  /\ answers 3 (Samples.table [Samples.hello; Samples.world_post])
  /\ Forall (fun r => id r <> 7) (blogPosts (Samples.table [Samples.hello; Samples.world_post]))
  /\ updateBlog Samples.editor 7 Samples.fresh_post
       (Samples.table [Samples.hello; Samples.world_post])
     = (Ok (failure NOT_FOUND),
        advance Select (Samples.table [Samples.hello; Samples.world_post])).
Proof.
  assert (answers 3 (Samples.table [Samples.hello; Samples.world_post])) as quiet
    by constructor.
  assert (Forall (fun r => id r <> 7)
            (blogPosts (Samples.table [Samples.hello; Samples.world_post]))) as missing
    by (repeat constructor; discriminate).
  split; [reflexivity|]. split; [reflexivity|].
  split; [exact quiet|]. split; [exact missing|].
  exact (proj1 (updateBlog_outcomes Samples.editor 7 Samples.fresh_post
                  Samples.fresh_post (Samples.table [Samples.hello; Samples.world_post])
                  eq_refl eq_refl quiet) missing).
Defined.

Example updateBlog_renames_second_post :
  let before := Samples.table [Samples.hello; Samples.world_post] in
  fst (updateBlog Samples.editor 2 Samples.fresh_post before)
  = Ok (mkResult true (Some (dbValues_of Samples.editor Samples.fresh_post, 2)) None
          (Some "Blog post updated successfully"))
  /\ blogPosts (snd (updateBlog Samples.editor 2 Samples.fresh_post before))
     = [Samples.hello;
        mkPost 2 "Fresh" "fresh" "Dee" "text" "draft" None None false 200 1000]
  /\ fst (updateBlog Samples.editor 2 Samples.second_hello before)
     = Ok (failure DUPLICATE).
Proof. repeat split. Qed.

(** ** Listing posts *)

(** *** The pattern of the search *)

Lemma like_percent p s :
  like (String "%"%char p) s
  = like p s
    || match s with
       | EmptyString => false
       | String _ s' => like (String "%"%char p) s'
       end.
Proof. destruct s; reflexivity. Qed.

Lemma like_literal c p s :
  is_pattern_char c = false ->
  like (String c p) s
  = match s with
    | EmptyString => false
    | String d s' => Ascii.eqb c d && like p s'
    end.
Proof.
  unfold is_pattern_char. intros H.
  apply orb_false_iff in H as [H backslash].
  apply orb_false_iff in H as [percent underscore].
  simpl. rewrite percent, underscore, backslash. reflexivity.
Qed.

Lemma prefix_empty s : String.prefix EmptyString s = true.
Proof. now destruct s. Qed.

Lemma prefix_cons c t d s :
  String.prefix (String c t) (String d s) = Ascii.eqb c d && String.prefix t s.
Proof.
  simpl. destruct (ascii_dec c d) as [->|ne].
  - now rewrite Ascii.eqb_refl.
  - apply Ascii.eqb_neq in ne. now rewrite ne.
Qed.

Lemma like_percent_alone s : like "%" s = true.
Proof.
  induction s as [|c s IH]; [reflexivity|].
  rewrite like_percent. rewrite IH. apply orb_true_r.
Qed.

Lemma like_plain_then_percent t s :
  plain t = true -> like (t +:+ "%") s = String.prefix t s.
Proof.
  revert s. induction t as [|c t IH]; intros s ok.
  - change (EmptyString +:+ "%") with "%".
    now rewrite like_percent_alone, prefix_empty.
  - simpl in ok. apply andb_true_iff in ok as [literal ok].
    apply negb_true_iff in literal.
    change (String c t +:+ "%") with (String c (t +:+ "%")).
    rewrite like_literal by assumption.
    destruct s as [|d s]; [reflexivity|].
    now rewrite prefix_cons, IH.
Qed.

Lemma like_contains t s :
  plain t = true -> like ("%" +:+ t +:+ "%") s = Js.includes s t.
Proof.
  intros ok. change ("%" +:+ t +:+ "%") with (String "%"%char (t +:+ "%")).
  induction s as [|c s IH].
  - rewrite like_percent, like_plain_then_percent by assumption.
    simpl. now rewrite orb_false_r.
  - rewrite like_percent, like_plain_then_percent by assumption.
    now rewrite IH.
Qed.

Lemma toLowerCase_app a b :
  Js.toLowerCase (a +:+ b) = Js.toLowerCase a +:+ Js.toLowerCase b.
Proof.
  induction a as [|c a IH]; [reflexivity|].
  change (String c a +:+ b) with (String c (a +:+ b)).
  simpl. rewrite IH. reflexivity.
Qed.

Lemma is_pattern_char_lower c :
  is_pattern_char (Js.lower_ascii c) = is_pattern_char c.
Proof. destruct c as [[] [] [] [] [] [] [] []]; reflexivity. Qed.

Lemma plain_toLowerCase t : plain (Js.toLowerCase t) = plain t.
Proof.
  induction t as [|c t IH]; [reflexivity|].
  simpl. now rewrite is_pattern_char_lower, IH.
Qed.

Lemma ilike_plain column term :
  plain term = true ->
  ilike column ("%" +:+ term +:+ "%") = contains_ci column term.
Proof.
  intros ok. unfold ilike, contains_ci. rewrite !toLowerCase_app.
  change (Js.toLowerCase "%") with "%".
  apply like_contains. now rewrite plain_toLowerCase.
Qed.

Lemma search_matches_plain term r :
  plain term = true -> search_matches term r = substring_match term r.
Proof.
  intros ok. unfold search_matches, substring_match.
  now rewrite !ilike_plain.
Qed.

(** *** The order and the window *)

#[global] Instance newer_first_total : Total newer_first.
Proof. intros a b. unfold newer_first. lia. Qed.

#[global] Instance newer_first_transitive : Transitive newer_first.
Proof. intros a b c. unfold newer_first. lia. Qed.

Lemma StronglySorted_drop {A} (R : relation A) n l :
  StronglySorted R l -> StronglySorted R (drop n l).
Proof.
  revert l. induction n as [|n IH]; intros l sorted; [now rewrite drop_0|].
  destruct l as [|x l]; [constructor|].
  simpl. apply IH. now inversion sorted.
Qed.

Lemma StronglySorted_take {A} (R : relation A) n l :
  StronglySorted R l -> StronglySorted R (take n l).
Proof.
  revert n. induction l as [|x l IH]; intros n sorted.
  - rewrite take_nil. constructor.
  - destruct n as [|n]; [constructor|].
    simpl. inversion sorted as [|? ? tail head]; subst.
    constructor; [now apply IH|]. now apply Forall_take.
Qed.

Lemma ceiling_of_fraction count size :
  0 < size ->
  Js.Math_ceil (Js.div count size) = Js.of_Z ((count + size - 1) / size).
Proof.
  intros positive. unfold Js.div.
  destruct (size =? 0) eqn:zero; [apply Z.eqb_eq in zero; lia|].
  destruct (size <? 0) eqn:negative; [apply Z.ltb_lt in negative; lia|].
  simpl. unfold Js.of_Z. do 2 f_equal.
  unfold Qceiling, Qfloor. simpl. rewrite Z2Pos.id by assumption.
  apply Z.opp_inj. rewrite Z.opp_involutive. symmetry.
  apply (Z.div_unique _ _ _ (size - 1 - (count + size - 1) mod size)).
  - left. pose proof (Z.mod_pos_bound (count + size - 1) size positive). lia.
  - pose proof (Z.div_mod (count + size - 1) size ltac:(lia)). lia.
Qed.

Lemma select_page_answers n cond size skip w :
  answers (S n) w -> 0 <= size -> 0 <= skip ->
  select_page cond size skip w
  = (Ok (take (Z.to_nat size)
           (drop (Z.to_nat skip) (merge_sort newer_first (where_clause cond (blogPosts w))))),
     advance Select w).
Proof.
  intros quiet bound offset. unfold select_page.
  erewrite bind_ok by (now apply (statement_answers n)).
  unfold mbind, M_bind, get_rows, lift, limit_offset. simpl.
  destruct (size <? 0) eqn:neg; [apply Z.ltb_lt in neg; lia|].
  destruct (skip <? 0) eqn:neg'; [apply Z.ltb_lt in neg'; lia|].
  reflexivity.
Qed.

Lemma select_count_answers n cond w :
  answers (S n) w ->
  select_count cond w
  = (Ok (Z.of_nat (length (where_clause cond (blogPosts w)))), advance Count w).
Proof.
  intros quiet. unfold select_count.
  erewrite bind_ok by (now apply (statement_answers n)). reflexivity.
Qed.

(** C3, as stated, fails.  A caller without the permission gets no
    listing.  A search term is a [LIKE] pattern: the term "_" matches
    every row with a non-empty field, although no row contains an
    underscore.  A page size of 0 gives an infinite page count. *)
Lemma getPaginatedBlogs_claim_fails :
  let rows := [Samples.hello; Samples.world_post; Samples.tips] in
  fst (getPaginatedBlogs Samples.visitor 1 10 None (Samples.table rows))
  = Ok (failure "You don't have permission to manage blog posts")
  /\ page_of (getPaginatedBlogs Samples.editor 1 10 (Some "_") (Samples.table rows))
     = Some (mkPage [Samples.world_post; Samples.tips; Samples.hello]
               (mkPagination 1 (Js.of_Z 1) 3 10))
  /\ List.filter (substring_match "_") rows = []
  /\ pagination <$> page_of (getPaginatedBlogs Samples.editor 1 0 None
                                (Samples.table rows))
     = Some (mkPagination 1 (Js.Infinity false) 3 0).
Proof. repeat split. Qed.

(** C3, amended.  For every page and page size of at least 1, a caller
    that holds the permission and a store that answers,
    [getPaginatedBlogs] returns the rows at positions
    (page - 1) * pageSize and following, at most pageSize of them, of the
    matching rows ordered by creation time descending; totalCount is the
    number of matching rows and totalPages is ceil(totalCount / pageSize).
    With a non-empty search term the matching rows are those whose title,
    author or content matches the pattern %term% without regard to letter
    case; when the term has none of the pattern characters (percent sign,
    underscore, backslash) these are exactly the rows whose title, author
    or content contains the term, letter case aside.  Without a term, or
    with the empty term, every row matches. *)
Theorem getPaginatedBlogs_page
    (env : environment) (page size : Z) (search : option string) (w : world) :
  hasPermission env "manage_blog_posts" = Ok true ->
  answers 2 w ->
  1 <= page -> 1 <= size ->
  let matching := where_clause (searchCondition search) (blogPosts w) in
  let ordered := merge_sort newer_first matching in
  let window := take (Z.to_nat size) (drop (Z.to_nat ((page - 1) * size)) ordered) in
  let count := Z.of_nat (length matching) in
  let pages := (count + size - 1) / size in
  getPaginatedBlogs env page size search w
  = (Ok (mkResult true
           (Some (mkPage window (mkPagination page (Js.of_Z pages) count size)))
           None None),
     advance Count (advance Select w))
  /\ Z.of_nat (length window) <= size
  /\ StronglySorted (fun a b => createdAt b <= createdAt a) window
  /\ ordered ≡ₚ matching
  /\ (forall r, r ∈ window -> r ∈ matching)
  /\ (pages - 1) * size < count <= pages * size
  /\ (forall term, search = Some term -> term <> EmptyString ->
      matching = List.filter (search_matches term) (blogPosts w)
      /\ (plain term = true ->
          matching = List.filter (substring_match term) (blogPosts w)))
  /\ (search = None \/ search = Some EmptyString -> matching = blogPosts w).
Proof.
  intros granted quiet first positive matching ordered window count pages.
  assert (answers 1 (advance Select w)) as quiet' by (now apply answers_advance).
  repeat apply conj.
  - apply try_catch_ok. unfold getPaginatedBlogs_try.
    erewrite bind_ok by (now apply validatePermission_granted). simpl.
    erewrite bind_ok by (apply (select_page_answers 1); [assumption|lia|nia]).
    erewrite bind_ok by (now apply (select_count_answers 0)).
    simpl. fold matching. fold count. rewrite ceiling_of_fraction by lia.
    reflexivity.
  - subst window. rewrite length_take. lia.
  - subst window. apply StronglySorted_take, StronglySorted_drop.
    apply (StronglySorted_merge_sort newer_first).
  - apply merge_sort_Permutation.
  - intros r shown. subst window ordered.
    apply subseteq_take, subseteq_drop in shown.
    now rewrite merge_sort_Permutation in shown.
  - subst pages. pose proof (Z.div_mod (count + size - 1) size ltac:(lia)).
    pose proof (Z.mod_pos_bound (count + size - 1) size ltac:(lia)). nia.
  - subst pages. pose proof (Z.div_mod (count + size - 1) size ltac:(lia)).
    pose proof (Z.mod_pos_bound (count + size - 1) size ltac:(lia)). nia.
  - intros term -> nonempty. subst matching. unfold searchCondition, Js.truthy.
    apply String.eqb_neq in nonempty. rewrite nonempty. simpl.
    split; [reflexivity|]. intros ok.
    apply List.filter_ext. intros r. now apply search_matches_plain.
  - intros [->| ->]; reflexivity.
Qed.

Lemma getPaginatedBlogs_page_witness :
  hasPermission Samples.editor "manage_blog_posts" = Ok true
  /\ answers 2 (Samples.table [Samples.hello; Samples.world_post; Samples.tips])
  /\ 1 <= 2 /\ 1 <= 2
  /\ page_of (getPaginatedBlogs Samples.editor 2 2 (Some "S")
                (Samples.table [Samples.hello; Samples.world_post; Samples.tips]))
     = Some (mkPage [Samples.hello] (mkPagination 2 (Js.of_Z 2) 3 2)).
Proof.
  assert (answers 2 (Samples.table [Samples.hello; Samples.world_post; Samples.tips]))
    as quiet by constructor.
  split; [reflexivity|]. split; [exact quiet|]. split; [lia|]. split; [lia|].
  unfold page_of.
  rewrite (proj1 (getPaginatedBlogs_page Samples.editor 2 2 (Some "S")
                    (Samples.table [Samples.hello; Samples.world_post; Samples.tips])
                    eq_refl quiet ltac:(lia) ltac:(lia))).
  reflexivity.
Defined.

(** ** The event-attach dialog *)

Lemma weight_check_rejects (x : Js.number) :
  Js.isNaN x || Js.lt x (Js.of_Z 0) || Js.gt x (Js.of_Z 1)
  = negb (Js.in_unit_interval x).
Proof.
  destruct x as [|[]|q]; try reflexivity.
  unfold Js.gt, Js.lt, Js.of_Z, Js.in_unit_interval, Js.isNaN.
  change (inject_Z 0) with 0%Q. change (inject_Z 1) with 1%Q.
  now destruct (Qle_bool 0 q), (Qle_bool q 1).
Qed.

(** C7.  The weight of an event whose input has not been touched reads
    "1.0", and a weight that has been typed in reads as typed.  Whatever
    the state of the dialog, when the weight read for the event does not
    parse to a finite number between 0.0 and 1.0 (bounds included),
    [handleAttachEvent] only raises the error notification: the state is
    unchanged and no [attachEventToRanklist] request is among its
    effects.  A weight within the bounds, on the other hand, is sent. *)
Theorem handleAttachEvent_checks_weight
    (ranklistId : Z) (onSuccess_given : bool) (parseFloat : string -> Js.number)
    (D : Type) (eventId : Z)
    (answer : Js.settled (AttachEventDialog.response D))
    (st : AttachEventDialog.state) :
  let run :=
    AttachEventDialog.handleAttachEvent ranklistId onSuccess_given parseFloat
      eventId answer st in
  let weight := AttachEventDialog.weight_of st eventId in
  (AttachEventDialog.eventWeights st !! eventId = None -> weight = "1.0")
  /\ (forall typed,
        AttachEventDialog.eventWeights st !! eventId = Some typed ->
        typed <> EmptyString -> weight = typed)
  /\ (Js.in_unit_interval (parseFloat weight) = false ->
      run = (st, [AttachEventDialog.toast_error "Weight must be between 0.0 and 1.0"])
      /\ forall list_id event_id sent,
           AttachEventDialog.attachEventToRanklist list_id event_id sent ∉ snd run)
  /\ (Js.in_unit_interval (parseFloat weight) = true ->
      head (snd run)
      = Some (AttachEventDialog.attachEventToRanklist ranklistId eventId
                (parseFloat weight))).
Proof.
  intros run weight. subst run weight. repeat apply conj.
  - intros untouched. unfold AttachEventDialog.weight_of. now rewrite untouched.
  - intros typed stored nonempty. unfold AttachEventDialog.weight_of.
    rewrite stored. unfold Js.truthy.
    apply String.eqb_neq in nonempty. now rewrite nonempty.
  - intros outside.
    assert (AttachEventDialog.handleAttachEvent ranklistId onSuccess_given parseFloat
              eventId answer st
            = (st, [AttachEventDialog.toast_error "Weight must be between 0.0 and 1.0"]))
      as rejected.
    { unfold AttachEventDialog.handleAttachEvent.
      rewrite weight_check_rejects, outside. reflexivity. }
    split; [exact rejected|].
    intros list_id event_id sent. rewrite rejected. simpl.
    intros found. apply list_elem_of_singleton in found. discriminate.
  - intros inside. unfold AttachEventDialog.handleAttachEvent.
    rewrite weight_check_rejects, inside. reflexivity.
Qed.

Lemma handleAttachEvent_checks_weight_witness :
  let st := Samples.attach_dialog "cs" [Samples.contest] {[ 11 := "1.5" ]} in
  Js.in_unit_interval
    (Samples.parseFloat_table (AttachEventDialog.weight_of st 11)) = false
  /\ AttachEventDialog.handleAttachEvent 7 true Samples.parseFloat_table 11
       (Js.Resolved (AttachEventDialog.mkResponse true (Some tt) None)) st
     = (st, [AttachEventDialog.toast_error "Weight must be between 0.0 and 1.0"]).
Proof.
  split; [reflexivity|].
  apply (handleAttachEvent_checks_weight 7 true Samples.parseFloat_table unit 11
           (Js.Resolved (AttachEventDialog.mkResponse true (Some tt) None))
           (Samples.attach_dialog "cs" [Samples.contest] {[ 11 := "1.5" ]})).
  reflexivity.
Defined.

(** A weight entry the user has emptied reads as the default again. *)
Example emptied_weight_reads_default :
  AttachEventDialog.weight_of
    (Samples.attach_dialog "cs" [Samples.contest] {[ 11 := EmptyString ]}) 11
  = "1.0".
Proof. reflexivity. Qed.

(** *** Trimmed queries *)

Lemma trimStart_length s : (String.length (Js.trimStart s) <= String.length s)%nat.
Proof.
  induction s as [|c s IH]; simpl; [lia|].
  destruct (Js.is_whitespace c); simpl; lia.
Qed.

Lemma trimEnd_length s : (String.length (Js.trimEnd s) <= String.length s)%nat.
Proof.
  induction s as [|c s IH]; simpl; [lia|].
  destruct (Js.trimEnd s) as [|d kept]; simpl in *.
  - destruct (Js.is_whitespace c); simpl; lia.
  - lia.
Qed.

Lemma trim_length q : Js.length (Js.trim q) <= Js.length q.
Proof.
  unfold Js.length, Js.trim.
  pose proof (trimEnd_length (Js.trimStart q)). pose proof (trimStart_length q). lia.
Qed.

Lemma truthy_of_length s : 1 <= Js.length s -> Js.truthy s = true.
Proof. destruct s; [unfold Js.length; simpl; lia|reflexivity]. Qed.

Lemma truthy_false_length s : Js.truthy s = false -> Js.length s = 0.
Proof. destruct s; [reflexivity|discriminate]. Qed.

(** The guard of the debounced effect, which both dialogs share. *)
Lemma debounce_guard q :
  Js.truthy q && (2 <=? Js.length (Js.trim q)) = (2 <=? Js.length (Js.trim q)).
Proof.
  destruct (2 <=? Js.length (Js.trim q)) eqn:long; [|apply andb_false_r].
  apply Z.leb_le in long. pose proof (trim_length q).
  rewrite truthy_of_length by lia. reflexivity.
Qed.

(** The guard of [handleSearch] lets a query through whose trimmed length
    is at least 2. *)
Lemma handleSearch_guard q :
  2 <= Js.length (Js.trim q) ->
  negb (Js.truthy (Js.trim q)) || (Js.length q <? 2) = false.
Proof.
  intros long. pose proof (trim_length q).
  rewrite truthy_of_length by lia. simpl. apply Z.ltb_ge. lia.
Qed.

(** In the event-attach dialog a settled query sends a search exactly
    when its trimmed length is at least 2, and a shorter one empties the
    list of results. *)
Lemma attach_dialog_debounce (ranklistId : Z) (st : AttachEventDialog.state) :
  let q := AttachEventDialog.searchQuery st in
  let run := AttachEventDialog.debounce_settled ranklistId st in
  (2 <= Js.length (Js.trim q) ->
   snd run = [AttachEventDialog.getAvailableEvents ranklistId])
  /\ (Js.length (Js.trim q) < 2 ->
      AttachEventDialog.searchResults (fst run) = [] /\ snd run = []).
Proof.
  intros q run. subst run q.
  unfold AttachEventDialog.debounce_settled, AttachEventDialog.debounced_effect.
  simpl. rewrite debounce_guard. split.
  - intros long. rewrite (proj2 (Z.leb_le _ _) long).
    unfold AttachEventDialog.handleSearch. now rewrite handleSearch_guard.
  - intros short. rewrite (proj2 (Z.leb_gt _ _) short). split; reflexivity.
Qed.

(** ** The user-search dialog *)

(** In the user-search dialog a settled query sends a search exactly when
    its trimmed length is at least 2; a shorter one changes nothing but
    the debounced value: the results stay as they were. *)
Lemma user_dialog_debounce {D : Type} (st : UserSearchDialog.state) :
  let q := UserSearchDialog.searchQuery st in
  let run := @UserSearchDialog.debounce_settled D st in
  (2 <= Js.length (Js.trim q) -> snd run = [UserSearchDialog.searchUsers q])
  /\ (Js.length (Js.trim q) < 2 ->
      run = (UserSearchDialog.setDebouncedSearch q st, [])
      /\ UserSearchDialog.searchResults (fst run) = UserSearchDialog.searchResults st).
Proof.
  intros q run. subst run q.
  unfold UserSearchDialog.debounce_settled, UserSearchDialog.debounced_effect.
  simpl. rewrite debounce_guard. split.
  - intros long. rewrite (proj2 (Z.leb_le _ _) long).
    unfold UserSearchDialog.handleSearch. now rewrite handleSearch_guard.
  - intros short. rewrite (proj2 (Z.leb_gt _ _) short). split; reflexivity.
Qed.

(** C8.  The user-search dialog shows the result [ann] for the query
    "an"; the user deletes a letter.  The query "a" has trimmed length 1,
    no search is sent, but the list is not cleared: once the query has
    settled the dialog still shows [ann].  The event-attach dialog, in the
    same situation, ends with an empty list. *)
Theorem user_search_short_query_keeps_results :
  let typed := UserSearchDialog.input_changed "a"
                 (Samples.user_dialog "an" [Samples.ann]) in
  let run := @UserSearchDialog.debounce_settled unit typed in
  Js.length (Js.trim "a") = 1
  /\ snd run = []
  /\ UserSearchDialog.searchResults (fst run) = [Samples.ann]
  /\ AttachEventDialog.searchResults
       (fst (AttachEventDialog.debounce_settled 7
               (AttachEventDialog.input_changed "c"
                  (Samples.attach_dialog "cs" [Samples.contest] ∅))))
     = [].
Proof. repeat split. Qed.

(** ** Adding and attaching from the result list *)

Lemma elem_of_filter_bool {A} (keep : A -> bool) (l : list A) (x : A) :
  x ∈ List.filter keep l <-> (x ∈ l /\ keep x = true).
Proof. rewrite !list_elem_of_In. apply filter_In. Qed.

Lemma filter_sole {A} (keep : A -> bool) (l : list A) (x : A) :
  x ∈ l -> length l = 1%nat -> keep x = false -> List.filter keep l = [].
Proof.
  destruct l as [|y [|z l]]; simpl; try discriminate.
  intros H _ drop. apply list_elem_of_singleton in H. subst y. now rewrite drop.
Qed.

Lemma last_after_two {A} (a b x : A) (l : list A) :
  last (a :: b :: l ++ [x]) = Some x.
Proof. change (last ((a :: b :: l) ++ [x]) = Some x). apply last_snoc. Qed.

(** C9, as stated, fails for the event-attach dialog.  Its callback takes
    no argument: two successful answers that carry different data leave
    the same state and the same effects, the last of which is the bare
    callback.  And with a single result left but a current query that has
    become shorter than 2 characters, no search is sent again. *)
Lemma attach_callback_gets_no_data :
  let shown := Samples.attach_dialog "cs" [Samples.contest] ∅ in
  let run (payload : string) (st : AttachEventDialog.state) :=
    AttachEventDialog.handleAttachEvent 7 true Samples.parseFloat_table 11
      (Js.Resolved (AttachEventDialog.mkResponse true (Some payload) None)) st in
  run "first" shown = run "second" shown
  /\ snd (run "first" shown)
     = [AttachEventDialog.attachEventToRanklist 7 11 (Js.Finite 1);
        AttachEventDialog.toast_success "Event attached successfully";
        AttachEventDialog.getAvailableEvents 7;
        AttachEventDialog.onSuccess]
  /\ snd (run "first"
            (AttachEventDialog.mkState true "c" "cs" false None [Samples.contest] ∅))
     = [AttachEventDialog.attachEventToRanklist 7 11 (Js.Finite 1);
        AttachEventDialog.toast_success "Event attached successfully";
        AttachEventDialog.onSuccess].
Proof. repeat split. Qed.

(** C9, amended.  For every item of the result list, a successful attach
    or add removes the entries with the id of that item from the list and
    keeps the others in their order.  The event-attach dialog also deletes
    the weight entry of the item, calls its success callback, when one
    was supplied, without arguments, and sends the search again when the
    list held exactly one result and the trimmed current query has at
    least 2 characters, not otherwise.  The user-search dialog calls its
    callback, when one was supplied, with the data of the answer, and when
    the list held exactly one result calls [handleSearch] with the
    debounced query, which sends the search again if that query passes
    the guard of [handleSearch]. *)
Theorem successful_add_updates_the_list :
  (forall (ranklistId : Z) (onSuccess_given : bool)
          (parseFloat : string -> Js.number) (D : Type)
          (item : AttachEventDialog.Event) (r : AttachEventDialog.response D)
          (st : AttachEventDialog.state),
      item ∈ AttachEventDialog.searchResults st ->
      Js.in_unit_interval
        (parseFloat (AttachEventDialog.weight_of st (AttachEventDialog.id item))) = true ->
      AttachEventDialog.success r = true ->
      let eventId := AttachEventDialog.id item in
      let run :=
        AttachEventDialog.handleAttachEvent ranklistId onSuccess_given parseFloat
          eventId (Js.Resolved r) st in
      AttachEventDialog.searchResults (fst run)
      = List.filter (fun event => negb (AttachEventDialog.id event =? eventId))
          (AttachEventDialog.searchResults st)
      /\ (item ∉ AttachEventDialog.searchResults (fst run))
      /\ (forall other,
            other ∈ AttachEventDialog.searchResults (fst run)
            <-> (other ∈ AttachEventDialog.searchResults st
                 /\ AttachEventDialog.id other <> eventId))
      /\ AttachEventDialog.eventWeights (fst run)
         = delete eventId (AttachEventDialog.eventWeights st)
      /\ (onSuccess_given = true -> last (snd run) = Some AttachEventDialog.onSuccess)
      /\ (length (AttachEventDialog.searchResults st) = 1%nat ->
          2 <= Js.length (Js.trim (AttachEventDialog.searchQuery st)) ->
          AttachEventDialog.getAvailableEvents ranklistId ∈ snd run)
      /\ (length (AttachEventDialog.searchResults st) <> 1%nat
          \/ Js.length (Js.trim (AttachEventDialog.searchQuery st)) < 2 ->
          forall list_id, AttachEventDialog.getAvailableEvents list_id ∉ snd run))
  /\ (forall (D : Type) (successMessage buttonLabel : string)
             (onUserAdded_given : bool)
             (item : UserSearchDialog.UserSearchResult)
             (r : UserSearchDialog.AddUserResponse D)
             (st : UserSearchDialog.state),
         item ∈ UserSearchDialog.searchResults st ->
         UserSearchDialog.success r = true ->
         let userId := UserSearchDialog.id item in
         let run :=
           UserSearchDialog.handleAddUser successMessage buttonLabel
             onUserAdded_given userId (Js.Resolved r) st in
         UserSearchDialog.searchResults (fst run)
         = List.filter (fun user => negb (String.eqb (UserSearchDialog.id user) userId))
             (UserSearchDialog.searchResults st)
         /\ (item ∉ UserSearchDialog.searchResults (fst run))
         /\ (forall other,
               other ∈ UserSearchDialog.searchResults (fst run)
               <-> (other ∈ UserSearchDialog.searchResults st
                    /\ UserSearchDialog.id other <> userId))
         /\ (onUserAdded_given = true ->
             last (snd run)
             = Some (UserSearchDialog.onUserAdded (UserSearchDialog.data r)))
         /\ (length (UserSearchDialog.searchResults st) = 1%nat ->
             Js.trim (UserSearchDialog.debouncedSearch st) <> EmptyString ->
             2 <= Js.length (UserSearchDialog.debouncedSearch st) ->
             UserSearchDialog.searchUsers (UserSearchDialog.debouncedSearch st)
             ∈ snd run)
         /\ (length (UserSearchDialog.searchResults st) <> 1%nat ->
             forall q, UserSearchDialog.searchUsers q ∉ snd run)).
Proof.
  split.
  - intros ranklistId onSuccess_given parseFloat D item r st shown inside ok eventId run.
    assert (AttachEventDialog.searchResults (fst run)
            = List.filter (fun event => negb (AttachEventDialog.id event =? eventId))
                (AttachEventDialog.searchResults st)
            /\ AttachEventDialog.eventWeights (fst run)
               = delete eventId (AttachEventDialog.eventWeights st)
            /\ snd run
               = AttachEventDialog.attachEventToRanklist ranklistId eventId
                   (parseFloat (AttachEventDialog.weight_of st eventId))
                 :: AttachEventDialog.toast_success "Event attached successfully"
                 :: (if ((length (AttachEventDialog.searchResults st) =? 1)%nat
                         && (2 <=? Js.length (Js.trim (AttachEventDialog.searchQuery st))))%bool
                     then [AttachEventDialog.getAvailableEvents ranklistId] else [])
                 ++ (if onSuccess_given then [AttachEventDialog.onSuccess] else []))
      as (results & weights & effects).
    { subst run. unfold AttachEventDialog.handleAttachEvent.
      unfold eventId. rewrite weight_check_rejects, inside, ok. simpl.
      destruct ((length (AttachEventDialog.searchResults st) =? 1)%nat
                && (2 <=? Js.length (Js.trim (AttachEventDialog.searchQuery st))))%bool
        eqn:refresh; [|repeat split].
      apply andb_true_iff in refresh as [_ long]. apply Z.leb_le in long.
      unfold AttachEventDialog.handleSearch. rewrite handleSearch_guard by assumption.
      repeat split. }
    rewrite results, weights, effects.
    assert (forall other,
              other ∈ List.filter
                        (fun event => negb (AttachEventDialog.id event =? eventId))
                        (AttachEventDialog.searchResults st)
              <-> (other ∈ AttachEventDialog.searchResults st
                   /\ AttachEventDialog.id other <> eventId)) as kept.
    { intros other. rewrite elem_of_filter_bool, negb_true_iff, Z.eqb_neq. tauto. }
    repeat apply conj; trivial.
    + intros gone. apply kept in gone as [_ different]. now apply different.
    + intros ->. destruct (_ && _)%bool; reflexivity.
    + intros sole long. apply Nat.eqb_eq in sole. apply Z.leb_le in long.
      rewrite sole, long. simpl. right. right. left.
    + intros reason list_id.
      replace ((length (AttachEventDialog.searchResults st) =? 1)%nat
               && (2 <=? Js.length (Js.trim (AttachEventDialog.searchQuery st))))%bool
        with false.
      2:{ symmetry. apply andb_false_iff. destruct reason as [many|short].
          - left. now apply Nat.eqb_neq.
          - right. now apply Z.leb_gt. }
      simpl. rewrite !not_elem_of_cons. repeat split; try discriminate.
      destruct onSuccess_given; [|apply not_elem_of_nil].
      rewrite not_elem_of_cons. split; [discriminate|apply not_elem_of_nil].
  - intros D successMessage buttonLabel onUserAdded_given item r st shown ok userId run.
    assert (forall other,
              other ∈ List.filter
                        (fun user => negb (String.eqb (UserSearchDialog.id user) userId))
                        (UserSearchDialog.searchResults st)
              <-> (other ∈ UserSearchDialog.searchResults st
                   /\ UserSearchDialog.id other <> userId)) as kept.
    { intros other. rewrite elem_of_filter_bool, negb_true_iff, String.eqb_neq. tauto. }
    assert (UserSearchDialog.searchResults (fst run)
            = List.filter (fun user => negb (String.eqb (UserSearchDialog.id user) userId))
                (UserSearchDialog.searchResults st)
            /\ snd run
               = UserSearchDialog.addUser userId
                 :: UserSearchDialog.toast_success successMessage
                 :: (if (length (UserSearchDialog.searchResults st) =? 1)%nat
                     then snd (UserSearchDialog.handleSearch (D := D)
                                 (UserSearchDialog.debouncedSearch st) st)
                     else [])
                 ++ (if onUserAdded_given
                     then [UserSearchDialog.onUserAdded (UserSearchDialog.data r)]
                     else []))
      as (results & effects).
    { subst run. unfold UserSearchDialog.handleAddUser. rewrite ok. simpl.
      destruct (length (UserSearchDialog.searchResults st) =? 1)%nat eqn:sole;
        [|split; reflexivity].
      apply Nat.eqb_eq in sole. unfold UserSearchDialog.handleSearch.
      destruct (negb (Js.truthy (Js.trim (UserSearchDialog.debouncedSearch st)))
                || (Js.length (UserSearchDialog.debouncedSearch st) <? 2));
        simpl; split; try reflexivity.
      symmetry. apply (filter_sole _ _ item); try assumption.
      apply negb_false_iff. apply String.eqb_refl. }
    rewrite results, effects.
    repeat apply conj; trivial.
    + intros gone. apply kept in gone as [_ different]. now apply different.
    + intros ->. apply last_after_two.
    + intros sole nonempty long. apply Nat.eqb_eq in sole. rewrite sole.
      unfold UserSearchDialog.handleSearch.
      replace (negb (Js.truthy (Js.trim (UserSearchDialog.debouncedSearch st)))
               || (Js.length (UserSearchDialog.debouncedSearch st) <? 2)) with false.
      2:{ symmetry. apply orb_false_iff. split.
          - apply negb_false_iff. unfold Js.truthy. apply negb_true_iff.
            now apply String.eqb_neq.
          - apply Z.ltb_ge. lia. }
      simpl. right. right. left.
    + intros many q. apply Nat.eqb_neq in many. rewrite many. simpl.
      rewrite !not_elem_of_cons. repeat split; try discriminate.
      destruct onUserAdded_given; [|apply not_elem_of_nil].
      rewrite not_elem_of_cons. split; [discriminate|apply not_elem_of_nil].
Qed.

Lemma successful_add_updates_the_list_witness :
  let st := Samples.attach_dialog "cs" [Samples.contest] ∅ in
  let r := AttachEventDialog.mkResponse true (Some "attached") None in
  Samples.contest ∈ AttachEventDialog.searchResults st
  /\ Js.in_unit_interval
       (Samples.parseFloat_table
          (AttachEventDialog.weight_of st (AttachEventDialog.id Samples.contest))) = true
  /\ AttachEventDialog.success r = true
  /\ AttachEventDialog.searchResults
       (fst (AttachEventDialog.handleAttachEvent 7 true Samples.parseFloat_table
               (AttachEventDialog.id Samples.contest) (Js.Resolved r) st))
     = List.filter
         (fun event =>
            negb (AttachEventDialog.id event =? AttachEventDialog.id Samples.contest))
         (AttachEventDialog.searchResults st).
Proof.
  intros st r.
  assert (Samples.contest ∈ AttachEventDialog.searchResults st) as shown
    by apply list_elem_of_here.
  split; [exact shown|]. split; [reflexivity|]. split; [reflexivity|].
  exact (proj1 (proj1 successful_add_updates_the_list 7 true Samples.parseFloat_table
                  string Samples.contest r st shown eq_refl eq_refl)).
Defined.

(** The scenario of the specification: the query "cs" has one matching
    event, its weight is untouched; attaching it sends the weight 1,
    empties the list and asks for the available events again. *)
Example attach_the_only_match :
  let st := Samples.attach_dialog "cs" [Samples.contest] ∅ in
  let run :=
    AttachEventDialog.handleAttachEvent 7 false Samples.parseFloat_table 11
      (Js.Resolved (AttachEventDialog.mkResponse true (@None unit) None)) st in
  AttachEventDialog.weight_of st 11 = "1.0"
  /\ AttachEventDialog.searchResults (fst run) = []
  /\ AttachEventDialog.isSearching (fst run) = true
  /\ snd run
     = [AttachEventDialog.attachEventToRanklist 7 11 (Js.Finite 1);
        AttachEventDialog.toast_success "Event attached successfully";
        AttachEventDialog.getAvailableEvents 7].
Proof. repeat split. Qed.

Example add_the_only_user :
  let st := Samples.user_dialog "an" [Samples.ann] in
  let run :=
    UserSearchDialog.handleAddUser "Member added" "Add" true "u1"
      (Js.Resolved (UserSearchDialog.mkResponse true None (Some 42))) st in
  UserSearchDialog.searchResults (fst run) = []
  /\ snd run
     = [UserSearchDialog.addUser "u1";
        UserSearchDialog.toast_success "Member added";
        UserSearchDialog.searchUsers "an";
        UserSearchDialog.onUserAdded (Some 42)].
Proof. repeat split. Qed.

Example search_answer_is_filtered :
  let st := AttachEventDialog.setIsSearching true
              (Samples.attach_dialog "cs" [] ∅) in
  AttachEventDialog.handleSearch_settled "cs"
    (Js.Resolved (AttachEventDialog.mkResponse true
                    (Some [Samples.contest; Samples.lecture]) None)) st
  = (Samples.attach_dialog "cs" [Samples.contest] ∅, []).
Proof. reflexivity. Qed.

(** * Further properties *)

(** ** The blog table under the six actions *)






Lemma getBlog_table env target w :
  blogPosts (snd (getBlog env target w)) = blogPosts w
  /\ serial (snd (getBlog env target w)) = serial w.
Proof.
  unfold getBlog, try_catch, getBlog_try, validatePermission,
    select_where_limit, statement, lift,
    get_rows, mbind, M_bind, mret, M_ret, limit_offset, where_clause.
  simpl.
  destruct (hasPermission env "manage_blog_posts") as [[]|e]; simpl;
    try (split; reflexivity).
  destruct (next_fault w) as [e|] eqn:f1; simpl; try (split; reflexivity).
  destruct (List.filter (fun r => id r =? target) (blogPosts w)) as [|x rest];
    simpl; split; reflexivity.
Qed.

Lemma getPaginatedBlogs_table env page size search w :
  blogPosts (snd (getPaginatedBlogs env page size search w)) = blogPosts w
  /\ serial (snd (getPaginatedBlogs env page size search w)) = serial w.
Proof.
  unfold getPaginatedBlogs, try_catch, getPaginatedBlogs_try, validatePermission,
    select_page, select_count, statement, lift,
    get_rows, mbind, M_bind, mret, M_ret, limit_offset.
  simpl.
  destruct (hasPermission env "manage_blog_posts") as [[]|e]; simpl;
    try (split; reflexivity).
  destruct (next_fault w) as [e|] eqn:f1; simpl; try (split; reflexivity).
  destruct (size <? 0); simpl; try (split; reflexivity).
  destruct ((page - 1) * size <? 0); simpl; try (split; reflexivity).
  destruct (next_fault (advance Select w)) as [e|] eqn:f2; simpl; split; reflexivity.
Qed.

Lemma generatePresignedUrl_table env fileType fileSize w :
  let w' := snd (generatePresignedUrl env fileType fileSize w) in
  blogPosts w' = blogPosts w /\ serial w' = serial w /\ faults w' = faults w
  /\ (trace w' = trace w
      \/ trace w' = (trace w ++ [Uuid; GetSignedUrl (storage_key (uuid env) fileType) 300])%list).
Proof.
  unfold generatePresignedUrl, try_catch, generatePresignedUrl_try, emit, lift,
    mbind, M_bind, mret, M_ret.
  generalize (Js.gt fileSize (Js.of_Z MAX_FILE_SIZE)). intros big.
  simpl.
  destruct (hasPermission env "manage_blog_posts") as [[]|e]; simpl;
    try (repeat split; now left).
  destruct (Js.startsWith fileType "image/"); simpl; try (repeat split; now left).
  destruct big; simpl; try (repeat split; now left).
  destruct (getSignedUrl env _ 300); simpl; repeat split; right;
    now rewrite <- app_assoc.
Qed.




Lemma rewritten_id env target v r : id (rewritten env target v r) = id r.
Proof. unfold rewritten. now destruct (id r =? target). Qed.





Lemma answers_same_faults n w1 w2 :
  faults w1 = faults w2 -> answers n w1 -> answers n w2.
Proof. unfold answers. now intros ->. Qed.

Lemma createBlog_goes_through env values v w :
  hasPermission env "manage_blog_posts" = Ok true ->
  blogFormSchema_parse env values = Ok v ->
  answers 2 w ->
  Forall (fun r => same_title_or_slug v r = false) (blogPosts w) ->
  createBlog env values w
  = (Ok (mkResult true (Some (dbValues_of env v, serial w)) None
           (Some "Blog post created successfully")),
     created_world env v w).
Proof.
  intros granted valid quiet free.
  assert (answers 1 (advance Select w)) as quiet' by (now apply answers_advance).
  apply try_catch_ok. unfold createBlog_try.
  erewrite bind_ok by (now apply validatePermission_granted). simpl.
  erewrite bind_ok by (unfold lift; now rewrite valid).
  erewrite bind_ok by (now apply (select_where_limit_answers 1)).
  rewrite (proj2 (filter_nil_Forall _ _) free). simpl.
  unfold insert_returning_id.
  erewrite bind_ok.
  2:{ erewrite bind_ok by (now apply (statement_answers 0)). reflexivity. }
  reflexivity.
Qed.

Lemma deleteBlog_goes_through env target w x rest :
  hasPermission env "manage_blog_posts" = Ok true ->
  answers 2 w ->
  List.filter (fun r => id r =? target) (blogPosts w) = x :: rest ->
  deleteBlog env target w
  = (Ok (mkResult true None None
           (Some ("Blog post " +:+ Js.quote +:+ title x +:+ Js.quote
                  +:+ " deleted successfully"))),
     deleted_world target w).
Proof.
  intros granted quiet found.
  assert (answers 1 (advance Select w)) as quiet' by (now apply answers_advance).
  apply try_catch_ok. unfold deleteBlog_try.
  erewrite bind_ok by (now apply validatePermission_granted). simpl.
  erewrite bind_ok by (now apply (select_where_limit_answers 1)).
  rewrite found. simpl.
  erewrite bind_ok.
  2:{ unfold delete_where_id.
      erewrite bind_ok by (now apply (statement_answers 0)). reflexivity. }
  reflexivity.
Qed.

Lemma deleteBlog_missing env target w :
  hasPermission env "manage_blog_posts" = Ok true ->
  answers 1 w ->
  Forall (fun r => id r <> target) (blogPosts w) ->
  deleteBlog env target w = (Ok (failure NOT_FOUND), advance Select w).
Proof.
  intros granted quiet missing. apply try_catch_ok. unfold deleteBlog_try.
  erewrite bind_ok by (now apply validatePermission_granted). simpl.
  erewrite bind_ok by (now apply (select_where_limit_answers 0)).
  now rewrite select_by_id_none.
Qed.

Lemma getBlog_answers env target w :
  hasPermission env "manage_blog_posts" = Ok true ->
  answers 1 w ->
  getBlog env target w
  = (Ok (match List.filter (fun r => id r =? target) (blogPosts w) with
         | [] => failure NOT_FOUND
         | found :: _ => mkResult true (Some found) None None
         end),
     advance Select w).
Proof.
  intros granted quiet. apply try_catch_ok. unfold getBlog_try.
  erewrite bind_ok by (now apply validatePermission_granted). simpl.
  erewrite bind_ok by (now apply (select_where_limit_answers 0)).
  now destruct (List.filter _ _).
Qed.

Lemma updateBlog_goes_through env target values v w :
  hasPermission env "manage_blog_posts" = Ok true ->
  blogFormSchema_parse env values = Ok v ->
  answers 3 w ->
  Exists (fun r => id r = target) (blogPosts w) ->
  Forall (fun r => id r = target \/ same_title_or_slug v r = false) (blogPosts w) ->
  updateBlog env target values w
  = (Ok (mkResult true (Some (dbValues_of env v, target)) None
           (Some "Blog post updated successfully")),
     updated_world env target v w).
Proof.
  intros granted valid quiet present free.
  assert (answers 2 (advance Select w)) as quiet2 by (now apply answers_advance).
  assert (answers 1 (advance Select (advance Select w))) as quiet3
    by (now apply answers_advance).
  apply try_catch_ok. unfold updateBlog_try.
  erewrite bind_ok by (now apply validatePermission_granted). simpl.
  erewrite bind_ok by (unfold lift; now rewrite valid).
  erewrite bind_ok by (now apply (select_where_limit_answers 2)).
  destruct (select_by_id_some target (blogPosts w) present) as (x & rest & ->).
  simpl.
  erewrite bind_ok by (now apply (select_where_limit_answers 1)).
  replace (List.filter
             (fun r => same_title_or_slug v r && negb (id r =? target))
             (blogPosts (advance Select w))) with (@nil BlogPost).
  2:{ symmetry. apply filter_nil_Forall. simpl.
      eapply Forall_impl; [exact free|].
      intros r [same|different]; apply andb_false_iff.
      - right. apply negb_false_iff. now apply Z.eqb_eq.
      - now left. }
  simpl. unfold update_set_where_id.
  erewrite bind_ok.
  2:{ erewrite bind_ok by (now apply (statement_answers 0)). reflexivity. }
  reflexivity.
Qed.

(** X2.  When the caller holds the permission, the schema accepts the
    payload, the store answers and no row has the validated title or
    slug, [createBlog] succeeds: it returns the database values with the
    next serial identifier, appends one row with those values and the
    current time as creation and update time, and revalidates the admin
    list and the public list.  An empty featured image or publish date
    and an absent featured flag are stored as none, none and false. *)
Theorem createBlog_inserts_the_post
    (env : environment) (values validatedFields : BlogFormValues) (w : world) :
  hasPermission env "manage_blog_posts" = Ok true ->
  blogFormSchema_parse env values = Ok validatedFields ->
  answers 2 w ->
  Forall (fun r => title r <> form_title validatedFields
                   /\ slug r <> form_slug validatedFields) (blogPosts w) ->
  let run := createBlog env values w in
  let dbValues := dbValues_of env validatedFields in
  fst run
  = Ok (mkResult true (Some (dbValues, serial w)) None
          (Some "Blog post created successfully"))
  /\ blogPosts (snd run)
     = (blogPosts w
        ++ [mkPost (serial w) (form_title validatedFields) (form_slug validatedFields)
              (form_author validatedFields) (form_content validatedFields)
              (form_status validatedFields) (ins_featuredImage dbValues)
              (ins_publishedAt dbValues) (ins_isFeatured dbValues)
              (now env) (now env)])%list
  /\ serial (snd run) = serial w + 1
  /\ trace (snd run)
     = (trace w ++ [Select; Insert; RevalidatePath "/admin/blogs";
                    RevalidatePath "/blogs"])%list
  /\ (form_featuredImage validatedFields = Some EmptyString ->
      ins_featuredImage dbValues = None)
  /\ (form_publishedAt validatedFields = Some EmptyString ->
      ins_publishedAt dbValues = None)
  /\ (form_isFeatured validatedFields = None -> ins_isFeatured dbValues = false).
Proof.
  intros granted valid quiet free run dbValues. subst run.
  rewrite (createBlog_goes_through env values validatedFields w granted valid quiet).
  2:{ eapply Forall_impl; [exact free|]. intros r H.
      now apply same_title_or_slug_false. }
  repeat apply conj; try reflexivity.
  - simpl. now rewrite <- !app_assoc.
  - subst dbValues. unfold dbValues_of. simpl. now intros ->.
  - subst dbValues. unfold dbValues_of. simpl. now intros ->.
  - subst dbValues. unfold dbValues_of. simpl. now intros ->.
Qed.

Lemma createBlog_inserts_the_post_witness :
  let w := Samples.table [Samples.hello] in
  hasPermission Samples.editor "manage_blog_posts" = Ok true
  /\ blogFormSchema_parse Samples.editor Samples.fresh_post = Ok Samples.fresh_post
  /\ answers 2 w
  /\ Forall (fun r => title r <> form_title Samples.fresh_post
                      /\ slug r <> form_slug Samples.fresh_post) (blogPosts w)
  /\ fst (createBlog Samples.editor Samples.fresh_post w)
     = Ok (mkResult true
             (Some (dbValues_of Samples.editor Samples.fresh_post, serial w)) None
             (Some "Blog post created successfully")).
Proof.
  intros w.
  assert (answers 2 w) as quiet by constructor.
  assert (Forall (fun r => title r <> form_title Samples.fresh_post
                           /\ slug r <> form_slug Samples.fresh_post) (blogPosts w))
    as free by (repeat constructor; discriminate).
  split; [reflexivity|]. split; [reflexivity|].
  split; [exact quiet|]. split; [exact free|].
  exact (proj1 (createBlog_inserts_the_post Samples.editor Samples.fresh_post
                  Samples.fresh_post w eq_refl eq_refl quiet free)).
Defined.

(** X3.  When the schema rejects the payload, [createBlog] and
    [updateBlog] return the message of the first issue (or "Please check
    the form for errors." when there is none or it is empty) and leave
    the world as it was: no statement reaches the store. *)
Theorem invalid_form_changes_nothing
    (env : environment) (values : BlogFormValues) (w : world)
    (msg : string) (issues : list string) :
  hasPermission env "manage_blog_posts" = Ok true ->
  blogFormSchema_parse env values = Throw (ErrorObject msg (Some issues)) ->
  createBlog env values w = (Ok (failure (first_issue issues)), w)
  /\ (forall target,
        updateBlog env target values w = (Ok (failure (first_issue issues)), w))
  /\ (forall first others, issues = first :: others -> first <> EmptyString ->
      first_issue issues = first)
  /\ (issues = [] -> first_issue issues = "Please check the form for errors.").
Proof.
  intros granted invalid. repeat apply conj.
  - unfold createBlog. erewrite try_catch_throw.
    2:{ unfold createBlog_try.
        erewrite bind_ok by (now apply validatePermission_granted). simpl.
        apply bind_throw. unfold lift. now rewrite invalid. }
    reflexivity.
  - intros target. unfold updateBlog. erewrite try_catch_throw.
    2:{ unfold updateBlog_try.
        erewrite bind_ok by (now apply validatePermission_granted). simpl.
        apply bind_throw. unfold lift. now rewrite invalid. }
    reflexivity.
  - intros first others -> nonempty. simpl. unfold Js.truthy.
    apply String.eqb_neq in nonempty. now rewrite nonempty.
  - now intros ->.
Qed.

Lemma invalid_form_changes_nothing_witness :
  hasPermission Samples.strict_editor "manage_blog_posts" = Ok true
  /\ blogFormSchema_parse Samples.strict_editor Samples.fresh_post
     = Throw (ErrorObject "invalid" (Some ["Title is required"; "Slug is required"]))
  /\ createBlog Samples.strict_editor Samples.fresh_post (Samples.table [Samples.hello])
     = (Ok (failure (first_issue ["Title is required"; "Slug is required"])),
        Samples.table [Samples.hello]).
Proof.
  split; [reflexivity|]. split; [reflexivity|].
  exact (proj1 (invalid_form_changes_nothing Samples.strict_editor Samples.fresh_post
                  (Samples.table [Samples.hello]) "invalid"
                  ["Title is required"; "Slug is required"] eq_refl eq_refl)).
Defined.

Lemma answers_fewer m n w : (m <= n)%nat -> answers n w -> answers m w.
Proof.
  unfold answers. intros le quiet.
  replace (take m (faults w)) with (take m (take n (faults w))).
  - now apply Forall_take.
  - rewrite take_take. f_equal. lia.
Qed.




(** X5.  For a caller with the permission and a store that answers:
    [deleteBlog] of an identifier no row has returns "Blog post not found"
    after one lookup and changes nothing; otherwise it removes the rows
    with that identifier and no other, names the title of the row it
    found in the message, and revalidates the admin list and the public
    list. *)
Theorem deleteBlog_outcomes (env : environment) (target : Z) (w : world) :
  hasPermission env "manage_blog_posts" = Ok true ->
  answers 2 w ->
  let run := deleteBlog env target w in
  (Forall (fun r => id r <> target) (blogPosts w) ->
   fst run = Ok (failure "Blog post not found")
   /\ blogPosts (snd run) = blogPosts w
   /\ trace (snd run) = (trace w ++ [Select])%list)
  /\ (forall found others,
        List.filter (fun r => id r =? target) (blogPosts w) = found :: others ->
        fst run
        = Ok (mkResult true None None
                (Some ("Blog post " +:+ Js.quote +:+ title found +:+ Js.quote
                       +:+ " deleted successfully")))
        /\ blogPosts (snd run)
           = List.filter (fun r => negb (id r =? target)) (blogPosts w)
        /\ (forall r, r ∈ blogPosts (snd run) <-> (r ∈ blogPosts w /\ id r <> target))
        /\ trace (snd run)
           = (trace w ++ [Select; Delete target; RevalidatePath "/admin/blogs";
                          RevalidatePath "/blogs"])%list).
Proof.
  intros granted quiet run. subst run. split.
  - intros missing.
    assert (answers 1 w) as quiet1 by (apply (answers_fewer 1 2); [lia|assumption]).
    rewrite (deleteBlog_missing env target w granted quiet1 missing).
    repeat split.
  - intros found others present.
    rewrite (deleteBlog_goes_through env target w found others granted quiet present).
    repeat apply conj; try reflexivity.
    + intros r. simpl. rewrite elem_of_filter_bool, negb_true_iff, Z.eqb_neq. tauto.
    + simpl. now rewrite <- !app_assoc.
Qed.

Lemma deleteBlog_outcomes_witness :
  let w := Samples.table [Samples.hello] in
  hasPermission Samples.editor "manage_blog_posts" = Ok true
  /\ answers 2 w
  /\ Forall (fun r => id r <> 999) (blogPosts w)
  /\ fst (deleteBlog Samples.editor 999 w) = Ok (failure "Blog post not found").
Proof.
  intros w.
  assert (answers 2 w) as quiet by constructor.
  assert (Forall (fun r => id r <> 999) (blogPosts w)) as missing
    by (repeat constructor; discriminate).
  split; [reflexivity|]. split; [exact quiet|]. split; [exact missing|].
  exact (proj1 (proj1 (deleteBlog_outcomes Samples.editor 999 w eq_refl quiet) missing)).
Defined.

(** X6.  For a caller with the permission and a store that answers:
    [getBlog] returns "Blog post not found" when no row has the
    identifier, and otherwise a row of the table with that identifier; it
    sends one lookup and nothing else. *)
Theorem getBlog_outcomes (env : environment) (target : Z) (w : world) :
  hasPermission env "manage_blog_posts" = Ok true ->
  answers 1 w ->
  let run := getBlog env target w in
  (Forall (fun r => id r <> target) (blogPosts w) ->
   fst run = Ok (failure "Blog post not found"))
  /\ (Exists (fun r => id r = target) (blogPosts w) ->
      exists found, fst run = Ok (mkResult true (Some found) None None))
  /\ (forall found,
        fst run = Ok (mkResult true (Some found) None None) ->
        found ∈ blogPosts w /\ id found = target)
  /\ snd run = advance Select w.
Proof.
  intros granted quiet run. subst run.
  rewrite (getBlog_answers env target w granted quiet). simpl.
  repeat apply conj.
  - intros missing. now rewrite select_by_id_none.
  - intros present.
    destruct (select_by_id_some target (blogPosts w) present) as (x & rest & ->).
    eauto.
  - intros found.
    destruct (List.filter (fun r => id r =? target) (blogPosts w)) as [|x rest] eqn:hit;
      [discriminate|].
    intros eq. injection eq as <-.
    assert (x ∈ List.filter (fun r => id r =? target) (blogPosts w)) as inx
      by (rewrite hit; apply list_elem_of_here).
    apply elem_of_filter_bool in inx as [inx isx]. split; [assumption|].
    now apply Z.eqb_eq.
  - reflexivity.
Qed.

Lemma getBlog_outcomes_witness :
  let w := Samples.table [Samples.hello] in
  hasPermission Samples.editor "manage_blog_posts" = Ok true
  /\ answers 1 w
  /\ Forall (fun r => id r <> 999) (blogPosts w)
  /\ fst (getBlog Samples.editor 999 w) = Ok (failure "Blog post not found").
Proof.
  intros w.
  assert (answers 1 w) as quiet by constructor.
  assert (Forall (fun r => id r <> 999) (blogPosts w)) as missing
    by (repeat constructor; discriminate).
  split; [reflexivity|]. split; [exact quiet|]. split; [exact missing|].
  exact (proj1 (getBlog_outcomes Samples.editor 999 w eq_refl quiet) missing).
Defined.

(** X7.  Whatever the surroundings and whatever the store answers,
    [getBlog], [getPaginatedBlogs] and [generatePresignedUrl] leave the
    rows and the serial as they are; [generatePresignedUrl] sends no
    statement to the store at all: it records nothing, or one identifier
    draw and one signing request for 300 seconds. *)
Theorem reads_and_uploads_leave_the_table (env : environment) (w : world) :
  (forall target,
     blogPosts (snd (getBlog env target w)) = blogPosts w
     /\ serial (snd (getBlog env target w)) = serial w)
  /\ (forall page size search,
        blogPosts (snd (getPaginatedBlogs env page size search w)) = blogPosts w
        /\ serial (snd (getPaginatedBlogs env page size search w)) = serial w)
  /\ (forall fileType fileSize,
        let w' := snd (generatePresignedUrl env fileType fileSize w) in
        blogPosts w' = blogPosts w /\ serial w' = serial w /\ faults w' = faults w
        /\ (trace w' = trace w
            \/ trace w'
               = (trace w
                  ++ [Uuid; GetSignedUrl (storage_key (uuid env) fileType) 300])%list)).
Proof.
  repeat apply conj.
  - intros target. apply getBlog_table.
  - intros page size search. apply getPaginatedBlogs_table.
  - intros fileType fileSize. apply generatePresignedUrl_table.
Qed.

Lemma try_catch_returns {A} (body : M A) (handler : thrown -> M A) w :
  (forall e w', exists r, fst (handler e w') = Ok r) ->
  exists r, fst (try_catch body handler w) = Ok r.
Proof.
  intros total. unfold try_catch. destruct (body w) as [[a|e] w'].
  - now exists a.
  - apply total.
Qed.

Lemma catch_form_error_returns {T} (e : thrown) w :
  exists r, fst (@catch_form_error T e w) = Ok r.
Proof. destruct e as [msg [issues|]|]; simpl; eauto. Qed.

(** X8.  None of the six actions lets an error escape: whatever throws
    inside, the caller gets a result. *)
Theorem actions_always_answer (env : environment) (w : world) :
  (forall values, exists r, fst (createBlog env values w) = Ok r)
  /\ (forall target values, exists r, fst (updateBlog env target values w) = Ok r)
  /\ (forall target, exists r, fst (deleteBlog env target w) = Ok r)
  /\ (forall target, exists r, fst (getBlog env target w) = Ok r)
  /\ (forall page size search,
        exists r, fst (getPaginatedBlogs env page size search w) = Ok r)
  /\ (forall fileType fileSize,
        exists r, fst (generatePresignedUrl env fileType fileSize w) = Ok r).
Proof.
  repeat apply conj; intros; apply try_catch_returns; intros;
    first [apply catch_form_error_returns | simpl; eauto].
Qed.

Lemma filter_rewritten env target v rows :
  List.filter (fun r => id r =? target) (rewritten env target v <$> rows)
  = rewritten env target v <$> List.filter (fun r => id r =? target) rows.
Proof.
  induction rows as [|r rows IH]; [reflexivity|].
  rewrite fmap_cons. cbn [List.filter]. rewrite rewritten_id.
  destruct (id r =? target); [rewrite fmap_cons|]; now rewrite IH.
Qed.

Lemma filter_out_then_in target (rows : list BlogPost) :
  List.filter (fun r => id r =? target)
    (List.filter (fun r => negb (id r =? target)) rows) = [].
Proof.
  apply filter_nil_Forall. apply Forall_forall. intros r inr.
  apply elem_of_filter_bool in inr as [_ out]. now apply negb_true_iff in out.
Qed.

(** X9.  After a successful [createBlog], [getBlog] of the identifier
    that was returned answers with the row that was stored, provided the
    serial was ahead of the identifiers in use. *)
Theorem created_post_can_be_read
    (env : environment) (values validatedFields : BlogFormValues) (w : world) :
  hasPermission env "manage_blog_posts" = Ok true ->
  blogFormSchema_parse env values = Ok validatedFields ->
  answers 3 w ->
  Forall (fun r => title r <> form_title validatedFields
                   /\ slug r <> form_slug validatedFields) (blogPosts w) ->
  Forall (fun r => id r < serial w) (blogPosts w) ->
  fst (getBlog env (serial w) (snd (createBlog env values w)))
  = Ok (mkResult true
          (Some (new_row (serial w) (now env) (dbValues_of env validatedFields)))
          None None).
Proof.
  intros granted valid quiet free below.
  rewrite (createBlog_goes_through env values validatedFields w granted valid).
  2:{ apply (answers_fewer 2 3); [lia|assumption]. }
  2:{ eapply Forall_impl; [exact free|]. intros r H.
      now apply same_title_or_slug_false. }
  rewrite getBlog_answers; [|assumption|].
  2:{ apply (answers_same_faults 1 (advance Insert (advance Select w))); [reflexivity|].
      now do 2 apply answers_advance. }
  simpl. rewrite List.filter_app.
  rewrite (proj2 (filter_nil_Forall _ _)).
  2:{ eapply Forall_impl; [exact below|]. intros r H. simpl in *. apply Z.eqb_neq. lia. }
  simpl. now rewrite Z.eqb_refl.
Qed.

Lemma created_post_can_be_read_witness :
  let w := Samples.table [Samples.hello] in
  hasPermission Samples.editor "manage_blog_posts" = Ok true
  /\ blogFormSchema_parse Samples.editor Samples.fresh_post = Ok Samples.fresh_post
  /\ answers 3 w
  /\ Forall (fun r => title r <> form_title Samples.fresh_post
                      /\ slug r <> form_slug Samples.fresh_post) (blogPosts w)
  /\ Forall (fun r => id r < serial w) (blogPosts w)
  /\ fst (getBlog Samples.editor (serial w)
            (snd (createBlog Samples.editor Samples.fresh_post w)))
     = Ok (mkResult true
             (Some (new_row (serial w) (now Samples.editor)
                      (dbValues_of Samples.editor Samples.fresh_post)))
             None None).
Proof.
  intros w.
  assert (answers 3 w) as quiet by constructor.
  assert (Forall (fun r => title r <> form_title Samples.fresh_post
                           /\ slug r <> form_slug Samples.fresh_post) (blogPosts w))
    as free by (repeat constructor; discriminate).
  assert (Forall (fun r => id r < serial w) (blogPosts w)) as below
    by (repeat constructor).
  split; [reflexivity|]. split; [reflexivity|]. split; [exact quiet|].
  split; [exact free|]. split; [exact below|].
  exact (created_post_can_be_read Samples.editor Samples.fresh_post Samples.fresh_post
           w eq_refl eq_refl quiet free below).
Defined.

(** X10.  After a successful [updateBlog], [getBlog] of the same
    identifier answers with the row it found before, rewritten with the
    database values and the current time as update time. *)
Theorem updated_post_can_be_read
    (env : environment) (target : Z) (values validatedFields : BlogFormValues)
    (w : world) (found : BlogPost) (others : list BlogPost) :
  hasPermission env "manage_blog_posts" = Ok true ->
  blogFormSchema_parse env values = Ok validatedFields ->
  answers 4 w ->
  List.filter (fun r => id r =? target) (blogPosts w) = found :: others ->
  Forall (fun r => id r = target
                   \/ (title r <> form_title validatedFields
                       /\ slug r <> form_slug validatedFields)) (blogPosts w) ->
  fst (getBlog env target (snd (updateBlog env target values w)))
  = Ok (mkResult true
          (Some (updated_row (now env) (dbValues_of env validatedFields) found))
          None None).
Proof.
  intros granted valid quiet hit free.
  assert (found ∈ List.filter (fun r => id r =? target) (blogPosts w)) as inx
    by (rewrite hit; apply list_elem_of_here).
  apply elem_of_filter_bool in inx as [inx isx].
  rewrite (updateBlog_goes_through env target values validatedFields w granted valid).
  2:{ apply (answers_fewer 3 4); [lia|assumption]. }
  2:{ apply Exists_exists. exists found. split; [assumption|]. now apply Z.eqb_eq. }
  2:{ eapply Forall_impl; [exact free|]. intros r [?|H]; [now left|right].
      now apply same_title_or_slug_false. }
  rewrite getBlog_answers; [|assumption|].
  2:{ apply (answers_same_faults 1
               (advance (Update target) (advance Select (advance Select w))));
        [reflexivity|].
      now do 3 apply answers_advance. }
  simpl.
  change (map (fun r => if id r =? target
                        then updated_row (now env) (dbValues_of env validatedFields) r
                        else r) (blogPosts w))
    with (rewritten env target validatedFields <$> blogPosts w).
  rewrite filter_rewritten, hit. rewrite fmap_cons.
  unfold rewritten at 1. now rewrite isx.
Qed.

Lemma updated_post_can_be_read_witness :
  let w := Samples.table [Samples.hello; Samples.world_post] in
  hasPermission Samples.editor "manage_blog_posts" = Ok true
  /\ blogFormSchema_parse Samples.editor Samples.fresh_post = Ok Samples.fresh_post
  /\ answers 4 w
  /\ List.filter (fun r => id r =? 2) (blogPosts w) = [Samples.world_post]
  /\ Forall (fun r => id r = 2
                      \/ (title r <> form_title Samples.fresh_post
                          /\ slug r <> form_slug Samples.fresh_post)) (blogPosts w)
  /\ fst (getBlog Samples.editor 2
            (snd (updateBlog Samples.editor 2 Samples.fresh_post w)))
     = Ok (mkResult true
             (Some (updated_row (now Samples.editor)
                      (dbValues_of Samples.editor Samples.fresh_post)
                      Samples.world_post))
             None None).
Proof.
  intros w.
  assert (answers 4 w) as quiet by constructor.
  assert (Forall (fun r => id r = 2
                           \/ (title r <> form_title Samples.fresh_post
                               /\ slug r <> form_slug Samples.fresh_post)) (blogPosts w))
    as free.
  { constructor; [right; split; discriminate|].
    constructor; [now left|constructor]. }
  split; [reflexivity|]. split; [reflexivity|]. split; [exact quiet|].
  split; [reflexivity|]. split; [exact free|].
  exact (updated_post_can_be_read Samples.editor 2 Samples.fresh_post Samples.fresh_post
           w Samples.world_post [] eq_refl eq_refl quiet eq_refl free).
Defined.

(** X11.  After [deleteBlog], whether it found the row or not, [getBlog]
    of the same identifier answers "Blog post not found". *)
Theorem deleted_post_is_gone (env : environment) (target : Z) (w : world) :
  hasPermission env "manage_blog_posts" = Ok true ->
  answers 3 w ->
  fst (getBlog env target (snd (deleteBlog env target w)))
  = Ok (failure "Blog post not found").
Proof.
  intros granted quiet.
  destruct (List.filter (fun r => id r =? target) (blogPosts w)) as [|x rest] eqn:hit.
  - rewrite (deleteBlog_missing env target w granted).
    2:{ apply (answers_fewer 1 3); [lia|assumption]. }
    2:{ apply filter_nil_Forall in hit. eapply Forall_impl; [exact hit|].
        intros r H. now apply Z.eqb_neq. }
    rewrite getBlog_answers; [|assumption|now apply answers_advance, (answers_fewer 2 3); [lia|]].
    simpl. now rewrite hit.
  - rewrite (deleteBlog_goes_through env target w x rest granted); [|
      apply (answers_fewer 2 3); [lia|assumption] | assumption].
    rewrite getBlog_answers; [|assumption|].
    2:{ apply (answers_same_faults 1 (advance (Delete target) (advance Select w)));
          [reflexivity|].
        now do 2 apply answers_advance. }
    simpl. now rewrite filter_out_then_in.
Qed.

Lemma deleted_post_is_gone_witness :
  let w := Samples.table [Samples.hello; Samples.world_post] in
  hasPermission Samples.editor "manage_blog_posts" = Ok true
  /\ answers 3 w
  /\ fst (getBlog Samples.editor 2 (snd (deleteBlog Samples.editor 2 w)))
     = Ok (failure "Blog post not found").
Proof.
  intros w.
  assert (answers 3 w) as quiet by constructor.
  split; [reflexivity|]. split; [exact quiet|].
  exact (deleted_post_is_gone Samples.editor 2 w eq_refl quiet).
Defined.

Lemma getPaginatedBlogs_answers env page size search w :
  hasPermission env "manage_blog_posts" = Ok true ->
  answers 2 w -> 1 <= page -> 1 <= size ->
  let matching := where_clause (searchCondition search) (blogPosts w) in
  let count := Z.of_nat (length matching) in
  getPaginatedBlogs env page size search w
  = (Ok (mkResult true
           (Some (mkPage (page_window page size (merge_sort newer_first matching))
                    (mkPagination page (Js.of_Z ((count + size - 1) / size)) count size)))
           None None),
     advance Count (advance Select w)).
Proof.
  intros granted quiet first positive matching count.
  assert (answers 1 (advance Select w)) as quiet' by (now apply answers_advance).
  apply try_catch_ok. unfold getPaginatedBlogs_try.
  erewrite bind_ok by (now apply validatePermission_granted). simpl.
  erewrite bind_ok by (apply (select_page_answers 1); [assumption|lia|nia]).
  erewrite bind_ok by (now apply (select_count_answers 0)).
  simpl. fold matching. fold count. rewrite ceiling_of_fraction by lia.
  reflexivity.
Qed.

Lemma page_window_length page size (ordered : list BlogPost) :
  1 <= page -> 1 <= size ->
  Z.of_nat (length (page_window page size ordered))
  = Z.max 0 (Z.min size (Z.of_nat (length ordered) - (page - 1) * size)).
Proof.
  intros first positive. unfold page_window.
  rewrite length_take, length_drop. nia.
Qed.

Lemma page_window_lookup size (ordered : list BlogPost) (i : nat) r :
  1 <= size -> ordered !! i = Some r ->
  page_window (Z.of_nat (i / Z.to_nat size) + 1) size ordered
    !! (i mod Z.to_nat size)%nat = Some r.
Proof.
  intros positive at_i. unfold page_window.
  assert (0 < Z.to_nat size)%nat as pos by lia.
  rewrite lookup_take_lt by (apply Nat.mod_upper_bound; lia).
  rewrite lookup_drop.
  replace (Z.to_nat ((Z.of_nat (i / Z.to_nat size) + 1 - 1) * size))
    with (Z.to_nat size * (i / Z.to_nat size))%nat by nia.
  now rewrite <- Nat.div_mod_eq.
Qed.

(** X12.  For a page and a page size of at least 1: the page holds
    min(pageSize, totalCount - (page - 1) * pageSize) rows and none when
    that is negative; so every page before the last is full, the last
    page holds the remaining rows (between 1 and pageSize of them), and a
    page after the last is empty. *)
Theorem page_sizes
    (env : environment) (page size : Z) (search : option string) (w : world) :
  hasPermission env "manage_blog_posts" = Ok true ->
  answers 2 w -> 1 <= page -> 1 <= size ->
  let count := Z.of_nat (length (where_clause (searchCondition search) (blogPosts w))) in
  let pages := (count + size - 1) / size in
  exists d,
    page_of (getPaginatedBlogs env page size search w) = Some d
    /\ totalCount (pagination d) = count
    /\ totalPages (pagination d) = Js.of_Z pages
    /\ Z.of_nat (length (blogs d)) = Z.max 0 (Z.min size (count - (page - 1) * size))
    /\ (page < pages -> Z.of_nat (length (blogs d)) = size)
    /\ (page = pages -> Z.of_nat (length (blogs d)) = count - (pages - 1) * size
                        /\ 1 <= Z.of_nat (length (blogs d)) <= size)
    /\ (pages < page -> blogs d = []).
Proof.
  intros granted quiet first positive count pages.
  eexists. unfold page_of.
  rewrite (getPaginatedBlogs_answers env page size search w granted quiet first positive).
  simpl. split; [reflexivity|]. split; [reflexivity|]. split; [reflexivity|].
  assert (Z.of_nat (length (page_window page size
                              (merge_sort newer_first
                                 (where_clause (searchCondition search) (blogPosts w)))))
          = Z.max 0 (Z.min size (count - (page - 1) * size))) as len.
  { rewrite page_window_length by assumption.
    now rewrite (Permutation_length (merge_sort_Permutation newer_first _)). }
  assert ((pages - 1) * size < count <= pages * size) as bounds.
  { subst pages. pose proof (Z.div_mod (count + size - 1) size ltac:(lia)).
    pose proof (Z.mod_pos_bound (count + size - 1) size ltac:(lia)). nia. }
  cbn [blogs]. repeat apply conj.
  - exact len.
  - intros before. rewrite len. nia.
  - intros last_page. rewrite len. nia.
  - intros beyond. apply length_zero_iff_nil. nia.
Qed.

Lemma page_sizes_witness :
  let w := Samples.table [Samples.hello; Samples.world_post; Samples.tips] in
  hasPermission Samples.editor "manage_blog_posts" = Ok true
  /\ answers 2 w /\ 1 <= 2 /\ 1 <= 2
  /\ exists d,
       page_of (getPaginatedBlogs Samples.editor 2 2 None w) = Some d
       /\ totalCount (pagination d) = 3
       /\ Z.of_nat (length (blogs d)) = 1.
Proof.
  intros w.
  assert (answers 2 w) as quiet by constructor.
  split; [reflexivity|]. split; [exact quiet|]. split; [lia|]. split; [lia|].
  destruct (page_sizes Samples.editor 2 2 None w eq_refl quiet ltac:(lia) ltac:(lia))
    as (d & listed & count & _ & len & _).
  exists d. split; [exact listed|]. split; [exact count|]. exact len.
Defined.

Lemma descending_order_unique (l1 l2 : list BlogPost) :
  NoDup (createdAt <$> l1) -> l1 ≡ₚ l2 ->
  StronglySorted newer_first l1 -> StronglySorted newer_first l2 -> l1 = l2.
Proof.
  revert l2. induction l1 as [|x l1 IH]; intros l2 distinct same sorted1 sorted2.
  - now apply Permutation_nil_l in same.
  - destruct l2 as [|y l2]; [apply Permutation_nil_r in same; discriminate|].
    rewrite fmap_cons in distinct. apply NoDup_cons in distinct as [fresh distinct].
    apply StronglySorted_inv in sorted1 as [sorted1 first1].
    apply StronglySorted_inv in sorted2 as [sorted2 first2].
    assert (y = x) as ->.
    { assert (y ∈ x :: l1) as iny by (rewrite same; apply list_elem_of_here).
      assert (x ∈ y :: l2) as inx by (rewrite <- same; apply list_elem_of_here).
      apply elem_of_cons in iny as [eq|iny]; [exact eq|].
      exfalso. apply fresh.
      apply elem_of_cons in inx as [eq|inx]; [now subst; apply list_elem_of_fmap; eauto|].
      pose proof (proj1 (Forall_forall _ _) first1 y iny) as older.
      pose proof (proj1 (Forall_forall _ _) first2 x inx) as newer.
      unfold newer_first in older, newer.
      apply list_elem_of_fmap. exists y. split; [lia|exact iny]. }
    f_equal. apply IH; try assumption. now apply Permutation_cons_inv in same.
Qed.

(** X13.  When the matching rows have distinct creation times, there is
    one way to list them by descending creation time, so every page is a
    window of the same listing whatever the store does with rows of equal
    age; and every matching row is then listed on one of the pages 1 to
    totalPages.  (With equal creation times the order among such rows is
    the store's choice for each query, and nothing is stated.) *)
Theorem every_match_is_on_a_page
    (env : environment) (size : Z) (search : option string) (w : world) (r : BlogPost) :
  hasPermission env "manage_blog_posts" = Ok true ->
  answers 2 w -> 1 <= size ->
  NoDup (createdAt <$> where_clause (searchCondition search) (blogPosts w)) ->
  r ∈ where_clause (searchCondition search) (blogPosts w) ->
  let matching := where_clause (searchCondition search) (blogPosts w) in
  let count := Z.of_nat (length matching) in
  (forall listing,
     listing ≡ₚ matching -> StronglySorted newer_first listing ->
     forall page d,
       1 <= page ->
       page_of (getPaginatedBlogs env page size search w) = Some d ->
       blogs d = page_window page size listing)
  /\ exists page d,
       1 <= page <= (count + size - 1) / size
       /\ page_of (getPaginatedBlogs env page size search w) = Some d
       /\ r ∈ blogs d.
Proof.
  intros granted quiet positive distinct matches matching count. split.
  - intros listing same sorted page d first listed.
    assert (listing = merge_sort newer_first matching) as ->.
    { apply descending_order_unique.
      - now rewrite same.
      - now rewrite same, merge_sort_Permutation.
      - exact sorted.
      - apply StronglySorted_merge_sort; apply _. }
    unfold page_of in listed.
    rewrite (getPaginatedBlogs_answers env page size search w granted quiet)
      in listed by lia.
    injection listed as <-. reflexivity.
  - subst matching.
    rewrite <- (merge_sort_Permutation newer_first) in matches.
    apply list_elem_of_lookup in matches as (i & at_i).
    pose proof (lookup_lt_Some _ _ _ at_i) as bound.
    rewrite (Permutation_length (merge_sort_Permutation newer_first _)) in bound.
    exists (Z.of_nat (i / Z.to_nat size) + 1). eexists. split; [|split].
    + split; [lia|].
      assert (Z.of_nat (i / Z.to_nat size) * size <= Z.of_nat i) as below.
      { pose proof (Nat.div_mod_eq i (Z.to_nat size)). nia. }
      pose proof (Z.div_mod (count + size - 1) size ltac:(lia)).
      pose proof (Z.mod_pos_bound (count + size - 1) size ltac:(lia)).
      subst count. nia.
    + unfold page_of.
      rewrite (getPaginatedBlogs_answers env _ size search w granted quiet); [|lia|lia].
      reflexivity.
    + simpl. apply list_elem_of_lookup. eexists.
      now apply page_window_lookup.
Qed.

Lemma every_match_is_on_a_page_witness :
  let w := Samples.table [Samples.hello; Samples.world_post; Samples.tips] in
  hasPermission Samples.editor "manage_blog_posts" = Ok true
  /\ answers 2 w /\ 1 <= 2
  /\ NoDup (createdAt <$> where_clause (searchCondition None) (blogPosts w))
  /\ Samples.hello ∈ where_clause (searchCondition None) (blogPosts w)
  /\ exists page d,
       1 <= page <= (3 + 2 - 1) / 2
       /\ page_of (getPaginatedBlogs Samples.editor page 2 None w) = Some d
       /\ Samples.hello ∈ blogs d.
Proof.
  intros w.
  assert (answers 2 w) as quiet by constructor.
  assert (NoDup (createdAt <$> where_clause (searchCondition None) (blogPosts w)))
    as distinct.
  { apply (NoDup_cons_2 (createdAt Samples.hello)
             [createdAt Samples.world_post; createdAt Samples.tips]).
    - intros H. apply elem_of_cons in H as [H|H]; [discriminate|].
      apply list_elem_of_singleton in H. discriminate.
    - apply (NoDup_cons_2 (createdAt Samples.world_post) [createdAt Samples.tips]);
        [|apply NoDup_singleton].
      intros H. apply list_elem_of_singleton in H. discriminate. }
  assert (Samples.hello ∈ where_clause (searchCondition None) (blogPosts w)) as listed
    by apply list_elem_of_here.
  split; [reflexivity|]. split; [exact quiet|]. split; [lia|].
  split; [exact distinct|]. split; [exact listed|].
  exact (proj2 (every_match_is_on_a_page Samples.editor 2 None w Samples.hello
                  eq_refl quiet ltac:(lia) distinct listed)).
Defined.

Lemma split_slash_free ext : slash_free ext = true -> Js.split_slash ext = [ext].
Proof.
  induction ext as [|c ext IH]; [reflexivity|].
  simpl. intros ok. apply andb_true_iff in ok as [not_slash ok].
  apply negb_true_iff in not_slash. rewrite not_slash, IH by assumption. reflexivity.
Qed.

Lemma split_slash_image ext :
  Js.split_slash ("image/" +:+ ext) = "image" :: Js.split_slash ext.
Proof.
  change ("image/" +:+ ext)
    with (String "i" (String "m" (String "a" (String "g" (String "e" (String "/" ext)))))).
  cbn. reflexivity.
Qed.

Lemma startsWith_image ext : Js.startsWith ("image/" +:+ ext) "image/" = true.
Proof.
  change ("image/" +:+ ext)
    with (String "i" (String "m" (String "a" (String "g" (String "e" (String "/" ext)))))).
  unfold Js.startsWith. vm_compute. now destruct ext.
Qed.

Lemma storage_key_extension u ext :
  slash_free ext = true ->
  storage_key u ("image/" +:+ ext) = "blog-images/" +:+ u +:+ "." +:+ ext.
Proof.
  intros ok. unfold storage_key.
  now rewrite split_slash_image, split_slash_free.
Qed.

Lemma gt_of_Z (a b : Z) : Js.gt (Js.of_Z a) (Js.of_Z b) = (b <? a).
Proof.
  unfold Js.gt, Js.of_Z, Js.lt, Qle_bool, inject_Z. cbn [Qnum Qden].
  rewrite !Z.mul_1_r. symmetry. apply Z.ltb_antisym.
Qed.

Lemma generatePresignedUrl_signs env fileType fileSize w :
  hasPermission env "manage_blog_posts" = Ok true ->
  Js.startsWith fileType "image/" = true ->
  Js.gt fileSize (Js.of_Z MAX_FILE_SIZE) = false ->
  let key := storage_key (uuid env) fileType in
  let w' := record (GetSignedUrl key 300) (record Uuid w) in
  generatePresignedUrl env fileType fileSize w
  = match getSignedUrl env (mkPut (S3_BUCKET_NAME env) key fileType fileSize) 300 with
    | Ok url =>
        (Ok (mkResult true
               (Some (mkUrls url
                        (Js.interpolate (NEXT_PUBLIC_S3_DOMAIN env) +:+ "/" +:+ key)))
               None None), w')
    | Throw e => (Ok (handleDbError e), w')
    end.
Proof.
  intros granted image small key w'.
  unfold generatePresignedUrl, try_catch, generatePresignedUrl_try, emit, lift,
    mbind, M_bind, mret, M_ret.
  rewrite granted. cbn [negb]. rewrite image. cbn [negb]. rewrite small.
  fold key. now destruct (getSignedUrl env _ 300).
Qed.

(** X14.  For the file type image/<extension>, with an extension
    without a slash (the empty one included), the storage key is
    blog-images/<uuid>.<extension>.  When the signer answers, the action
    returns its URL and the public URL <domain>/<key>; when the signer
    throws, the action returns what [handleDbError] makes of the error.
    Either way the identifier draw and the signing request are the only
    things recorded. *)
Theorem upload_of_an_image_type
    (env : environment) (extension : string) (fileSize : Z) (w : world) :
  hasPermission env "manage_blog_posts" = Ok true ->
  fileSize <= 5242880 ->
  slash_free extension = true ->
  let fileType := "image/" +:+ extension in
  let key := "blog-images/" +:+ uuid env +:+ "." +:+ extension in
  let command := mkPut (S3_BUCKET_NAME env) key fileType (Js.of_Z fileSize) in
  let run := generatePresignedUrl env fileType (Js.of_Z fileSize) w in
  (forall url,
     getSignedUrl env command 300 = Ok url ->
     fst run
     = Ok (mkResult true
             (Some (mkUrls url
                      (Js.interpolate (NEXT_PUBLIC_S3_DOMAIN env) +:+ "/" +:+ key)))
             None None))
  /\ (forall e,
        getSignedUrl env command 300 = Throw e ->
        fst run = Ok (handleDbError e))
  /\ trace (snd run) = (trace w ++ [Uuid; GetSignedUrl key 300])%list.
Proof.
  intros granted small ok fileType key command run. subst run command.
  rewrite (generatePresignedUrl_signs env fileType (Js.of_Z fileSize) w granted
             (startsWith_image extension))
    by (rewrite gt_of_Z, MAX_FILE_SIZE_bytes; apply Z.ltb_ge; lia).
  subst fileType. rewrite storage_key_extension by assumption. fold key.
  repeat apply conj.
  - intros url ->. reflexivity.
  - intros e ->. reflexivity.
  - destruct (getSignedUrl env _ 300); simpl; now rewrite <- app_assoc.
Qed.

Lemma upload_of_an_image_type_witness :
  hasPermission Samples.editor "manage_blog_posts" = Ok true
  /\ 4096 <= 5242880
  /\ slash_free "svg+xml" = true
  /\ getSignedUrl Samples.editor
       (mkPut (S3_BUCKET_NAME Samples.editor) "blog-images/6f1c.svg+xml"
          "image/svg+xml" (Js.of_Z 4096)) 300
     = Ok "https://s3/blog-images/6f1c.svg+xml?signed"
  /\ fst (generatePresignedUrl Samples.editor "image/svg+xml" (Js.of_Z 4096)
            (Samples.table []))
     = Ok (mkResult true
             (Some (mkUrls "https://s3/blog-images/6f1c.svg+xml?signed"
                      "https://cdn.example/blog-images/6f1c.svg+xml"))
             None None).
Proof.
  split; [reflexivity|]. split; [lia|]. split; [reflexivity|]. split; [reflexivity|].
  exact (proj1 (upload_of_an_image_type Samples.editor "svg+xml" 4096 (Samples.table [])
                  eq_refl ltac:(lia) eq_refl)
           "https://s3/blog-images/6f1c.svg+xml?signed" eq_refl).
Defined.

(** ** The two dialogs: searches, failures, weights, initials *)


Lemma upper_of_upper c : Js.upper_ascii (Js.upper_ascii c) = Js.upper_ascii c.
Proof. destruct c as [[] [] [] [] [] [] [] []]; reflexivity. Qed.

Lemma toUpperCase_idempotent s : Js.toUpperCase (Js.toUpperCase s) = Js.toUpperCase s.
Proof. induction s as [|c s IH]; simpl; [reflexivity|]. now rewrite upper_of_upper, IH. Qed.

Lemma event_matches_true query event :
  AttachEventDialog.event_matches query event = true
  <-> (Js.includes (Js.toLowerCase (AttachEventDialog.title event))
         (Js.toLowerCase query) = true
       \/ (exists text,
             AttachEventDialog.description event = Some text
             /\ Js.includes (Js.toLowerCase text) (Js.toLowerCase query) = true)
       \/ Js.includes (Js.toLowerCase (AttachEventDialog.type event))
            (Js.toLowerCase query) = true).
Proof.
  unfold AttachEventDialog.event_matches. rewrite !orb_true_iff.
  destruct (AttachEventDialog.description event) as [text|]; split.
  - intros [[t|d]|y]; [now left| right; left; now exists text | now right; right].
  - intros [t|[(text' & eq & inc)|y]]; [now left; left| |now right].
    left. right. injection eq as ->. exact inc.
  - intros [[t|d]|y]; [now left|discriminate|now right; right].
  - intros [t|[(text' & eq & inc)|y]]; [now left; left|discriminate|now right].
Qed.

(** X15.  When the search of the event-attach dialog settles, the dialog
    stops searching and the query and the weights are untouched.  A
    successful answer shows, in the order of the answer, exactly those of
    its events whose title, description or type contains the query,
    letter case aside, and raises no notification; any other outcome
    empties the list and ends with an error notification. *)
Theorem search_answer_shows_only_matches
    (query : string)
    (answer : Js.settled (AttachEventDialog.response (list AttachEventDialog.Event)))
    (st : AttachEventDialog.state) :
  let run := AttachEventDialog.handleSearch_settled query answer st in
  AttachEventDialog.isSearching (fst run) = false
  /\ AttachEventDialog.searchQuery (fst run) = AttachEventDialog.searchQuery st
  /\ AttachEventDialog.eventWeights (fst run) = AttachEventDialog.eventWeights st
  /\ (forall r events,
        answer = Js.Resolved r -> AttachEventDialog.success r = true ->
        AttachEventDialog.data r = Some events ->
        snd run = []
        /\ AttachEventDialog.searchResults (fst run) `sublist_of` events
        /\ forall event,
             event ∈ AttachEventDialog.searchResults (fst run)
             <-> (event ∈ events
                  /\ (Js.includes (Js.toLowerCase (AttachEventDialog.title event))
                        (Js.toLowerCase query) = true
                      \/ (exists text,
                            AttachEventDialog.description event = Some text
                            /\ Js.includes (Js.toLowerCase text)
                                 (Js.toLowerCase query) = true)
                      \/ Js.includes (Js.toLowerCase (AttachEventDialog.type event))
                           (Js.toLowerCase query) = true)))
  /\ (answer = Js.Rejected
      \/ (exists r, answer = Js.Resolved r
                    /\ (AttachEventDialog.success r = false
                        \/ AttachEventDialog.data r = None)) ->
      AttachEventDialog.searchResults (fst run) = []
      /\ exists msg, last (snd run) = Some (AttachEventDialog.toast_error msg)).
Proof.
  intros run. subst run. repeat apply conj.
  - destruct answer as [r|]; [|reflexivity].
    simpl. now destruct (AttachEventDialog.success r), (AttachEventDialog.data r).
  - destruct answer as [r|]; [|reflexivity].
    simpl. now destruct (AttachEventDialog.success r), (AttachEventDialog.data r).
  - destruct answer as [r|]; [|reflexivity].
    simpl. now destruct (AttachEventDialog.success r), (AttachEventDialog.data r).
  - intros r events -> ok given. simpl. rewrite ok, given. simpl.
    split; [reflexivity|]. split.
    + clear. induction events as [|e events IH]; simpl; [constructor|].
      destruct (AttachEventDialog.event_matches query e); now constructor.
    + intros event. rewrite elem_of_filter_bool, event_matches_true. tauto.
  - intros [->|(r & -> & [bad|nothing])]; simpl.
    + split; [reflexivity|]. eauto.
    + rewrite bad. split; [reflexivity|]. eauto.
    + rewrite nothing. destruct (AttachEventDialog.success r); split; try reflexivity; eauto.
Qed.

Lemma search_answer_shows_only_matches_witness :
  let r := AttachEventDialog.mkResponse true
             (Some [Samples.contest; Samples.lecture]) None in
  let st := AttachEventDialog.setIsSearching true (Samples.attach_dialog "CS" [] ∅) in
  AttachEventDialog.success r = true
  /\ AttachEventDialog.data r = Some [Samples.contest; Samples.lecture]
  /\ snd (AttachEventDialog.handleSearch_settled "CS" (Js.Resolved r) st) = [].
Proof.
  intros r st. split; [reflexivity|]. split; [reflexivity|].
  exact (proj1 (proj1 (proj2 (proj2 (proj2
           (search_answer_shows_only_matches "CS" (Js.Resolved r) st))))
           r [Samples.contest; Samples.lecture] eq_refl eq_refl eq_refl)).
Defined.

(** X16.  An attach request that fails or throws changes nothing but the
    attaching marker, which is cleared: results, weights and query stay,
    the callback is not called, no search is sent.  The notification
    carries the error of the answer, "Failed to attach event" when there
    is none, or "An unexpected error occurred" when the request threw. *)
Theorem failed_attach_keeps_the_list
    (ranklistId : Z) (onSuccess_given : bool) (parseFloat : string -> Js.number)
    (D : Type) (eventId : Z)
    (answer : Js.settled (AttachEventDialog.response D))
    (st : AttachEventDialog.state) :
  Js.in_unit_interval (parseFloat (AttachEventDialog.weight_of st eventId)) = true ->
  let run :=
    AttachEventDialog.handleAttachEvent ranklistId onSuccess_given parseFloat
      eventId answer st in
  let request :=
    AttachEventDialog.attachEventToRanklist ranklistId eventId
      (parseFloat (AttachEventDialog.weight_of st eventId)) in
  AttachEventDialog.isAttaching (fst run) = None
  /\ (answer = Js.Rejected ->
      fst run = AttachEventDialog.setIsAttaching None st
      /\ snd run = [request; AttachEventDialog.console_error;
                    AttachEventDialog.toast_error "An unexpected error occurred"])
  /\ (forall r, answer = Js.Resolved r -> AttachEventDialog.success r = false ->
      fst run = AttachEventDialog.setIsAttaching None st
      /\ (forall msg, AttachEventDialog.error r = Some msg -> msg <> EmptyString ->
          snd run = [request; AttachEventDialog.toast_error msg])
      /\ (AttachEventDialog.error r = None
          \/ AttachEventDialog.error r = Some EmptyString ->
          snd run = [request; AttachEventDialog.toast_error "Failed to attach event"])).
Proof.
  intros inside run request. subst run request.
  unfold AttachEventDialog.handleAttachEvent.
  rewrite weight_check_rejects, inside. simpl. repeat apply conj.
  - reflexivity.
  - intros ->. split; reflexivity.
  - intros r -> bad. rewrite bad. simpl. repeat apply conj.
    + reflexivity.
    + intros msg -> nonempty. unfold Js.truthy.
      apply String.eqb_neq in nonempty. now rewrite nonempty.
    + intros [-> | ->]; reflexivity.
Qed.

Lemma failed_attach_keeps_the_list_witness :
  let st := Samples.attach_dialog "cs" [Samples.contest] {[ 11 := "0.5" ]} in
  Js.in_unit_interval (Samples.parseFloat_table (AttachEventDialog.weight_of st 11))
  = true
  /\ AttachEventDialog.isAttaching
       (fst (AttachEventDialog.handleAttachEvent 7 true Samples.parseFloat_table 11
               (@Js.Rejected (AttachEventDialog.response unit)) st)) = None.
Proof.
  intros st. split; [reflexivity|].
  exact (proj1 (failed_attach_keeps_the_list 7 true Samples.parseFloat_table unit 11
                  Js.Rejected st eq_refl)).
Defined.

(** X17.  [handleAddUser] always sends the add request and ends with the
    adding marker cleared.  When the request fails or throws the list
    stays as it is and nothing else happens but the notification: the
    error of the answer, "Failed to " followed by the button label in
    lower case when there is none, or "An unexpected error occurred"
    when the request threw. *)
Theorem failed_add_keeps_the_list
    (D : Type) (successMessage buttonLabel : string) (onUserAdded_given : bool)
    (userId : string)
    (answer : Js.settled (UserSearchDialog.AddUserResponse D))
    (st : UserSearchDialog.state) :
  let run :=
    UserSearchDialog.handleAddUser successMessage buttonLabel onUserAdded_given
      userId answer st in
  UserSearchDialog.isAdding (fst run) = None
  /\ UserSearchDialog.addUser userId ∈ snd run
  /\ (answer = Js.Rejected ->
      fst run = UserSearchDialog.setIsAdding None st
      /\ snd run = [UserSearchDialog.addUser userId; UserSearchDialog.console_error;
                    UserSearchDialog.toast_error "An unexpected error occurred"])
  /\ (forall r, answer = Js.Resolved r -> UserSearchDialog.success r = false ->
      fst run = UserSearchDialog.setIsAdding None st
      /\ (forall msg, UserSearchDialog.error r = Some msg -> msg <> EmptyString ->
          snd run = [UserSearchDialog.addUser userId; UserSearchDialog.toast_error msg])
      /\ (UserSearchDialog.error r = None
          \/ UserSearchDialog.error r = Some EmptyString ->
          snd run = [UserSearchDialog.addUser userId;
                     UserSearchDialog.toast_error
                       ("Failed to " +:+ Js.toLowerCase buttonLabel)])).
Proof.
  intros run. subst run. unfold UserSearchDialog.handleAddUser. simpl.
  repeat apply conj.
  - reflexivity.
  - apply list_elem_of_here.
  - intros ->. split; reflexivity.
  - intros r -> bad. rewrite bad. simpl. repeat apply conj.
    + reflexivity.
    + intros msg -> nonempty. unfold Js.truthy.
      apply String.eqb_neq in nonempty. now rewrite nonempty.
    + intros [-> | ->]; reflexivity.
Qed.

Lemma failed_add_keeps_the_list_witness :
  let st := Samples.user_dialog "an" [Samples.ann] in
  let answer := @Js.Rejected (UserSearchDialog.AddUserResponse unit) in
  answer = Js.Rejected
  /\ fst (UserSearchDialog.handleAddUser "Member added" "Add" true "u1" answer st)
     = UserSearchDialog.setIsAdding None st.
Proof.
  intros st answer. split; [reflexivity|].
  exact (proj1 (proj1 (proj2 (proj2
           (failed_add_keeps_the_list unit "Member added" "Add" true "u1" answer st)))
           eq_refl)).
Defined.

(** X18.  A weight typed for an event is what that event reads
    afterwards (the default "1.0" for an emptied input), the weights of
    the other events, the results and the query are untouched, and
    opening the dialog puts every weight back to "1.0" and empties the
    results and the query. *)
Theorem weights_are_kept_per_event (st : AttachEventDialog.state) (eventId : Z)
    (typed : string) :
  let st' := AttachEventDialog.updateEventWeight eventId typed st in
  AttachEventDialog.weight_of st' eventId
  = (if String.eqb typed EmptyString then "1.0" else typed)
  /\ (forall other, other <> eventId ->
      AttachEventDialog.weight_of st' other = AttachEventDialog.weight_of st other)
  /\ AttachEventDialog.searchResults st' = AttachEventDialog.searchResults st
  /\ AttachEventDialog.searchQuery st' = AttachEventDialog.searchQuery st
  /\ (AttachEventDialog.isOpen st = true ->
      (forall any, AttachEventDialog.weight_of (AttachEventDialog.opened_effect st') any
                   = "1.0")
      /\ AttachEventDialog.searchResults (AttachEventDialog.opened_effect st') = []
      /\ AttachEventDialog.searchQuery (AttachEventDialog.opened_effect st')
         = EmptyString).
Proof.
  intros st'. subst st'. repeat apply conj.
  - unfold AttachEventDialog.weight_of, AttachEventDialog.updateEventWeight. simpl.
    rewrite lookup_insert_eq. unfold Js.truthy. now destruct (String.eqb typed EmptyString).
  - intros other ne. unfold AttachEventDialog.weight_of,
      AttachEventDialog.updateEventWeight. simpl.
    now rewrite lookup_insert_ne.
  - reflexivity.
  - reflexivity.
  - intros opened. unfold AttachEventDialog.opened_effect. simpl. rewrite opened.
    split; [|split; reflexivity].
    intros any. unfold AttachEventDialog.weight_of. simpl.
    now rewrite lookup_empty.
Qed.

Lemma weights_are_kept_per_event_witness :
  let st := Samples.attach_dialog "cs" [Samples.contest; Samples.lecture]
              {[ 12 := "0.5" ]} in
  12 <> 11
  /\ AttachEventDialog.weight_of (AttachEventDialog.updateEventWeight 11 "1.5" st) 12
     = AttachEventDialog.weight_of st 12.
Proof.
  intros st.
  assert (12 <> 11) as other by discriminate.
  split; [exact other|].
  exact (proj1 (proj2 (weights_are_kept_per_event st 11 "1.5")) 12 other).
Defined.



(** X20.  In the event-attach dialog a search request leaves only for a
    query with a trimmed length of at least 2, from whichever of the three
    places it is sent: the debounced effect, the Enter key (which sends
    the current query at once and prevents the default action, and does
    nothing for another key or a shorter query), and the refresh after a
    successful attach (only when one result was left). *)
Theorem searches_need_two_characters
    (ranklistId : Z) (st : AttachEventDialog.state) :
  (AttachEventDialog.getAvailableEvents ranklistId
     ∈ snd (AttachEventDialog.debounced_effect ranklistId st) ->
   2 <= Js.length (Js.trim (AttachEventDialog.debouncedSearch st)))
  /\ (forall key,
        let pressed := AttachEventDialog.handleKeyDown ranklistId key st in
        (key = "Enter" /\ 2 <= Js.length (Js.trim (AttachEventDialog.searchQuery st)) ->
         snd (fst pressed) = [AttachEventDialog.getAvailableEvents ranklistId]
         /\ AttachEventDialog.isSearching (fst (fst pressed)) = true
         /\ snd pressed = true)
        /\ (key <> "Enter" \/ Js.length (Js.trim (AttachEventDialog.searchQuery st)) < 2 ->
            pressed = ((st, []), false)))
  /\ (forall onSuccess_given parseFloat D eventId
             (answer : Js.settled (AttachEventDialog.response D)),
        AttachEventDialog.getAvailableEvents ranklistId
          ∈ snd (AttachEventDialog.handleAttachEvent ranklistId onSuccess_given
                   parseFloat eventId answer st) ->
        2 <= Js.length (Js.trim (AttachEventDialog.searchQuery st))
        /\ length (AttachEventDialog.searchResults st) = 1%nat).
Proof.
  repeat apply conj.
  - unfold AttachEventDialog.debounced_effect. rewrite debounce_guard.
    destruct (2 <=? Js.length (Js.trim (AttachEventDialog.debouncedSearch st))) eqn:long.
    + intros _. now apply Z.leb_le.
    + simpl. intros H. now apply elem_of_nil in H.
  - intros key pressed. subst pressed. unfold AttachEventDialog.handleKeyDown. split.
    + intros [-> long]. simpl. rewrite (proj2 (Z.leb_le _ _) long).
      unfold AttachEventDialog.handleSearch. rewrite handleSearch_guard by assumption.
      repeat split.
    + intros [other|short].
      * apply String.eqb_neq in other. now rewrite other.
      * rewrite (proj2 (Z.leb_gt _ _) short). now rewrite andb_false_r.
  - intros onSuccess_given parseFloat D eventId answer.
    unfold AttachEventDialog.handleAttachEvent.
    destruct (Js.isNaN _ || _ || _).
    { simpl. intros H. apply list_elem_of_singleton in H. discriminate. }
    destruct answer as [r|]; simpl.
    2:{ rewrite !elem_of_cons, elem_of_nil. intros [H|[H|[H|[]]]]; discriminate. }
    destruct (AttachEventDialog.success r); simpl.
    2:{ rewrite !elem_of_cons, elem_of_nil. intros [H|[H|[]]]; discriminate. }
    destruct ((length (AttachEventDialog.searchResults st) =? 1)%nat
              && (2 <=? Js.length (Js.trim (AttachEventDialog.searchQuery st))))%bool
      eqn:refresh.
    + apply andb_true_iff in refresh as [sole long]. intros _.
      split; [now apply Z.leb_le|now apply Nat.eqb_eq].
    + simpl. rewrite !elem_of_cons. intros [H|[H|H]]; try discriminate.
      destruct onSuccess_given; [|now apply elem_of_nil in H].
      apply list_elem_of_singleton in H. discriminate.
Qed.

Lemma searches_need_two_characters_witness :
  let st := Samples.attach_dialog "cs" [] ∅ in
  ("Enter" = "Enter" /\ 2 <= Js.length (Js.trim (AttachEventDialog.searchQuery st)))
  /\ snd (fst (AttachEventDialog.handleKeyDown 7 "Enter" st))
     = [AttachEventDialog.getAvailableEvents 7].
Proof.
  intros st.
  assert ("Enter" = "Enter"
          /\ 2 <= Js.length (Js.trim (AttachEventDialog.searchQuery st))) as pressed
    by (split; [reflexivity|vm_compute; discriminate]).
  split; [exact pressed|].
  exact (proj1 (proj1 (proj1 (proj2 (searches_need_two_characters 7 st)) "Enter")
                  pressed)).
Defined.

Lemma slice_to_length n s : (String.length (Js.slice_to n s) <= n)%nat.
Proof.
  revert s. induction n as [|n IH]; intros [|c s]; simpl; try lia.
  specialize (IH s). lia.
Qed.

Lemma toUpperCase_slice_to n s :
  Js.toUpperCase (Js.slice_to n s) = Js.slice_to n (Js.toUpperCase s).
Proof.
  revert s. induction n as [|n IH]; intros [|c s]; simpl; try reflexivity.
  now rewrite IH.
Qed.

Lemma split_on_alone sep s : Js.free_of sep s = true -> Js.split_on sep s = [s].
Proof.
  induction s as [|c s IH]; [reflexivity|].
  simpl. intros ok. apply andb_true_iff in ok as [other ok].
  apply negb_true_iff in other. now rewrite other, IH.
Qed.

Lemma split_on_first sep a b :
  Js.free_of sep a = true ->
  Js.split_on sep (a +:+ String sep b) = a :: Js.split_on sep b.
Proof.
  induction a as [|c a IH]; intros ok.
  - change (EmptyString +:+ String sep b) with (String sep b).
    simpl. now rewrite Ascii.eqb_refl.
  - simpl in ok. apply andb_true_iff in ok as [other ok].
    apply negb_true_iff in other.
    change (String c a +:+ String sep b) with (String c (a +:+ String sep b)).
    simpl. now rewrite other, IH.
Qed.

Lemma split_on_head sep c rest :
  Ascii.eqb c sep = false ->
  exists piece pieces, Js.split_on sep (String c rest) = String c piece :: pieces.
Proof.
  intros other. simpl. rewrite other.
  destruct (Js.split_on sep rest) as [|piece pieces]; eauto.
Qed.

(** X21.  [getInitials] returns at most two characters, none of them a
    lower-case letter a-z; a leading blank changes nothing.  For a name
    of ASCII characters, a single word gives its first letter in upper
    case, and two or more words give the first letters of the first two
    in upper case.  (Outside ASCII the upper case of a first letter is
    Unicode's, which may be another character or several.) *)
Theorem getInitials_facts (name : string) :
  (String.length (UserSearchDialog.getInitials name) <= 2)%nat
  /\ Js.toUpperCase (UserSearchDialog.getInitials name) = UserSearchDialog.getInitials name
  /\ UserSearchDialog.getInitials (" " +:+ name) = UserSearchDialog.getInitials name
  /\ (forall c word,
        Js.ascii_only name = true ->
        name = String c word -> Js.free_of " " name = true ->
        UserSearchDialog.getInitials name = String (Js.upper_ascii c) EmptyString)
  /\ (forall c1 first c2 rest,
        Js.ascii_only name = true ->
        name = String c1 first +:+ " " +:+ String c2 rest ->
        Js.free_of " " (String c1 first) = true -> c2 <> " "%char ->
        UserSearchDialog.getInitials name
        = String (Js.upper_ascii c1) (String (Js.upper_ascii c2) EmptyString)).
Proof.
  unfold UserSearchDialog.getInitials. repeat apply conj.
  - apply slice_to_length.
  - now rewrite toUpperCase_slice_to, toUpperCase_idempotent.
  - change (" " +:+ name) with (String " " name). simpl Js.split_on.
    reflexivity.
  - intros c word _ -> ok. now rewrite split_on_alone.
  - intros c1 first c2 rest _ -> ok other.
    change (" " +:+ String c2 rest) with (String " " (String c2 rest)).
    rewrite split_on_first by assumption.
    destruct (split_on_head " " c2 rest) as (piece & pieces & ->).
    { now apply Ascii.eqb_neq. }
    reflexivity.
Qed.

Lemma getInitials_facts_witness :
  Js.ascii_only "ann lee" = true
  /\ "ann lee" = String "a" "nn" +:+ " " +:+ String "l" "ee"
  /\ Js.free_of " " (String "a" "nn") = true
  /\ "l"%char <> " "%char
  /\ UserSearchDialog.getInitials "ann lee" = "AL".
Proof.
  assert ("l"%char <> " "%char) as other by discriminate.
  split; [reflexivity|]. split; [reflexivity|]. split; [reflexivity|].
  split; [exact other|].
  exact (proj2 (proj2 (proj2 (proj2 (getInitials_facts "ann lee"))))
           "a"%char "nn" "l"%char "ee" eq_refl eq_refl eq_refl other).
Defined.

(** X22.  In the user-search dialog the debounced effect and the Enter
    key send a search only for a query with a trimmed length of at least
    2, and a shorter debounced query changes nothing.  The refresh after a
    successful add goes through the guard of [handleSearch] alone: it
    sends the debounced query when one result was left, the trimmed query
    is not empty and the raw query has at least 2 characters. *)
Theorem user_searches_and_their_guards
    (D : Type) (st : UserSearchDialog.state) :
  (forall q,
     UserSearchDialog.searchUsers q ∈ snd (@UserSearchDialog.debounced_effect D st) ->
     q = UserSearchDialog.debouncedSearch st /\ 2 <= Js.length (Js.trim q))
  /\ (Js.length (Js.trim (UserSearchDialog.debouncedSearch st)) < 2 ->
      @UserSearchDialog.debounced_effect D st = (st, []))
  /\ (forall key q,
        UserSearchDialog.searchUsers q
          ∈ snd (@UserSearchDialog.handleKeyDown D key st) ->
        key = "Enter" /\ q = UserSearchDialog.searchQuery st
        /\ 2 <= Js.length (Js.trim q))
  /\ (forall successMessage buttonLabel onUserAdded_given userId
             (answer : Js.settled (UserSearchDialog.AddUserResponse D)) q,
        UserSearchDialog.searchUsers q
          ∈ snd (UserSearchDialog.handleAddUser successMessage buttonLabel
                   onUserAdded_given userId answer st) ->
        q = UserSearchDialog.debouncedSearch st
        /\ Js.trim q <> EmptyString /\ 2 <= Js.length q
        /\ length (UserSearchDialog.searchResults st) = 1%nat)
  /\ (forall q,
        Js.trim q <> EmptyString -> 2 <= Js.length q ->
        snd (@UserSearchDialog.handleSearch D q st) = [UserSearchDialog.searchUsers q]).
Proof.
  assert (forall q query st',
            UserSearchDialog.searchUsers q
              ∈ snd (@UserSearchDialog.handleSearch D query st') ->
            q = query /\ Js.trim q <> EmptyString /\ 2 <= Js.length q) as sent.
  { intros q query st'. unfold UserSearchDialog.handleSearch.
    destruct (negb (Js.truthy (Js.trim query))) eqn:blank; simpl.
    { intros H. now apply elem_of_nil in H. }
    destruct (Js.length query <? 2) eqn:short; simpl.
    { intros H. now apply elem_of_nil in H. }
    intros H. apply list_elem_of_singleton in H. injection H as ->.
    apply negb_false_iff in blank. apply Z.ltb_ge in short.
    repeat split; [|assumption].
    intros empty. rewrite empty in blank. discriminate. }
  repeat apply conj.
  - intros q. unfold UserSearchDialog.debounced_effect. rewrite debounce_guard.
    destruct (2 <=? Js.length (Js.trim (UserSearchDialog.debouncedSearch st))) eqn:long.
    + intros H. apply sent in H as (-> & _ & _). split; [reflexivity|].
      now apply Z.leb_le.
    + simpl. intros H. now apply elem_of_nil in H.
  - intros short. unfold UserSearchDialog.debounced_effect.
    now rewrite debounce_guard, (proj2 (Z.leb_gt _ _) short).
  - intros key q. unfold UserSearchDialog.handleKeyDown.
    destruct (String.eqb key "Enter") eqn:enter; simpl.
    2:{ intros H. now apply elem_of_nil in H. }
    destruct (2 <=? Js.length (Js.trim (UserSearchDialog.searchQuery st))) eqn:long.
    2:{ simpl. intros H. now apply elem_of_nil in H. }
    intros H. apply sent in H as (-> & _ & _).
    apply String.eqb_eq in enter. apply Z.leb_le in long. now repeat split.
  - intros successMessage buttonLabel onUserAdded_given userId answer q.
    unfold UserSearchDialog.handleAddUser.
    destruct answer as [r|]; simpl.
    2:{ rewrite !elem_of_cons, elem_of_nil. intros [H|[H|[H|[]]]]; discriminate. }
    destruct (UserSearchDialog.success r); simpl.
    2:{ rewrite !elem_of_cons, elem_of_nil. intros [H|[H|[]]]; discriminate. }
    destruct (length (UserSearchDialog.searchResults st) =? 1)%nat eqn:sole; simpl.
    + rewrite !elem_of_cons, elem_of_app. intros [H|[H|[H|H]]]; try discriminate.
      * apply sent in H as (-> & nonempty & long). apply Nat.eqb_eq in sole.
        now repeat split.
      * destruct onUserAdded_given; [|now apply elem_of_nil in H].
        apply list_elem_of_singleton in H. discriminate.
    + rewrite !elem_of_cons. intros [H|[H|H]]; try discriminate.
      destruct onUserAdded_given; [|now apply elem_of_nil in H].
      apply list_elem_of_singleton in H. discriminate.
  - intros q nonempty long. unfold UserSearchDialog.handleSearch.
    replace (negb (Js.truthy (Js.trim q))) with false.
    2:{ symmetry. apply negb_false_iff. unfold Js.truthy. apply negb_true_iff.
        now apply String.eqb_neq. }
    simpl. now rewrite (proj2 (Z.ltb_ge _ _) long).
Qed.

Lemma user_searches_and_their_guards_witness :
  let st := Samples.user_dialog " a" [Samples.ann] in
  Js.trim " a" <> EmptyString
  /\ 2 <= Js.length " a"
  /\ snd (@UserSearchDialog.handleSearch unit " a" st)
     = [UserSearchDialog.searchUsers " a"].
Proof.
  intros st.
  assert (Js.trim " a" <> EmptyString) as nonempty by discriminate.
  assert (2 <= Js.length " a") as long by (vm_compute; discriminate).
  split; [exact nonempty|]. split; [exact long|].
  exact (proj2 (proj2 (proj2 (proj2 (user_searches_and_their_guards unit st))))
           " a" nonempty long).
Defined.

(** ** Changing the password *)

Import ChangePassword.



Ltac unfold_changePassword :=
  unfold changePassword, ChangePassword.try_catch, changePassword_try, catch_error,
    update_where_email, hash, ChangePassword.lift, mbind, ChangePassword.M_bind,
    mret, ChangePassword.M_ret.

(** X23.  Without a session, or with a session without an email,
    [changePassword] answers "Not authenticated" and does nothing else:
    the form is not validated, nothing is hashed, no statement is sent. *)
Theorem changePassword_requires_session
    (env : ChangePassword.environment) (values : ChangePasswordValues)
    (w : ChangePassword.world) :
  auth env = Ok None \/ auth env = Ok (Some EmptyString) ->
  changePassword env values w = (Ok (failure "Not authenticated"), w).
Proof.
  unfold_changePassword. now intros [-> | ->].
Qed.

Lemma changePassword_requires_session_witness :
  (auth Samples.signed_out = Ok None \/ auth Samples.signed_out = Ok (Some EmptyString))
  /\ changePassword Samples.signed_out Samples.new_secret Samples.accounts
     = (Ok (failure "Not authenticated"), Samples.accounts).
Proof.
  split; [now left|].
  apply (changePassword_requires_session Samples.signed_out Samples.new_secret
           Samples.accounts).
  now left.
Defined.

Lemma changePassword_goes_through env values w me v h :
  auth env = Ok (Some me) -> me <> EmptyString ->
  changePasswordSchema_parse env values = Ok v ->
  bcrypt_hash env (newPassword v) 12 = Ok h ->
  (forall e, head (ChangePassword.faults w) <> Some (Some e)) ->
  changePassword env values w
  = (Ok (mkResult true None None (Some "Password changed successfully")),
     ChangePassword.mkWorld
       (map (fun u => if String.eqb (email u) me
                      then set_password h (ChangePassword.now env) u else u)
          (users w))
       (tl (ChangePassword.faults w))
       ((ChangePassword.trace w ++ [Hash 12]) ++ [UpdateUsers me])).
Proof.
  intros session nonempty valid hashed quiet. unfold_changePassword.
  rewrite session. simpl. unfold Js.truthy.
  apply String.eqb_neq in nonempty. rewrite nonempty. simpl.
  rewrite valid. simpl. rewrite hashed. simpl.
  destruct (ChangePassword.faults w) as [|[e|] rest]; try reflexivity.
  now destruct (quiet e).
Qed.

(** X24.  With a session, a form the schema accepts, a hash function and
    a store that answer, [changePassword] succeeds; the rows with the
    email of the session get the hash of the new password (12 rounds),
    never the password itself, and the current time as update time; every
    other row stays as it is. *)
Theorem changePassword_updates_own_rows
    (env : ChangePassword.environment) (values validatedData : ChangePasswordValues)
    (w : ChangePassword.world) (me hashed : string) :
  auth env = Ok (Some me) -> me <> EmptyString ->
  changePasswordSchema_parse env values = Ok validatedData ->
  bcrypt_hash env (newPassword validatedData) 12 = Ok hashed ->
  (forall e, head (ChangePassword.faults w) <> Some (Some e)) ->
  let run := changePassword env values w in
  fst run = Ok (mkResult true None None (Some "Password changed successfully"))
  /\ length (users (snd run)) = length (users w)
  /\ (forall (i : nat) u,
        users w !! i = Some u ->
        users (snd run) !! i
        = Some (if String.eqb (email u) me
                then mkUser (ChangePassword.id u) (email u) (Some hashed)
                       (ChangePassword.now env)
                else u))
  /\ ChangePassword.trace (snd run)
     = (ChangePassword.trace w ++ [Hash 12; UpdateUsers me])%list.
Proof.
  intros session nonempty valid hashed_ok quiet run. subst run.
  rewrite (changePassword_goes_through env values w me validatedData hashed)
    by assumption.
  simpl. repeat apply conj.
  - reflexivity.
  - apply length_map.
  - intros i u at_i. rewrite list_lookup_fmap, at_i. reflexivity.
  - now rewrite <- app_assoc.
Qed.

Lemma changePassword_updates_own_rows_witness :
  auth Samples.signed_in = Ok (Some "ann@diu.edu.bd")
  /\ "ann@diu.edu.bd" <> EmptyString
  /\ changePasswordSchema_parse Samples.signed_in Samples.new_secret
     = Ok Samples.new_secret
  /\ bcrypt_hash Samples.signed_in (newPassword Samples.new_secret) 12
     = Ok "hashed:correct horse"
  /\ (forall e, head (ChangePassword.faults Samples.accounts) <> Some (Some e))
  /\ fst (changePassword Samples.signed_in Samples.new_secret Samples.accounts)
     = Ok (mkResult true None None (Some "Password changed successfully")).
Proof.
  assert ("ann@diu.edu.bd" <> EmptyString) as nonempty by discriminate.
  assert (forall e, head (ChangePassword.faults Samples.accounts) <> Some (Some e))
    as quiet by discriminate.
  split; [reflexivity|]. split; [exact nonempty|]. split; [reflexivity|].
  split; [reflexivity|]. split; [exact quiet|].
  exact (proj1 (changePassword_updates_own_rows Samples.signed_in Samples.new_secret
                  Samples.new_secret Samples.accounts "ann@diu.edu.bd"
                  "hashed:correct horse" eq_refl nonempty eq_refl eq_refl quiet)).
Defined.

(** X25.  The answer of [changePassword] does not depend on the rows of
    the table: the stored password is never read or compared.  In
    particular the action reports success when no row has the email of
    the session, and the table is then unchanged. *)
Theorem changePassword_never_consults_the_table
    (env : ChangePassword.environment) (values : ChangePasswordValues) :
  (forall w1 w2,
     ChangePassword.faults w1 = ChangePassword.faults w2 ->
     fst (changePassword env values w1) = fst (changePassword env values w2))
  /\ (forall w me validatedData hashed,
        auth env = Ok (Some me) -> me <> EmptyString ->
        changePasswordSchema_parse env values = Ok validatedData ->
        bcrypt_hash env (newPassword validatedData) 12 = Ok hashed ->
        (forall e, head (ChangePassword.faults w) <> Some (Some e)) ->
        Forall (fun u => email u <> me) (users w) ->
        fst (changePassword env values w)
        = Ok (mkResult true None None (Some "Password changed successfully"))
        /\ users (snd (changePassword env values w)) = users w).
Proof.
  split.
  - intros w1 w2 same. unfold_changePassword.
    destruct (auth env) as [[address|]|e]; simpl; try reflexivity.
    2:{ now destruct e as [? [[|? ?]|]|]. }
    destruct (Js.truthy address); simpl; try reflexivity.
    destruct (changePasswordSchema_parse env values) as [v|e]; simpl.
    2:{ now destruct e as [? [[|? ?]|]|]. }
    destruct (bcrypt_hash env (newPassword v) 12) as [h|e]; simpl.
    2:{ now destruct e as [? [[|? ?]|]|]. }
    rewrite same. destruct (ChangePassword.faults w2) as [|[e|] rest]; try reflexivity.
    now destruct e as [? [[|? ?]|]|].
  - intros w me validatedData hashed session nonempty valid hashed_ok quiet nobody.
    rewrite (changePassword_goes_through env values w me validatedData hashed)
      by assumption.
    split; [reflexivity|]. simpl.
    induction (users w) as [|u rest IH]; [reflexivity|].
    apply Forall_cons in nobody as [other nobody]. simpl.
    apply String.eqb_neq in other. rewrite other. f_equal. now apply IH.
Qed.

Lemma changePassword_never_consults_the_table_witness :
  let emptied := ChangePassword.mkWorld [] [] [] in
  ChangePassword.faults Samples.accounts = ChangePassword.faults emptied
  /\ fst (changePassword Samples.signed_in Samples.new_secret Samples.accounts)
     = fst (changePassword Samples.signed_in Samples.new_secret emptied).
Proof.
  intros emptied. split; [reflexivity|].
  exact (proj1 (changePassword_never_consults_the_table Samples.signed_in
                  Samples.new_secret) Samples.accounts emptied eq_refl).
Defined.

(** X26.  [changePassword] always answers, and a failure leaves the
    table unchanged.  A rejected form gives the message of the first
    issue, or "Invalid input"; any other error, thrown by the session
    lookup, by the hash function or by the store, gives "Failed to change
    password. Please try again.", whatever its message. *)
Theorem changePassword_failures
    (env : ChangePassword.environment) (values : ChangePasswordValues)
    (w : ChangePassword.world) :
  let run := changePassword env values w in
  (exists r, fst run = Ok r
             /\ (success r = false -> users (snd run) = users w))
  /\ (forall me msg issues,
        auth env = Ok (Some me) -> me <> EmptyString ->
        changePasswordSchema_parse env values = Throw (ErrorObject msg (Some issues)) ->
        run = (Ok (failure (match issues with
                            | first :: _ => if Js.truthy first then first
                                            else "Invalid input"
                            | [] => "Invalid input"
                            end)), w))
  /\ (forall e, isZodError e = false -> auth env = Throw e ->
      run = (Ok (failure "Failed to change password. Please try again."), w))
  /\ (forall me validatedData e,
        auth env = Ok (Some me) -> me <> EmptyString ->
        changePasswordSchema_parse env values = Ok validatedData ->
        isZodError e = false ->
        bcrypt_hash env (newPassword validatedData) 12 = Throw e
        \/ (exists hashed,
              bcrypt_hash env (newPassword validatedData) 12 = Ok hashed
              /\ head (ChangePassword.faults w) = Some (Some e)) ->
        fst run = Ok (failure "Failed to change password. Please try again.")
        /\ users (snd run) = users w).
Proof.
  intros run. subst run. repeat apply conj.
  - unfold_changePassword.
    destruct (auth env) as [[address|]|e]; simpl; eauto.
    2:{ destruct e as [? [[|? ?]|]|]; simpl; eauto. }
    destruct (Js.truthy address); simpl; eauto.
    destruct (changePasswordSchema_parse env values) as [v|e]; simpl.
    2:{ destruct e as [? [[|? ?]|]|]; simpl; eauto. }
    destruct (bcrypt_hash env (newPassword v) 12) as [h|e]; simpl.
    2:{ destruct e as [? [[|? ?]|]|]; simpl; eauto. }
    destruct (ChangePassword.faults w) as [|[e|] rest]; simpl;
      try (eexists; split; [reflexivity|discriminate]).
    destruct e as [? [[|? ?]|]|]; simpl; eauto.
  - intros me msg issues session nonempty invalid. unfold_changePassword.
    rewrite session. simpl. unfold Js.truthy at 1.
    apply String.eqb_neq in nonempty. rewrite nonempty. simpl.
    rewrite invalid. reflexivity.
  - intros e plain thrown_by_auth. unfold_changePassword.
    rewrite thrown_by_auth. simpl.
    destruct e as [? [?|]|]; simpl in plain; try discriminate; reflexivity.
  - intros me validatedData e session nonempty valid plain fails.
    unfold_changePassword.
    assert (Js.truthy me = true) as present
      by (unfold Js.truthy; apply String.eqb_neq in nonempty; now rewrite nonempty).
    rewrite session. simpl. rewrite !present. simpl.
    rewrite valid. simpl.
    destruct fails as [fails|(hashed & hashed_ok & fails)].
    + rewrite fails. simpl.
      destruct e as [? [?|]|]; simpl in plain; try discriminate; split; reflexivity.
    + rewrite hashed_ok. simpl.
      destruct (ChangePassword.faults w) as [|[e'|] rest]; try discriminate.
      injection fails as ->. simpl.
      destruct e as [? [?|]|]; simpl in plain; try discriminate; split; reflexivity.
Qed.

Lemma changePassword_failures_witness :
  auth Samples.signed_in_strict = Ok (Some "ann@diu.edu.bd")
  /\ "ann@diu.edu.bd" <> EmptyString
  /\ changePasswordSchema_parse Samples.signed_in_strict Samples.new_secret
     = Throw (ErrorObject "invalid" (Some ["Passwords do not match"]))
  /\ changePassword Samples.signed_in_strict Samples.new_secret Samples.accounts
     = (Ok (failure "Passwords do not match"), Samples.accounts).
Proof.
  assert ("ann@diu.edu.bd" <> EmptyString) as nonempty by discriminate.
  split; [reflexivity|]. split; [exact nonempty|]. split; [reflexivity|].
  exact (proj1 (proj2 (changePassword_failures Samples.signed_in_strict
                         Samples.new_secret Samples.accounts))
           "ann@diu.edu.bd" "invalid" ["Passwords do not match"]
           eq_refl nonempty eq_refl).
Defined.
